(** * solo (SSolar-GOA): clear-sky transmittance and irradiance engine

    A shallow embedding of [solo/api/Geometry.py], [solo/api/Atmosphere.py]
    and [solo/radtran.py].

    Conventions of the embedding:
    - numpy's [float64] is idealised as the real numbers [R]: no rounding, no
      [nan]/[inf] (a division by zero takes Rocq's value [x / 0 = 0]);
    - a numpy array is a shape together with its row-major data, and array
      arithmetic goes through numpy's broadcasting rule, which can raise;
    - a Python exception is an error result, a Python tuple is a list of
      objects, and Python's [bool] flags are Rocq's [bool] (so the
      [isinstance(x, bool)] guards always pass and are left out). *)

From Stdlib Require Import String.
From Stdlib Require Import Reals List Lia Lra Arith Bool.
Import ListNotations.

(* ================================================================== *)
(** * Part I: definitions *)
(* ================================================================== *)

(** ** Python exceptions as an error monad *)

Module Py.

Inductive exn : Type :=
| AttributeError
| ValueError
| IndexError
| TypeError.

Inductive result (A : Type) : Type :=
| Ok (a : A)
| Raise (e : exn).

Arguments Ok {A} a.
Arguments Raise {A} e.

Definition bind {A B : Type} (m : result A) (k : A -> result B) : result B :=
  match m with
  | Ok a => k a
  | Raise e => Raise e
  end.

Notation "x <- m ;; k" := (bind m (fun x => k))
  (at level 61, m at next level, right associativity).
Notation "' pat <- m ;; k" := (bind m (fun x => match x with pat => k end))
  (at level 61, pat pattern, m at next level, right associativity).

(** [seq[i]] on a Python list or tuple. *)
Definition getitem {A : Type} (l : list A) (i : nat) : result A :=
  match nth_error l i with
  | Some x => Ok x
  | None => Raise IndexError
  end.

End Py.

Import Py.

(** ** The part of numpy the engine uses *)

Module Np.

Record ndarray (A : Type) : Type := mk_ndarray {
  shape : list nat;
  data : list A
}.

Arguments mk_ndarray {A} shape data.
Arguments shape {A} n.
Arguments data {A} n.

(** Number of elements of an array of shape [s]. *)
Definition size (s : list nat) : nat := fold_right Nat.mul 1%nat s.

Definition ndim {A : Type} (a : ndarray A) : nat := length (shape a).

(** The data of a well-formed array fills its shape. *)
Definition wf {A : Type} (a : ndarray A) : Prop :=
  length (data a) = size (shape a).

(** A Python scalar seen as a 0-d array, and [np.asarray] of a flat list. *)
Definition scalar {A : Type} (x : A) : ndarray A := mk_ndarray [] [x].

Definition asarray {A : Type} (l : list A) : ndarray A :=
  mk_ndarray [length l] l.

Definition atleast_1d {A : Type} (a : ndarray A) : ndarray A :=
  match shape a with
  | [] => mk_ndarray [1%nat] (data a)
  | _ :: _ => a
  end.

Definition squeeze {A : Type} (a : ndarray A) : ndarray A :=
  mk_ndarray (filter (fun d => negb (d =? 1)%nat) (shape a)) (data a).

(** [a[:, None]]: a new axis after the first one; a 0-d array has no first
    axis to slice. *)
Definition colon_none {A : Type} (a : ndarray A) : result (ndarray A) :=
  match shape a with
  | [] => Raise IndexError
  | d :: s => Ok (mk_ndarray (d :: 1%nat :: s) (data a))
  end.

(** [a[None, :, None]]. *)
Definition none_colon_none {A : Type} (a : ndarray A) : result (ndarray A) :=
  match shape a with
  | [] => Raise IndexError
  | d :: s => Ok (mk_ndarray (1%nat :: d :: 1%nat :: s) (data a))
  end.

(** [a[i]] for an integer [i >= 0]: the [i]-th sub-array along axis 0. *)
Definition getrow {A : Type} (a : ndarray A) (i : nat) : result (ndarray A) :=
  match shape a with
  | [] => Raise IndexError
  | d :: s =>
      if (i <? d)%nat
      then Ok (mk_ndarray s (firstn (size s) (skipn (i * size s) (data a))))
      else Raise IndexError
  end.

Definition full {A : Type} (s : list nat) (v : A) : ndarray A :=
  mk_ndarray s (repeat v (size s)).

(** An elementwise function of one array (also: of an array and Python
    scalars). *)
Definition amap {A B : Type} (f : A -> B) (a : ndarray A) : ndarray B :=
  mk_ndarray (shape a) (map f (data a)).

(** [np.any(cond(a))]. *)
Definition any {A : Type} (cond : A -> bool) (a : ndarray A) : bool :=
  existsb cond (data a).

(** *** Broadcasting *)

Definition pad_shape (n : nat) (s : list nat) : list nat :=
  repeat 1%nat (n - length s) ++ s.

Definition bdim (a b : nat) : option nat :=
  if (a =? b)%nat then Some a
  else if (a =? 1)%nat then Some b
  else if (b =? 1)%nat then Some a
  else None.

Fixpoint bshape_aligned (s t : list nat) : option (list nat) :=
  match s, t with
  | [], [] => Some []
  | a :: s', b :: t' =>
      match bdim a b, bshape_aligned s' t' with
      | Some d, Some r => Some (d :: r)
      | _, _ => None
      end
  | _, _ => None
  end.

Definition broadcast_shapes (s t : list nat) : option (list nat) :=
  let n := Nat.max (length s) (length t) in
  bshape_aligned (pad_shape n s) (pad_shape n t).

(** Row-major multi-index of the flat index [idx] in shape [t]. *)
Fixpoint unravel (t : list nat) (idx : nat) : list nat :=
  match t with
  | [] => []
  | _ :: t' => (idx / size t')%nat :: unravel t' (idx mod size t')
  end.

(** Flat index in an operand of (padded) shape [s] of the result's
    multi-index [mi]: an axis of length 1 is read at position 0. *)
Fixpoint ravel_bc (s mi : list nat) : nat :=
  match s, mi with
  | d :: s', i :: mi' =>
      ((if (d =? 1)%nat then 0 else i) * size s' + ravel_bc s' mi')%nat
  | _, _ => 0%nat
  end.

Definition src_index (s t : list nat) (idx : nat) : nat :=
  ravel_bc (pad_shape (length t) s) (unravel t idx).

(** An elementwise binary operation under numpy's broadcasting rule. *)
Definition broadcast2 {A B C : Type} (f : A -> B -> C) (da : A) (db : B)
    (a : ndarray A) (b : ndarray B) : result (ndarray C) :=
  match broadcast_shapes (shape a) (shape b) with
  | Some t =>
      Ok (mk_ndarray t
            (map (fun idx =>
                    f (nth (src_index (shape a) t idx) (data a) da)
                      (nth (src_index (shape b) t idx) (data b) db))
                 (seq 0 (size t))))
  | None => Raise ValueError
  end.

Local Open Scope R_scope.

Definition add : ndarray R -> ndarray R -> result (ndarray R) :=
  broadcast2 Rplus 0 0.
Definition sub : ndarray R -> ndarray R -> result (ndarray R) :=
  broadcast2 Rminus 0 0.
Definition mul : ndarray R -> ndarray R -> result (ndarray R) :=
  broadcast2 Rmult 0 0.
Definition div : ndarray R -> ndarray R -> result (ndarray R) :=
  broadcast2 Rdiv 0 0.

(** [x ** y] on floats, where the real numbers can follow: a zero exponent
    gives 1, a zero base with a positive exponent gives 0, a positive base
    gives [exp (y * ln x)].  (A zero base with a negative exponent is [inf]
    in numpy, a negative base with a fractional exponent [nan]; both lie
    outside this model.) *)
Definition float_power (x y : R) : R :=
  if Req_dec_T y 0 then 1
  else if Req_dec_T x 0 then 0
  else Rpower x y.

Definition power : ndarray R -> ndarray R -> result (ndarray R) :=
  broadcast2 float_power 0 0.

Definition Rltb (x y : R) : bool := if Rlt_dec x y then true else false.
Definition Rleb (x y : R) : bool := if Rle_dec x y then true else false.

(** [np.isclose(a, b)] with numpy's default [rtol=1e-05], [atol=1e-08]. *)
Definition isclose1 (a b : R) : bool :=
  Rleb (Rabs (a - b)) (1e-8 + 1e-5 * Rabs b).

(** [np.where(cond, x, y)] for a scalar [x]. *)
Definition where_scalar (cond : ndarray bool) (x : R) (y : ndarray R)
  : result (ndarray R) :=
  broadcast2 (fun (c : bool) (v : R) => if c then x else v) false 0 cond y.

(** [np.interp(x, xp, fp)]: piecewise-linear through the points
    [(xp[i], fp[i])], [xp] increasing, constant outside [xp]'s range. *)
Fixpoint interp_from (x x0 y0 : R) (xp fp : list R) : R :=
  match xp, fp with
  | x1 :: xp', y1 :: fp' =>
      if Rlt_dec x x1
      then (y1 - y0) / (x1 - x0) * (x - x0) + y0
      else interp_from x x1 y1 xp' fp'
  | _, _ => y0
  end.

Definition interp1 (xp fp : list R) (x : R) : R :=
  match xp, fp with
  | x0 :: xp', y0 :: fp' =>
      if Rle_dec x x0 then y0 else interp_from x x0 y0 xp' fp'
  | _, _ => 0
  end.

Definition interp (x : ndarray R) (xp fp : list R) : result (ndarray R) :=
  if (length xp =? 0)%nat || negb (length xp =? length fp)%nat
  then Raise ValueError
  else Ok (amap (interp1 xp fp) x).

(** Row [i] of a 2-d table, as [table[[0, i]]] hands it to [np.interp]. *)
Definition table_row (a : ndarray R) (i : nat) : list R :=
  let c := size (tl (shape a)) in
  firstn c (skipn (i * c) (data a)).

(** [np.atleast_2d], [a.ravel()] and [a.T] (the axes reversed). *)
Definition atleast_2d {A : Type} (a : ndarray A) : ndarray A :=
  match shape a with
  | [] => mk_ndarray [1%nat; 1%nat] (data a)
  | [k] => mk_ndarray [1%nat; k] (data a)
  | _ :: _ :: _ => a
  end.

Definition ravel {A : Type} (a : ndarray A) : ndarray A :=
  mk_ndarray [size (shape a)] (data a).

Definition transpose (a : ndarray R) : ndarray R :=
  let t := rev (shape a) in
  mk_ndarray t
    (map (fun idx => nth (ravel_bc (shape a) (rev (unravel t idx))) (data a) 0)
         (seq 0 (size t))).

(** The items of an unpacked array: the sub-arrays along the first axis; a
    0-d array cannot be iterated. *)
Definition unstack {A : Type} (a : ndarray A) : result (list (ndarray A)) :=
  match shape a with
  | [] => Raise TypeError
  | d :: s =>
      Ok (map (fun i => mk_ndarray s
                          (firstn (size s) (skipn (i * size s) (data a))))
              (seq 0 d))
  end.

End Np.

Import Np.

Local Open Scope R_scope.

(** ** Python objects returned by the engine: an array or a tuple *)

#[local] Set Warnings "-register-all".

Inductive pyobj : Type :=
| PyArr (a : ndarray R)
| PyTuple (l : list pyobj).

(** [o[i]]: a tuple item, or the [i]-th row of an array. *)
Definition py_getitem (o : pyobj) (i : nat) : result pyobj :=
  match o with
  | PyTuple l => getitem l i
  | PyArr a => r <- getrow a i ;; Ok (PyArr r)
  end.

(** The array operand of a numpy operation.  Every operand the engine hands
    to numpy is an array; a tuple there would first go through [np.asarray],
    which only the empty tuple is given a meaning for here. *)
Definition as_array (o : pyobj) : result (ndarray R) :=
  match o with
  | PyArr a => Ok a
  | PyTuple [] => Ok (mk_ndarray [0%nat] [])
  | PyTuple (_ :: _) => Raise TypeError
  end.

(** Python's [+]: array addition, or tuple concatenation. *)
Definition py_add (x y : pyobj) : result pyobj :=
  match x, y with
  | PyTuple l1, PyTuple l2 => Ok (PyTuple (l1 ++ l2))
  | _, _ => a <- as_array x ;; b <- as_array y ;; r <- add a b ;; Ok (PyArr r)
  end.

Definition py_mul (x y : pyobj) : result pyobj :=
  a <- as_array x ;; b <- as_array y ;; r <- mul a b ;; Ok (PyArr r).

Definition py_sub (x y : pyobj) : result pyobj :=
  a <- as_array x ;; b <- as_array y ;; r <- sub a b ;; Ok (PyArr r).

(** [a, b, c = t] and [a, b, c, d = t]. *)
Definition unpack3 {A : Type} (t : list A) : result (A * A * A) :=
  match t with
  | [a; b; c] => Ok (a, b, c)
  | _ => Raise ValueError
  end.

Definition unpack4 {A : Type} (t : list A) : result (A * A * A * A) :=
  match t with
  | [a; b; c; d] => Ok (a, b, c, d)
  | _ => Raise ValueError
  end.

(** [len(set(np.shape(x) for x in items))] and [list(...)[0]]. *)
Definition set_of_shapes (items : list (ndarray R)) : list (list nat) :=
  nodup (list_eq_dec Nat.eq_dec) (map shape items).

(** ** solo/api/Geometry.py *)

Module Geometry.

Record Geometry : Type := mk {
  day : ndarray R;
  lat : ndarray R;
  lon : ndarray R;
  sza : ndarray R;
  mu0 : ndarray R
}.

(** [np.radians]. *)
Definition radians (x : R) : R := x * PI / 180.

(** [Geometry.__new__]. *)
Definition new (lat lon sza day : ndarray R) (mode : string)
  : result Geometry :=
  let set_shapes := set_of_shapes [lat; lon; sza; day] in
  if (1 <? length set_shapes)%nat then Raise AttributeError else
  let set_shapes := hd [] set_shapes in
  if (1 <? length set_shapes)%nat then Raise AttributeError else
  '(lat, lon, sza) <-
     (if String.eqb mode "deg"
      then Ok (amap radians lat, amap radians lon, amap radians sza)
      else if String.eqb mode "rad" then Ok (lat, lon, sza)
      else Raise ValueError) ;;
  if any (fun x => Rltb (PI / 2) (Rabs x)) lat then Raise ValueError else
  if any (fun x => Rltb PI (Rabs x)) lon then Raise ValueError else
  if any (fun x => Rltb (PI / 2) (Rabs (x - PI / 2))) sza
  then Raise ValueError else
  if any (fun d => Rltb d 1) day || any (fun d => Rltb 366 d) day
  then Raise ValueError else
  let mu0 := amap cos sza in
  Ok (mk day lat lon sza mu0).

Definition day_angle (self : Geometry) : ndarray R :=
  amap (fun d => 2 * PI * (d - 1) / 365) (day self).

Definition ngeo (self : Geometry) : nat :=
  match shape (mu0 self) with
  | [] => 1%nat
  | d :: _ => d
  end.

(** [Geometry.geometric_factor(squeeze=True)]. *)
Definition geometric_factor (self : Geometry) (squeeze : bool)
  : result (ndarray R) :=
  let c0 := 1.00011 in
  let c1 := 0.03422 in
  let c2 := 0.00128 in
  let c3 := 0.000719 in
  let c4 := 0.000077 in
  let day_ang1 := day_angle self in
  let day_ang2 := amap (fun x => x * 2) day_ang1 in
  s1 <- add (amap (fun x => c0 + c1 * cos x) day_ang1)
            (amap (fun x => c2 * sin x) day_ang1) ;;
  s2 <- add s1 (amap (fun x => c3 * cos x) day_ang2) ;;
  geo_factor <- add s2 (amap (fun x => c4 * sin x) day_ang2) ;;
  if squeeze
  then Ok (Np.squeeze geo_factor)
  else none_colon_none (atleast_1d geo_factor).

End Geometry.

(** ** solo/api/Atmosphere.py *)

Module Atmosphere.

Definition DEFAULT_P : R := 1013.
Definition DEFAULT_W0 : R := 0.90.
Definition DEFAULT_G : R := 0.85.

Record Atmosphere : Type := mk {
  p : ndarray R;
  rho : ndarray R;
  o3 : ndarray R;
  h2o : ndarray R;
  alpha : ndarray R;
  beta : ndarray R;
  w0 : ndarray R;
  g : ndarray R
}.

(** [x for x in [w0, g] if x is not None]. *)
Definition given (opts : list (option (ndarray R))) : list (ndarray R) :=
  flat_map (fun o => match o with Some x => [x] | None => [] end) opts.

(** [Atmosphere.__new__]. *)
Definition new (p rho o3 h2o alpha beta : ndarray R)
    (w0 g : option (ndarray R)) : result Atmosphere :=
  let items := [p; rho; o3; h2o; alpha; beta] ++ given [w0; g] in
  let set_shapes := set_of_shapes items in
  if (1 <? length set_shapes)%nat then Raise AttributeError else
  let set_shapes := hd [] set_shapes in
  if (1 <? length set_shapes)%nat then Raise AttributeError else
  let p := atleast_1d p in
  if any (fun x => Rltb x 0) p then Raise ValueError else
  let rho := atleast_1d rho in
  if any (fun x => Rltb x 0) rho || any (fun x => Rltb 1 x) rho
  then Raise ValueError else
  let o3 := atleast_1d o3 in
  if any (fun x => Rltb x 0) o3 then Raise ValueError else
  let h2o := atleast_1d h2o in
  if any (fun x => Rltb x 0) h2o then Raise ValueError else
  let alpha := atleast_1d alpha in
  if any (fun x => Rltb x 0) alpha then Raise ValueError else
  let beta := atleast_1d beta in
  if any (fun x => Rltb x 0) beta then Raise ValueError else
  w0 <- match w0 with
        | None => Ok (full set_shapes DEFAULT_W0)
        | Some w0 =>
            if any (fun x => Rltb x 0) w0 || any (fun x => Rltb 1 x) w0
            then Raise ValueError else Ok w0
        end ;;
  let w0 := atleast_1d w0 in
  g <- match g with
       | None => Ok (full set_shapes DEFAULT_G)
       | Some g =>
           if any (fun x => Rltb 1 (Rabs x)) g
           then Raise ValueError else Ok g
       end ;;
  let g := atleast_1d g in
  Ok (mk p rho o3 h2o alpha beta w0 g).

(** [Atmosphere.nscen]: [np.shape(self.p)[0]]. *)
Definition nscen (self : Atmosphere) : result nat :=
  getitem (shape (p self)) 0.

(** The guard shared by the transmittance methods:
    [self.nscen != 1 and mu0.shape[0] not in [1, self.nscen]]. *)
Definition mu0_mismatch (self : Atmosphere) (mu0 : ndarray R) : result bool :=
  n <- nscen self ;;
  if negb (n =? 1)%nat
  then m <- getitem (shape mu0) 0 ;;
       Ok (negb (existsb (Nat.eqb m) [1%nat; n]))
  else Ok false.

(** [Atmosphere.tau_rayleigh]. *)
Definition tau_rayleigh (self : Atmosphere) (wvln_um : ndarray R)
    (return_albedo : bool) : result pyobj :=
  if (1 <? ndim wvln_um)%nat then Raise ValueError else
  let c0 := 117.2594 in
  let c1 := -1.3215 in
  let c2 := 0.000320 in
  let c3 := -0.000076 in
  let wvln_um := atleast_1d wvln_um in
  pressure <- colon_none (p self) ;;
  let wvln_um2 := amap (fun x => x ^ 2) wvln_um in
  let wvln_um4 := amap (fun x => x ^ 2) wvln_um2 in
  d1 <- add (amap (fun x => c0 * x) wvln_um4)
            (amap (fun x => c1 * x) wvln_um2) ;;
  div_ <- add (amap (fun x => x + c2) d1) (amap (fun x => c3 / x) wvln_um4) ;;
  tau <- div (amap (fun x => x / DEFAULT_P) pressure) div_ ;;
  salb <- (if return_albedo
           then n <- mul tau (amap (fun t => 1 - exp (-2 * t)) tau) ;;
                salb <- div n (amap (fun t => 2 + t) tau) ;;
                Ok [PyArr salb]
           else Ok []) ;;
  let out := PyArr tau :: salb in
  if (1 <? length out)%nat then Ok (PyTuple out) else getitem out 0.

(** [Atmosphere.tau_aerosols]. *)
Definition tau_aerosols (self : Atmosphere) (wvln_um : ndarray R)
    (return_albedo : bool) : result pyobj :=
  if (1 <? ndim wvln_um)%nat then Raise ValueError else
  let wvln_um := atleast_1d wvln_um in
  alpha <- colon_none (alpha self) ;;
  beta <- colon_none (beta self) ;;
  pw <- power wvln_um alpha ;;
  tau <- div beta pw ;;
  salb <- (if return_albedo
           then g1 <- mul (amap (fun x => 1 - x) (g self)) (w0 self) ;;
                g <- colon_none g1 ;;
                gt <- mul g tau ;;
                gt2 <- mul g tau ;;
                q <- div gt (amap (fun x => 2 + x) gt2) ;;
                ngt <- mul (amap Ropp g) tau ;;
                salb <- mul q (amap (fun x => 1 + exp x) ngt) ;;
                Ok [PyArr salb]
           else Ok []) ;;
  let out := PyArr tau :: salb in
  if (1 <? length out)%nat then Ok (PyTuple out) else getitem out 0.

(** [Atmosphere.trn_rayleigh]; the result is the Python tuple. *)
Definition trn_rayleigh (self : Atmosphere) (wvln_um mu0 : ndarray R)
    (return_albedo : bool) : result (list pyobj) :=
  if (1 <? ndim mu0)%nat then Raise ValueError else
  mu0 <- colon_none (atleast_1d mu0) ;;
  bad <- mu0_mismatch self mu0 ;;
  if bad : bool then Raise IndexError else
  out <- tau_rayleigh self wvln_um return_albedo ;;
  '(tau, salb) <- (if return_albedo
                   then o0 <- py_getitem out 0 ;;
                        o1 <- py_getitem out 1 ;;
                        Ok (o0, [o1])
                   else Ok (out, [])) ;;
  tau <- as_array tau ;;
  e <- div (amap (fun t => -1.0 * t) tau) mu0 ;;
  let tdir := amap exp e in
  let c0 := 2 / 3 in
  let c1 := 4 / 3 in
  n1 <- mul (amap (fun m => c0 - m) mu0) tdir ;;
  n2 <- add (amap (fun m => c0 + m) mu0) n1 ;;
  tglb <- div n2 (amap (fun t => c1 + t) tau) ;;
  tdif <- sub tglb tdir ;;
  Ok ([PyArr tglb; PyArr tdir; PyArr tdif] ++ salb).

(** [Atmosphere.trn_aerosols]. *)
Definition trn_aerosols (self : Atmosphere) (wvln_um mu0 : ndarray R)
    (return_albedo coupling : bool) : result (list pyobj) :=
  if (1 <? ndim mu0)%nat then Raise ValueError else
  mu0 <- colon_none (atleast_1d mu0) ;;
  bad <- mu0_mismatch self mu0 ;;
  if bad : bool then Raise IndexError else
  out <- tau_aerosols self wvln_um return_albedo ;;
  '(tau, salb) <- (if return_albedo
                   then o0 <- py_getitem out 0 ;;
                        o1 <- py_getitem out 1 ;;
                        Ok (o0, o1)
                   else Ok (out, PyTuple [])) ;;
  g <- colon_none (g self) ;;
  w0 <- colon_none (w0 self) ;;
  '(tau, salb, g, w0) <-
     (if coupling
      then out <- tau_rayleigh self wvln_um return_albedo ;;
           '(tau_ray, sray) <- (if return_albedo
                                then o0 <- py_getitem out 0 ;;
                                     o1 <- py_getitem out 1 ;;
                                     Ok (o0, o1)
                                else Ok (out, PyTuple [])) ;;
           let tau_aer := tau in
           let saer := salb in
           tau <- py_add tau_ray tau_aer ;;
           salb <- py_add sray saer ;;
           tau_ray <- as_array tau_ray ;;
           tau_aer <- as_array tau_aer ;;
           tau <- as_array tau ;;
           ag <- mul tau_aer g ;;
           g <- div ag tau ;;
           wa <- mul w0 tau_aer ;;
           rwa <- add tau_ray wa ;;
           w0 <- div rwa tau ;;
           Ok (tau, salb, g, w0)
      else tau <- as_array tau ;; Ok (tau, salb, g, w0)) ;;
  let salb := [salb] in
  wg <- mul w0 g ;;
  k2 <- mul (amap (fun x => 1 - x) w0) (amap (fun x => 1 - x) wg) ;;
  let ak := amap sqrt k2 in
  rn <- add (amap (fun x => x - 1) ak) w0 ;;
  rd <- sub (amap (fun x => x + 1) ak) w0 ;;
  r0 <- div rn rd ;;
  e <- div (amap (fun t => -1.0 * t) tau) mu0 ;;
  let tdir := amap exp e in
  tdir_k <- power tdir ak ;;
  gn <- mul (amap (fun r => 1 - r ^ 2) r0) tdir_k ;;
  rt <- mul r0 tdir_k ;;
  tglb <- div gn (amap (fun x => 1 - x ^ 2) rt) ;;
  tdif <- sub tglb tdir ;;
  Ok ([PyArr tglb; PyArr tdir; PyArr tdif] ++ salb).

(** [Atmosphere.trn_mixture]. *)
Definition trn_mixture (self : Atmosphere) (wvln_um mu0 : ndarray R)
    (return_albedo coupling : bool) : result (list pyobj) :=
  '(tglb, tdir, tdif, salb) <-
     (if coupling
      then out <- trn_aerosols self wvln_um mu0 return_albedo true ;;
           '(tglb, tdir, tdif) <- unpack3 (firstn 3 out) ;;
           salb <- (if return_albedo
                    then o3 <- getitem out 3 ;; Ok [o3]
                    else Ok []) ;;
           Ok (tglb, tdir, tdif, salb)
      else out <- trn_rayleigh self wvln_um mu0 return_albedo ;;
           '(tglb_ray, tdir_ray, _) <- unpack3 (firstn 3 out) ;;
           sray <- (if return_albedo then getitem out 3
                    else Ok (PyTuple [])) ;;
           out <- trn_aerosols self wvln_um mu0 return_albedo false ;;
           '(tglb_aer, tdir_aer, _) <- unpack3 (firstn 3 out) ;;
           saer <- (if return_albedo then getitem out 3
                    else Ok (PyTuple [])) ;;
           tglb <- py_mul tglb_ray tglb_aer ;;
           tdir <- py_mul tdir_ray tdir_aer ;;
           tdif <- py_sub tglb tdir ;;
           salb <- (if return_albedo
                    then s <- py_add sray saer ;; Ok [s]
                    else Ok []) ;;
           Ok (tglb, tdir, tdif, salb)) ;;
  Ok ([tglb; tdir; tdif] ++ salb).

(** The gas transmittances read the process-wide table [ABSCOEF], loaded
    from [dat/abscoef.dat]: row 0 holds the wavelengths in nm, rows 1 to 4
    the water-vapour coefficient, water-vapour exponent, ozone cross-section
    and oxygen coefficient.  The data file is not part of the sources, so the
    table is a parameter. *)
Section GasAbsorption.

Variable ABSCOEF : ndarray R.

(** [Atmosphere.trn_water]. *)
Definition trn_water (self : Atmosphere) (wvln mu0 : ndarray R)
  : result (ndarray R) :=
  if (1 <? ndim wvln)%nat then Raise ValueError else
  let wvln := atleast_1d wvln in
  if (1 <? ndim mu0)%nat then Raise ValueError else
  mu0 <- colon_none (atleast_1d mu0) ;;
  bad <- mu0_mismatch self mu0 ;;
  if bad : bool then Raise IndexError else
  water_coef <- interp wvln (table_row ABSCOEF 0) (table_row ABSCOEF 1) ;;
  water_exp <- interp wvln (table_row ABSCOEF 0) (table_row ABSCOEF 2) ;;
  water_path <- colon_none (h2o self) ;;
  kl <- mul water_coef water_path ;;
  klm <- div kl mu0 ;;
  pw <- power klm water_exp ;;
  where_scalar (amap (fun a => isclose1 a 0.0) water_exp) 1.0
               (amap (fun x => exp (- x)) pw).

(** [Atmosphere.trn_ozone]. *)
Definition trn_ozone (self : Atmosphere) (wvln mu0 : ndarray R)
  : result (ndarray R) :=
  if (1 <? ndim wvln)%nat then Raise ValueError else
  let wvln := atleast_1d wvln in
  if (1 <? ndim mu0)%nat then Raise ValueError else
  mu0 <- colon_none (atleast_1d mu0) ;;
  bad <- mu0_mismatch self mu0 ;;
  if bad : bool then Raise IndexError else
  ozone_xsec <- interp wvln (table_row ABSCOEF 0) (table_row ABSCOEF 3) ;;
  let ozone_coef := amap (fun x => 2.687e19 * x) ozone_xsec in
  ozone_path <- colon_none (amap (fun x => 1e-3 * x) (o3 self)) ;;
  kl <- mul (amap Ropp ozone_coef) ozone_path ;;
  klm <- div kl mu0 ;;
  Ok (amap exp klm).

(** [Atmosphere.trn_oxygen]. *)
Definition trn_oxygen (self : Atmosphere) (wvln mu0 : ndarray R)
  : result (ndarray R) :=
  if (1 <? ndim wvln)%nat then Raise ValueError else
  let wvln := atleast_1d wvln in
  if (1 <? ndim mu0)%nat then Raise ValueError else
  mu0 <- colon_none (atleast_1d mu0) ;;
  bad <- mu0_mismatch self mu0 ;;
  if bad : bool then Raise IndexError else
  oxygen_coef <- interp wvln (table_row ABSCOEF 0) (table_row ABSCOEF 4) ;;
  oxygen_path <- colon_none (asarray [0.209 * 173200]) ;;
  let oxygen_exp := 0.5641 in
  kl <- mul oxygen_coef oxygen_path ;;
  klm <- div kl mu0 ;;
  Ok (amap (fun x => exp (- float_power x oxygen_exp)) klm).

(** One call of an engine operation on a receiver.  The receiver is a
    namedtuple of arrays that every method only reads (no attribute is
    assigned and no array is updated in place), so the state left behind
    by a call is the receiver it was given. *)
Inductive call : Type :=
| TauRayleigh (wvln_um : ndarray R) (return_albedo : bool)
| TauAerosols (wvln_um : ndarray R) (return_albedo : bool)
| TrnRayleigh (wvln_um mu0 : ndarray R) (return_albedo : bool)
| TrnAerosols (wvln_um mu0 : ndarray R) (return_albedo coupling : bool)
| TrnMixture (wvln_um mu0 : ndarray R) (return_albedo coupling : bool)
| TrnWater (wvln mu0 : ndarray R)
| TrnOzone (wvln mu0 : ndarray R)
| TrnOxygen (wvln mu0 : ndarray R).

Definition invoke (c : call) (self : Atmosphere)
  : Atmosphere * result pyobj :=
  let tuple (r : result (list pyobj)) := t <- r ;; Ok (PyTuple t) in
  let array (r : result (ndarray R)) := a <- r ;; Ok (PyArr a) in
  match c with
  | TauRayleigh w ra => (self, tau_rayleigh self w ra)
  | TauAerosols w ra => (self, tau_aerosols self w ra)
  | TrnRayleigh w m ra => (self, tuple (trn_rayleigh self w m ra))
  | TrnAerosols w m ra cp => (self, tuple (trn_aerosols self w m ra cp))
  | TrnMixture w m ra cp => (self, tuple (trn_mixture self w m ra cp))
  | TrnWater w m => (self, array (trn_water self w m))
  | TrnOzone w m => (self, array (trn_ozone self w m))
  | TrnOxygen w m => (self, array (trn_oxygen self w m))
  end.

End GasAbsorption.

(** The call of [Atmosphere] on unpacked arguments: six to eight positional
    arguments. *)
Definition new_from_args (args : list (ndarray R)) : result Atmosphere :=
  match args with
  | [p; rho; o3; h2o; alpha; beta] =>
      new p rho o3 h2o alpha beta None None
  | [p; rho; o3; h2o; alpha; beta; w0] =>
      new p rho o3 h2o alpha beta (Some w0) None
  | [p; rho; o3; h2o; alpha; beta; w0; g] =>
      new p rho o3 h2o alpha beta (Some w0) (Some g)
  | _ => Raise TypeError
  end.

(** [Atmosphere.from_file]; [loaded] stands for [np.loadtxt(path)]. *)
Definition from_file (loaded : ndarray R) : result Atmosphere :=
  let data := atleast_2d loaded in
  args <- (if existsb (fun s => if list_eq_dec Nat.eq_dec (shape data) s
                               then true else false)
                      [[3; 2]; [4; 2]]%nat
           then Ok (ravel data)
           else c <- getitem (shape data) 1 ;;
                if existsb (Nat.eqb c) [6; 8]%nat
                then Ok (transpose data)
                else Raise ValueError) ;;
  args <- unstack args ;;
  new_from_args args.

End Atmosphere.

(** ** solo/radtran.py *)

Module Radtran.

Import Geometry Atmosphere.

Section Pipeline.

Variable ABSCOEF : ndarray R.

(** The loop that keeps the rows of the TOA table whose wavelength lies in
    [[wvln_th[0], wvln_th[1]]]. *)
Fixpoint window (wvln_th : list R) (rows : list (R * R))
  : result (list R * list R) :=
  match rows with
  | [] => Ok ([], [])
  | (w, i) :: rows' =>
      lo <- getitem wvln_th 0 ;;
      hi <- getitem wvln_th 1 ;;
      '(wvln0, irr0) <- window wvln_th rows' ;;
      if Rleb lo w && Rleb w hi
      then Ok (w :: wvln0, i :: irr0)
      else Ok (wvln0, irr0)
  end.

(** [irr0 = np.asarray(irr0) * geo.geometric_factor()[:, None]]. *)
Definition scale_toa (geo : Geometry) (irr0 : list R) : result (ndarray R) :=
  gf <- geometric_factor geo true ;;
  gf <- colon_none gf ;;
  mul (asarray irr0) gf.

(** [radtran(geo, atm, toa_file, wvln_th, coupling=True)].  The rows
    [toa] stand for [np.loadtxt(path)] of the TOA file that [toa_file]
    names (wavelength in nm, irradiance). *)
Definition radtran (geo : Geometry) (atm : Atmosphere) (toa : list (R * R))
    (wvln_th : list R) (coupling : bool)
  : result (ndarray R * ndarray R * ndarray R * list R) :=
  '(wvln0, irr0) <- window wvln_th toa ;;
  let wvln_um := amap (fun x => 1e-3 * x) (asarray wvln0) in
  irr0 <- scale_toa geo irr0 ;;
  out <- trn_mixture atm wvln_um (Geometry.mu0 geo) true coupling ;;
  '(tglb_mix, tdir_mix, _, atm_alb) <- unpack4 out ;;
  tdir_wat <- trn_water ABSCOEF atm (asarray wvln0) (Geometry.mu0 geo) ;;
  tdir_ozo <- trn_ozone ABSCOEF atm (asarray wvln0) (Geometry.mu0 geo) ;;
  tdir_oxy <- trn_oxygen ABSCOEF atm (asarray wvln0) (Geometry.mu0 geo) ;;
  wo <- mul tdir_wat tdir_ozo ;;
  tdir_gas <- mul wo tdir_oxy ;;
  rho <- colon_none (rho atm) ;;
  atm_alb <- as_array atm_alb ;;
  ra <- mul rho atm_alb ;;
  let amp_factor := amap (fun x => 1 / (1 - x)) ra in
  mu0 <- colon_none (Geometry.mu0 geo) ;;
  tglb_mix <- as_array tglb_mix ;;
  tdir_mix <- as_array tdir_mix ;;
  g1 <- mul irr0 mu0 ;;
  g2 <- mul g1 tglb_mix ;;
  g3 <- mul g2 tdir_gas ;;
  irr_glb <- mul g3 amp_factor ;;
  d1 <- mul irr0 tdir_mix ;;
  irr_dir <- mul d1 tdir_gas ;;
  dm <- mul irr_dir mu0 ;;
  irr_dif <- sub irr_glb dm ;;
  Ok (irr_glb, irr_dir, irr_dif, wvln0).

End Pipeline.

End Radtran.

(** ** Vocabulary of the statements *)

(** The 1-d array [f 0, ..., f (n-1)] and the 2-d array of [n] rows and
    [k] columns with entry [F i j] in row [i], column [j]. *)
Definition vec {A : Type} (n : nat) (f : nat -> A) : ndarray A :=
  mk_ndarray [n] (map f (seq 0 n)).

Definition mat {A : Type} (n k : nat) (F : nat -> nat -> A) : ndarray A :=
  mk_ndarray [n; k]
    (map (fun idx => F (idx / k)%nat (idx mod k)%nat) (seq 0 (n * k))).

(** Entry of a 1-d array, and entry [(i, j)] of a 2-d array. *)
Definition vget (a : ndarray R) (i : nat) : R := nth i (data a) 0.

Definition get2 (a : ndarray R) (i j : nat) : R :=
  nth (i * nth 1 (shape a) 0%nat + j) (data a) 0.

(** Position read on an axis of length [d] for position [i] of the
    broadcast result. *)
Definition bidx (d i : nat) : nat := if (d =? 1)%nat then 0%nat else i.

(** Length of an input once [np.atleast_1d] has been applied. *)
Definition len1 (a : ndarray R) : nat := size (shape a).

(** A 0- or 1-dimensional, well-formed input. *)
Definition is_1d (a : ndarray R) : Prop := (ndim a <= 1)%nat /\ wf a.

(** An Atmosphere as the constructor leaves it: eight 1-d arrays of one
    length [n]. *)
Definition atm_fields (a : Atmosphere.Atmosphere) : list (ndarray R) :=
  [Atmosphere.p a; Atmosphere.rho a; Atmosphere.o3 a; Atmosphere.h2o a;
   Atmosphere.alpha a; Atmosphere.beta a; Atmosphere.w0 a; Atmosphere.g a].

Definition atm_ok (a : Atmosphere.Atmosphere) (n : nat) : Prop :=
  Forall (fun x => shape x = [n] /\ length (data x) = n) (atm_fields a).

(** The Fourier series of the Earth-Sun distance correction, and its value
    for a day of the year. *)
Definition fourier (theta : R) : R :=
  1.00011 + 0.03422 * cos theta + 0.00128 * sin theta
  + 0.000719 * cos (theta * 2) + 0.000077 * sin (theta * 2).

Definition factor_of_day (d : R) : R := fourier (2 * PI * (d - 1) / 365).

(** Scalar formulas, per scenario and wavelength, as the specification
    writes them (section 4.2). *)

(** Bates' Rayleigh optical depth at pressure [p], wavelength [l] (microns),
    and the Rayleigh contribution to the atmospheric albedo. *)
Definition bates (p l : R) : R :=
  p / 1013
  / (117.2594 * l ^ 4 - 1.3215 * l ^ 2 + 0.000320 - 0.000076 * / l ^ 4).

Definition rayleigh_albedo (tau : R) : R :=
  tau * (1 - exp (-2 * tau)) / (2 + tau).

(** Angstrom's aerosol optical depth (as the code divides,
    [beta / l ** alpha]) and the aerosol contribution to the atmospheric
    albedo. *)
Definition angstrom (beta alpha l : R) : R := beta / float_power l alpha.

Definition aerosol_albedo (g w0 tau : R) : R :=
  let g' := (1 - g) * w0 in
  g' * tau / (2 + g' * tau) * (1 + exp (- g' * tau)).

(** Direct transmittance, Sobolev's and Ambartsumian's global
    transmittances. *)
Definition direct (tau mu0 : R) : R := exp (-1.0 * tau / mu0).

Definition sobolev (tau mu0 : R) : R :=
  ((2 / 3 + mu0) + (2 / 3 - mu0) * direct tau mu0) / (4 / 3 + tau).

Definition ambartsumian (w0 g tdir : R) : R :=
  let K := sqrt ((1 - w0) * (1 - w0 * g)) in
  let r0 := (K - 1 + w0) / (K + 1 - w0) in
  let tdir_k := float_power tdir K in
  (1 - r0 ^ 2) * tdir_k / (1 - (r0 * tdir_k) ^ 2).

(** Quantities behind entry [(i, j)] of a transmittance: the rows of the
    Atmosphere and of [mu0] are read at their broadcast positions. *)
Definition nrows (a : Atmosphere.Atmosphere) : nat :=
  hd 0%nat (shape (Atmosphere.p a)).

Definition scen (a : Atmosphere.Atmosphere) (i : nat) : nat :=
  bidx (nrows a) i.

Definition mu0_at (mu0 : ndarray R) (i : nat) : R :=
  vget mu0 (bidx (len1 mu0) i).

Definition tau_ray (a : Atmosphere.Atmosphere) (wv : ndarray R) (i j : nat)
  : R :=
  bates (vget (Atmosphere.p a) (scen a i)) (vget wv j).

Definition tau_aer (a : Atmosphere.Atmosphere) (wv : ndarray R) (i j : nat)
  : R :=
  angstrom (vget (Atmosphere.beta a) (scen a i))
           (vget (Atmosphere.alpha a) (scen a i)) (vget wv j).

(** A well-formed absorption table: five rows of one non-zero length. *)
Definition abscoef_ok (t : ndarray R) : Prop :=
  exists c, shape t = [5%nat; S c] /\ wf t.

(** Interpolated coefficient of row [r] of the table at a wavelength. *)
Definition coef_at (t : ndarray R) (r : nat) (l : R) : R :=
  interp1 (table_row t 0) (table_row t r) l.

(** The rows of the TOA table inside the window [[lo, hi]]. *)
Definition in_window (lo hi : R) (row : R * R) : bool :=
  Rleb lo (fst row) && Rleb (fst row) hi.

(** The scaling of the TOA irradiance as the specification words it: the
    non-squeezed geometric factor broadcast against the grid. *)
Definition scale_toa_unsqueezed (geo : Geometry.Geometry) (irr0 : list R)
  : result (ndarray R) :=
  gf <- Geometry.geometric_factor geo false ;;
  mul (asarray irr0) gf.

(** Every element of an array satisfies [P]; all arrays of a list have
    shape [s]. *)
Definition all_elems (P : R -> Prop) (a : ndarray R) : Prop :=
  forall x, In x (data a) -> P x.

Definition same_shape (items : list (ndarray R)) (s : list nat) : Prop :=
  forall x, In x items -> shape x = s.

(** Arguments of one 0- or 1-d shape. *)
Definition consistent (items : list (ndarray R)) : Prop :=
  exists s, same_shape items s /\ (length s <= 1)%nat.

(** The ranges [Geometry.__new__] checks, on angles in radians. *)
Definition geo_in_range (lat lon sza day : ndarray R) : Prop :=
  all_elems (fun x => Rabs x <= PI / 2) lat /\
  all_elems (fun x => Rabs x <= PI) lon /\
  all_elems (fun x => Rabs (x - PI / 2) <= PI / 2) sza /\
  all_elems (fun d => 1 <= d <= 366) day.

(** The unit conversion selected by [mode]. *)
Definition angle_conv (mode : string) : option (R -> R) :=
  if String.eqb mode "deg" then Some Geometry.radians
  else if String.eqb mode "rad" then Some (fun x => x)
  else None.

(** The ranges [Atmosphere.__new__] checks. *)
Definition atm_in_range (p rho o3 h2o alpha beta : ndarray R)
    (w0 g : option (ndarray R)) : Prop :=
  all_elems (fun x => 0 <= x) p /\
  all_elems (fun x => 0 <= x <= 1) rho /\
  all_elems (fun x => 0 <= x) o3 /\
  all_elems (fun x => 0 <= x) h2o /\
  all_elems (fun x => 0 <= x) alpha /\
  all_elems (fun x => 0 <= x) beta /\
  (forall w, w0 = Some w -> all_elems (fun x => 0 <= x <= 1) w) /\
  (forall v, g = Some v -> all_elems (fun x => Rabs x <= 1) v).

(** Column [j] of a 2-d table, as a 1-d array. *)
Definition column (a : ndarray R) (j : nat) : ndarray R :=
  vec (hd 0%nat (shape a)) (fun i => get2 a i j).

(** ** Inputs used as examples *)

(** One scalar scenario on the first day of the year, and two scenarios. *)
Definition geo_day1 : Geometry.Geometry :=
  Geometry.mk (scalar 1) (scalar 0) (scalar 0) (scalar 0)
              (amap cos (scalar 0)).

Definition geo_two : Geometry.Geometry :=
  Geometry.mk (asarray [1; 152]) (asarray [0; 0]) (asarray [0; 0])
              (asarray [0; 0]) (amap cos (asarray [0; 0])).

(** One scenario given as arrays of length 1. *)
Definition geo_single : Geometry.Geometry :=
  Geometry.mk (asarray [1]) (asarray [0]) (asarray [0]) (asarray [0])
              (amap cos (asarray [0])).

(** The Atmosphere of the end-to-end scenario, a two-scenario one, a
    wavelength of half a micron, and cosines for two and three scenarios. *)
Definition atm_one : Atmosphere.Atmosphere :=
  Atmosphere.mk (asarray [800]) (asarray [0.2]) (asarray [300])
                (asarray [0.4]) (asarray [1.5]) (asarray [0.05])
                (asarray [0.90]) (asarray [0.85]).

Definition atm_two : Atmosphere.Atmosphere :=
  Atmosphere.mk (asarray [800; 1013]) (asarray [0.2; 0.1])
                (asarray [300; 250]) (asarray [0.4; 1]) (asarray [1.5; 1])
                (asarray [0.05; 0.1]) (asarray [0.90; 0.90])
                (asarray [0.85; 0.85]).

Definition wv_half : ndarray R := asarray [0.5].

Definition mu_two : ndarray R := asarray [0.5; 0.6].

Definition mu_three : ndarray R := asarray [0.5; 0.6; 0.7].

(** A small absorption table whose water-vapour exponent is zero at 300 nm,
    a wavelength of 300 nm, and a TOA table of two rows. *)
Definition table_small : ndarray R :=
  mk_ndarray [5; 2]%nat
             [300; 2600; 0.1; 0.2; 0; 0.5; 1e-20; 0; 1e-7; 0].

Definition wv_300 : ndarray R := asarray [300].

Definition toa_small : list (R * R) := [(300, 0.5); (3000, 0.1)].

(** A 1 x 1 array: one dimension more than the operations accept. *)
Definition grid_2d : ndarray R := mk_ndarray [1%nat; 1%nat] [0.5].

(** The Atmosphere of the end-to-end scenario over a ground that reflects
    nothing. *)
Definition atm_dark : Atmosphere.Atmosphere :=
  Atmosphere.mk (asarray [800]) (asarray [0]) (asarray [300])
                (asarray [0.4]) (asarray [1.5]) (asarray [0.05])
                (asarray [0.90]) (asarray [0.85]).

(* ================================================================== *)
(** * Part II: lemmas and theorems *)
(* ================================================================== *)

(** ** Arithmetic of flat indices *)

Lemma nth_map_seq {A : Type} (g : nat -> A) (n i : nat) (d : A) :
  (i < n)%nat -> nth i (map g (seq 0 n)) d = g i.
Proof.
  intros Hi.
  rewrite (nth_indep _ d (g 0%nat)) by (rewrite length_map, length_seq; lia).
  rewrite (map_nth g (seq 0 n) 0%nat i).
  now rewrite seq_nth.
Qed.

Lemma flat_div (i j k : nat) : (j < k)%nat -> ((i * k + j) / k = i)%nat.
Proof.
  intros Hj. rewrite Nat.div_add_l by lia.
  rewrite Nat.div_small by lia. lia.
Qed.

Lemma flat_mod (i j k : nat) : (j < k)%nat -> ((i * k + j) mod k = j)%nat.
Proof.
  intros Hj. rewrite Nat.add_comm, Nat.Div0.mod_add.
  now apply Nat.mod_small.
Qed.

Lemma split_index (idx n k : nat) :
  (idx < n * k)%nat -> (idx / k < n)%nat /\ (idx mod k < k)%nat.
Proof.
  intros H. assert (k <> 0%nat) by lia. split.
  - apply Nat.Div0.div_lt_upper_bound. lia.
  - now apply Nat.mod_upper_bound.
Qed.

(** ** Broadcast dimensions *)

Lemma bdim_same (n : nat) : bdim n n = Some n.
Proof. unfold bdim. now rewrite Nat.eqb_refl. Qed.

Lemma bdim_1_r (n : nat) : bdim n 1 = Some n.
Proof.
  unfold bdim. destruct (Nat.eqb_spec n 1); [now subst | reflexivity].
Qed.

Lemma bdim_1_l (n : nat) : bdim 1 n = Some n.
Proof.
  unfold bdim. destruct (Nat.eqb_spec 1 n); [now subst | reflexivity].
Qed.

Lemma bdim_some (a b d : nat) :
  bdim a b = Some d ->
  (a = d /\ (b = d \/ b = 1%nat)) \/ (a = 1%nat /\ b = d).
Proof.
  unfold bdim.
  destruct (Nat.eqb_spec a b); [intros [= <-]; subst; auto |].
  destruct (Nat.eqb_spec a 1); [intros [= <-]; auto |].
  destruct (Nat.eqb_spec b 1); [intros [= <-]; auto | discriminate].
Qed.

Lemma bidx_lt (a b d i : nat) :
  bdim a b = Some d -> (i < d)%nat -> (bidx a i < a)%nat /\ (bidx b i < b)%nat.
Proof.
  intros H Hi. unfold bidx.
  destruct (bdim_some _ _ _ H) as [[-> [-> | ->]] | [-> ->]];
    repeat match goal with |- context [Nat.eqb ?x ?y] =>
      destruct (Nat.eqb_spec x y) end; lia.
Qed.

Lemma bidx_1 (i : nat) : bidx 1 i = 0%nat.
Proof. reflexivity. Qed.

Lemma bidx_idem (d i : nat) : bidx d (bidx d i) = bidx d i.
Proof. unfold bidx. now destruct (Nat.eqb_spec d 1). Qed.

Lemma bidx_id (d i : nat) : (i < d)%nat -> bidx d i = i.
Proof. unfold bidx. destruct (Nat.eqb_spec d 1); lia. Qed.

(** ** Arrays in canonical form *)

Lemma vec_canon (a : ndarray R) (n : nat) :
  shape a = [n] -> length (data a) = n -> a = vec n (vget a).
Proof.
  destruct a as [s l]; cbn -[Nat.div Nat.modulo]. intros -> <-. unfold vec, vget; cbn -[Nat.div Nat.modulo]. f_equal.
  apply nth_ext with (d := 0%R) (d' := 0%R).
  - now rewrite length_map, length_seq.
  - intros i Hi. now rewrite nth_map_seq.
Qed.

Lemma get2_mat (n k : nat) (F : nat -> nat -> R) (i j : nat) :
  (i < n)%nat -> (j < k)%nat -> get2 (mat n k F) i j = F i j.
Proof.
  intros Hi Hj. unfold get2, mat; cbn -[Nat.div Nat.modulo].
  rewrite nth_map_seq by nia.
  now rewrite flat_div, flat_mod.
Qed.

Lemma mat_ext {A : Type} (n k : nat) (F G : nat -> nat -> A) :
  (forall i j, (i < n)%nat -> (j < k)%nat -> F i j = G i j) ->
  mat n k F = mat n k G.
Proof.
  intros H. unfold mat. f_equal. apply map_ext_in. intros idx Hin.
  apply in_seq in Hin. destruct (split_index idx n k) as [? ?]; [lia |].
  now apply H.
Qed.

Lemma vec_ext {A : Type} (n : nat) (f g : nat -> A) :
  (forall i, (i < n)%nat -> f i = g i) -> vec n f = vec n g.
Proof.
  intros H. unfold vec. f_equal. apply map_ext_in. intros i Hin.
  apply in_seq in Hin. apply H. lia.
Qed.

Lemma amap_vec {A B : Type} (h : A -> B) (n : nat) (f : nat -> A) :
  amap h (vec n f) = vec n (fun i => h (f i)).
Proof. unfold amap, vec; cbn -[Nat.div Nat.modulo]. now rewrite map_map. Qed.

Lemma amap_mat {A B : Type} (h : A -> B) (n k : nat) (F : nat -> nat -> A) :
  amap h (mat n k F) = mat n k (fun i j => h (F i j)).
Proof. unfold amap, mat; cbn -[Nat.div Nat.modulo]. now rewrite map_map. Qed.

Lemma colon_none_vec {A : Type} (n : nat) (f : nat -> A) :
  colon_none (vec n f) = Ok (mat n 1 (fun i _ => f i)).
Proof.
  unfold colon_none, vec, mat; cbn -[Nat.div Nat.modulo]. do 2 f_equal.
  rewrite Nat.mul_1_r. apply map_ext. intros i. now rewrite Nat.div_1_r.
Qed.

(** ** What broadcasting computes on vectors and matrices *)

Section Broadcast.

Context {A B C : Type} (f : A -> B -> C) (da : A) (db : B).

Lemma bc_vv (k1 k2 : nat) (g1 : nat -> A) (g2 : nat -> B) :
  broadcast2 f da db (vec k1 g1) (vec k2 g2) =
  match bdim k1 k2 with
  | Some K => Ok (vec K (fun j => f (g1 (bidx k1 j)) (g2 (bidx k2 j))))
  | None => Raise ValueError
  end.
Proof.
  unfold broadcast2, broadcast_shapes; cbn -[Nat.div Nat.modulo].
  destruct (bdim k1 k2) as [K |] eqn:E; [| reflexivity].
  unfold vec. do 2 f_equal. cbn -[Nat.div Nat.modulo]. rewrite Nat.mul_1_r.
  apply map_ext_in. intros idx Hin. apply in_seq in Hin.
  destruct (bidx_lt _ _ _ idx E) as [H1 H2]; [lia |].
  unfold src_index; cbn -[Nat.div Nat.modulo]. rewrite Nat.div_1_r.
  fold (bidx k1 idx) (bidx k2 idx).
  rewrite !Nat.mul_1_r, !Nat.add_0_r.
  now rewrite !nth_map_seq.
Qed.

Lemma bc_mm (n1 k1 n2 k2 : nat) (F : nat -> nat -> A) (G : nat -> nat -> B) :
  broadcast2 f da db (mat n1 k1 F) (mat n2 k2 G) =
  match bdim n1 n2, bdim k1 k2 with
  | Some N, Some K =>
      Ok (mat N K (fun i j => f (F (bidx n1 i) (bidx k1 j))
                               (G (bidx n2 i) (bidx k2 j))))
  | _, _ => Raise ValueError
  end.
Proof.
  unfold broadcast2, broadcast_shapes; cbn -[Nat.div Nat.modulo].
  destruct (bdim n1 n2) as [N |] eqn:EN; [| reflexivity].
  destruct (bdim k1 k2) as [K |] eqn:EK; [| reflexivity].
  unfold mat. do 2 f_equal. cbn -[Nat.div Nat.modulo]. rewrite Nat.mul_1_r.
  apply map_ext_in. intros idx Hin. apply in_seq in Hin.
  destruct (split_index idx N K) as [Hi Hj]; [lia |].
  destruct (bidx_lt _ _ _ _ EN Hi) as [Hn1 Hn2].
  destruct (bidx_lt _ _ _ _ EK Hj) as [Hk1 Hk2].
  unfold src_index; cbn -[Nat.div Nat.modulo]. rewrite !Nat.mul_1_r, !Nat.div_1_r, !Nat.add_0_r.
  fold (bidx n1 (idx / K)) (bidx n2 (idx / K))
       (bidx k1 (idx mod K)) (bidx k2 (idx mod K)).
  rewrite !nth_map_seq by nia.
  now rewrite !flat_div, !flat_mod.
Qed.

Lemma bc_mv (n k1 k2 : nat) (F : nat -> nat -> A) (g : nat -> B) :
  broadcast2 f da db (mat n k1 F) (vec k2 g) =
  match bdim k1 k2 with
  | Some K => Ok (mat n K (fun i j => f (F i (bidx k1 j)) (g (bidx k2 j))))
  | None => Raise ValueError
  end.
Proof.
  unfold broadcast2, broadcast_shapes; cbn -[Nat.div Nat.modulo]. rewrite bdim_1_r.
  destruct (bdim k1 k2) as [K |] eqn:EK; [| reflexivity].
  unfold mat. do 2 f_equal. cbn -[Nat.div Nat.modulo]. rewrite Nat.mul_1_r.
  apply map_ext_in. intros idx Hin. apply in_seq in Hin.
  destruct (split_index idx n K) as [Hi Hj]; [lia |].
  destruct (bidx_lt _ _ _ _ EK Hj) as [Hk1 Hk2].
  unfold src_index; cbn -[Nat.div Nat.modulo]. rewrite !Nat.mul_1_r, !Nat.div_1_r, !Nat.add_0_r.
  fold (bidx n (idx / K)) (bidx k1 (idx mod K)) (bidx k2 (idx mod K)).
  rewrite (bidx_id n) by assumption.
  rewrite !nth_map_seq by nia.
  now rewrite !flat_div, !flat_mod.
Qed.

Lemma bc_vm (n k1 k2 : nat) (g : nat -> A) (G : nat -> nat -> B) :
  broadcast2 f da db (vec k1 g) (mat n k2 G) =
  match bdim k1 k2 with
  | Some K => Ok (mat n K (fun i j => f (g (bidx k1 j)) (G i (bidx k2 j))))
  | None => Raise ValueError
  end.
Proof.
  unfold broadcast2, broadcast_shapes; cbn -[Nat.div Nat.modulo]. rewrite bdim_1_l.
  destruct (bdim k1 k2) as [K |] eqn:EK; [| reflexivity].
  unfold mat. do 2 f_equal. cbn -[Nat.div Nat.modulo]. rewrite Nat.mul_1_r.
  apply map_ext_in. intros idx Hin. apply in_seq in Hin.
  destruct (split_index idx n K) as [Hi Hj]; [lia |].
  destruct (bidx_lt _ _ _ _ EK Hj) as [Hk1 Hk2].
  unfold src_index; cbn -[Nat.div Nat.modulo]. rewrite !Nat.mul_1_r, !Nat.div_1_r, !Nat.add_0_r.
  fold (bidx n (idx / K)) (bidx k1 (idx mod K)) (bidx k2 (idx mod K)).
  rewrite (bidx_id n) by assumption.
  rewrite !nth_map_seq by nia.
  now rewrite !flat_div, !flat_mod.
Qed.

End Broadcast.

(** ** Broadcasting two arrays of one shape *)

Lemma pad_shape_same (s : list nat) : pad_shape (length s) s = s.
Proof. unfold pad_shape. now rewrite Nat.sub_diag. Qed.

Lemma bshape_aligned_same (s : list nat) : bshape_aligned s s = Some s.
Proof.
  induction s as [| d s IH]; [reflexivity |].
  cbn. now rewrite bdim_same, IH.
Qed.

Lemma broadcast_shapes_same (s : list nat) : broadcast_shapes s s = Some s.
Proof.
  unfold broadcast_shapes. rewrite Nat.max_id, pad_shape_same.
  apply bshape_aligned_same.
Qed.

Lemma ravel_unravel (s : list nat) :
  forall idx, (idx < size s)%nat -> ravel_bc s (unravel s idx) = idx.
Proof.
  induction s as [| d s IH]; intros idx Hidx.
  - cbn in *. lia.
  - change (size (d :: s)) with (d * size s)%nat in Hidx.
    cbn [unravel ravel_bc].
    assert (HP : size s <> 0%nat) by (intros E; rewrite E in Hidx; lia).
    rewrite IH by (now apply Nat.mod_upper_bound).
    pose proof (Nat.div_mod_eq idx (size s)) as Hdm.
    destruct (Nat.eqb_spec d 1) as [-> | Hd]; [| lia].
    rewrite Nat.mod_small; lia.
Qed.

Lemma src_index_same (s : list nat) (idx : nat) :
  (idx < size s)%nat -> src_index s s idx = idx.
Proof.
  intros H. unfold src_index. rewrite pad_shape_same.
  now apply ravel_unravel.
Qed.

Lemma bc_same {X A B C : Type} (f : A -> B -> C) (da : A) (db : B)
    (s : list nat) (l : list X) (h1 : X -> A) (h2 : X -> B) :
  length l = size s ->
  broadcast2 f da db (mk_ndarray s (map h1 l)) (mk_ndarray s (map h2 l)) =
  Ok (mk_ndarray s (map (fun x => f (h1 x) (h2 x)) l)).
Proof.
  intros Hl. unfold broadcast2; cbn [shape data].
  rewrite broadcast_shapes_same. do 2 f_equal.
  destruct l as [| x0 l'].
  - cbn in Hl. now rewrite <- Hl.
  - set (l := x0 :: l') in *.
    apply nth_ext with (d := f da db) (d' := f (h1 x0) (h2 x0)).
    + now rewrite !length_map, length_seq.
    + intros i Hi. rewrite length_map, length_seq in Hi.
      rewrite nth_map_seq by assumption.
      rewrite src_index_same by assumption.
      rewrite (nth_indep (map h1 l) da (h1 x0)) by (rewrite length_map; lia).
      rewrite (nth_indep (map h2 l) db (h2 x0)) by (rewrite length_map; lia).
      rewrite !map_nth.
      now rewrite (map_nth (fun x => f (h1 x) (h2 x)) l x0 i).
Qed.

(** ** Arguments of one shape *)

Lemma set_of_shapes_single (items : list (ndarray R)) (x : ndarray R) :
  (1 <? length (set_of_shapes items))%nat = false -> In x items ->
  shape x = hd [] (set_of_shapes items).
Proof.
  intros Hlen Hin. apply Nat.ltb_ge in Hlen. unfold set_of_shapes in *.
  assert (Hs : In (shape x) (nodup (list_eq_dec Nat.eq_dec) (map shape items)))
    by (apply nodup_In; now apply in_map).
  destruct (nodup (list_eq_dec Nat.eq_dec) (map shape items))
    as [| s [| ? ?]]; cbn in *; [contradiction | | lia].
  now destruct Hs.
Qed.

(** ** Geometry *)

Module GeometryFacts.

Import Geometry.

(** The data of the geometric factor: the Fourier series at each day. *)
Lemma geometric_factor_data (geo : Geometry) (squeeze : bool) :
  wf (day geo) ->
  exists gf, geometric_factor geo squeeze = Ok gf /\
             data gf = map factor_of_day (data (day geo)) /\
             shape gf = if squeeze
                        then filter (fun d => negb (d =? 1)%nat)
                                    (shape (day geo))
                        else match shape (day geo) with
                             | [] => [1; 1; 1]%nat
                             | d :: s => (1 :: d :: 1 :: s)%nat
                             end.
Proof.
  intros Hwf. unfold geometric_factor, day_angle, amap, add.
  cbn [shape data]. rewrite !map_map.
  rewrite bc_same by exact Hwf. cbn [bind shape data].
  rewrite bc_same by exact Hwf. cbn [bind shape data].
  rewrite bc_same by exact Hwf. cbn [bind shape data].
  destruct squeeze.
  - eexists. split; [reflexivity |]. cbn. split; reflexivity.
  - unfold atleast_1d, none_colon_none. cbn [shape].
    destruct (shape (day geo)) as [| d s]; cbn;
      (eexists; split; [reflexivity |]); cbn; split; reflexivity.
Qed.

(** A constructed Geometry has fields of one 0- or 1-d shape. *)
Lemma new_valid (lat lon sza day : ndarray R) (mode : string)
    (geo : Geometry) :
  new lat lon sza day mode = Ok geo -> wf day -> wf sza ->
  exists s, shape (Geometry.day geo) = s /\ shape (mu0 geo) = s /\
            (length s <= 1)%nat /\
            wf (Geometry.day geo) /\ wf (mu0 geo).
Proof.
  unfold new. intros H Hd Hz.
  destruct (1 <? length (set_of_shapes [lat; lon; sza; day]))%nat eqn:E1;
    [discriminate H |].
  destruct (1 <? length (hd [] (set_of_shapes [lat; lon; sza; day])))%nat
    eqn:E2; [discriminate H |].
  assert (Hsz : shape sza = hd [] (set_of_shapes [lat; lon; sza; day]))
    by (apply set_of_shapes_single; cbn; auto).
  assert (Hsd : shape day = hd [] (set_of_shapes [lat; lon; sza; day]))
    by (apply set_of_shapes_single; cbn; auto).
  apply Nat.ltb_ge in E2.
  exists (shape day).
  destruct (String.eqb mode "deg"); [| destruct (String.eqb mode "rad")];
    cbn [bind] in H; try discriminate H;
    repeat match type of H with
           | (if ?c then Raise _ else _) = Ok _ =>
               destruct c; [discriminate H |]
           end;
    injection H as <-; cbn [Geometry.day mu0 amap shape];
    (split; [reflexivity |]); (split; [congruence |]);
    (split; [congruence |]); (split; [exact Hd |]);
    unfold wf in *; cbn [amap shape data]; now rewrite !length_map.
Qed.

End GeometryFacts.

(** ** Bounds of the Fourier series *)

Lemma amplitude_bound (a b M x y : R) :
  x * x + y * y = 1 -> 0 <= M -> a * a + b * b <= M * M ->
  - M <= a * x + b * y <= M.
Proof.
  intros Hxy HM Hab.
  assert (Hsq : (a * x + b * y) * (a * x + b * y) <= M * M).
  { replace ((a * x + b * y) * (a * x + b * y))
      with ((a * a + b * b) * (x * x + y * y)
            - (a * y - b * x) * (a * y - b * x)) by ring.
    rewrite Hxy. pose proof (Rle_0_sqr (a * y - b * x)) as H0.
    unfold Rsqr in H0. lra. }
  split; nra.
Qed.

Lemma circle_coord_bound (x y : R) : x * x + y * y = 1 -> -1 <= x <= 1.
Proof. intros H. split; nra. Qed.

Lemma fourier_bounds (theta : R) : 0.9661 <= fourier theta <= 1.0351.
Proof.
  unfold fourier.
  pose proof (sin2_cos2 theta) as H1. unfold Rsqr in H1.
  pose proof (sin2_cos2 (theta * 2)) as H2. unfold Rsqr in H2.
  assert (Hc2 : cos (theta * 2) = 2 * cos theta * cos theta - 1)
    by (rewrite Rmult_comm; apply cos_2a_cos).
  set (x := cos theta) in *. set (y := sin theta) in *.
  set (u := cos (theta * 2)) in *. set (v := sin (theta * 2)) in *.
  assert (Hxy : x * x + y * y = 1) by lra.
  assert (Huv : u * u + v * v = 1) by lra.
  pose proof (amplitude_bound 0.03422 0.00128 0.034244 x y Hxy) as A1.
  pose proof (amplitude_bound 0.000719 0.000077 0.000724 u v Huv) as A2.
  assert (B1 : - (0.034244) <= 0.03422 * x + 0.00128 * y <= 0.034244)
    by (apply A1; lra).
  assert (B2 : - (0.000724) <= 0.000719 * u + 0.000077 * v <= 0.000724)
    by (apply A2; lra).
  pose proof (circle_coord_bound y x ltac:(lra)) as By.
  pose proof (circle_coord_bound v u ltac:(lra)) as Bv.
  pose proof (circle_coord_bound u v Huv) as Bu.
  split; [| lra].
  destruct (Rle_dec (-0.9) x) as [Hx | Hx].
  - lra.
  - assert (0.81 <= x * x) by nra. lra.
Qed.

(** ** Comparisons on reals as booleans *)

Lemma Rltb_true (x y : R) : x < y -> Rltb x y = true.
Proof. intros. unfold Rltb. now destruct (Rlt_dec x y). Qed.

Lemma Rltb_false (x y : R) : ~ x < y -> Rltb x y = false.
Proof. intros. unfold Rltb. now destruct (Rlt_dec x y). Qed.

Lemma Rleb_true (x y : R) : x <= y -> Rleb x y = true.
Proof. intros. unfold Rleb. now destruct (Rle_dec x y). Qed.

Lemma Rleb_false (x y : R) : ~ x <= y -> Rleb x y = false.
Proof. intros. unfold Rleb. now destruct (Rle_dec x y). Qed.

Lemma nth_map_R (f : R -> R) (l : list R) (i : nat) :
  (i < length l)%nat -> nth i (map f l) 0 = f (nth i l 0).
Proof.
  intros H. rewrite (nth_indep _ 0 (f 0)) by (now rewrite length_map).
  apply map_nth.
Qed.

Lemma asarray_vec (l : list R) :
  asarray l = vec (length l) (fun j => nth j l 0).
Proof. now apply vec_canon. Qed.

Module GeometryExamples.

Import Geometry GeometryFacts.

Lemma new_geo_day1 :
  new (scalar 0) (scalar 0) (scalar 0) (scalar 1) "rad" = Ok geo_day1.
Proof.
  unfold new.
  change (set_of_shapes [scalar 0; scalar 0; scalar 0; scalar 1])
    with [@nil nat].
  cbn [length hd Nat.ltb Nat.leb String.eqb Ascii.eqb Bool.eqb bind
       any existsb data scalar orb].
  pose proof PI_RGT_0 as HPI.
  rewrite !Rltb_false; [reflexivity | try lra ..].
  - rewrite Rminus_0_l, Rabs_Ropp, Rabs_right; lra.
  - rewrite Rabs_R0. lra.
  - rewrite Rabs_R0. lra.
Qed.

Lemma new_geo_two :
  new (asarray [0; 0]) (asarray [0; 0]) (asarray [0; 0]) (asarray [1; 152])
      "rad" = Ok geo_two.
Proof.
  unfold new.
  change (set_of_shapes [asarray [0; 0]; asarray [0; 0]; asarray [0; 0];
                         asarray [1; 152]])
    with [[2%nat]].
  cbn [length hd Nat.ltb Nat.leb String.eqb Ascii.eqb Bool.eqb bind
       any existsb data asarray orb].
  pose proof PI_RGT_0 as HPI.
  rewrite !Rltb_false; [reflexivity | try lra ..].
  - rewrite Rminus_0_l, Rabs_Ropp, Rabs_right; lra.
  - rewrite Rabs_R0. lra.
  - rewrite Rabs_R0. lra.
Qed.

End GeometryExamples.

Module GeometryClaims.

Import Geometry GeometryFacts GeometryExamples Radtran.

(** The pipeline's scaling on a Geometry of [n <> 1] scenarios. *)
Lemma scale_toa_grid (geo : Geometry) (irr0 : list R) (n : nat) :
  shape (day geo) = [n] -> length (data (day geo)) = n -> n <> 1%nat ->
  exists gs,
    geometric_factor geo true = Ok gs /\
    shape gs = [n] /\
    colon_none gs =
      Ok (mat n 1 (fun i _ => factor_of_day (vget (day geo) i))) /\
    scale_toa geo irr0 =
      Ok (mat n (length irr0)
              (fun i j => nth j irr0 0 * factor_of_day (vget (day geo) i))).
Proof.
  intros Hs Hl Hn.
  assert (Hwf : wf (day geo)) by (unfold wf; rewrite Hs, Hl; cbn; lia).
  destruct (geometric_factor_data geo true Hwf) as (gs & Es & Ds & Ss).
  rewrite Hs in Ss. cbn in Ss.
  destruct (Nat.eqb_spec n 1) as [| _]; [contradiction |]. cbn in Ss.
  assert (Hgs : gs = vec n (fun i => factor_of_day (vget (day geo) i))).
  { rewrite (vec_canon gs n Ss) by (rewrite Ds, length_map; exact Hl).
    apply vec_ext. intros i Hi. unfold vget. rewrite Ds.
    apply nth_map_R. lia. }
  exists gs. split; [exact Es |]. split; [exact Ss |].
  unfold scale_toa. rewrite Es. cbn [bind].
  rewrite Hgs, colon_none_vec. cbn [bind].
  split; [reflexivity |].
  unfold mul. rewrite asarray_vec, bc_vm, bdim_1_r. f_equal.
  apply mat_ext. intros i j _ Hj. now rewrite bidx_id.
Qed.

(** C6 (as the code has it).  Every value returned by [geometric_factor]
    lies in [[0.9661, 1.0351]]: the lower bound of the specification holds,
    the upper bound is that of the series, which reaches 1.035049 on day 1. *)
Theorem geometric_factor_range (geo : Geometry) (squeeze : bool) :
  wf (day geo) ->
  exists gf, geometric_factor geo squeeze = Ok gf /\
             forall x, In x (data gf) -> 0.9661 <= x <= 1.0351.
Proof.
  intros Hwf.
  destruct (geometric_factor_data geo squeeze Hwf) as (gf & E & Hd & _).
  exists gf. split; [exact E |].
  intros x Hx. rewrite Hd in Hx. apply in_map_iff in Hx.
  destruct Hx as (d & <- & _). apply fourier_bounds.
Qed.

Lemma geometric_factor_range_witness :
  exists gf, geometric_factor geo_two true = Ok gf /\
             forall x, In x (data gf) -> 0.9661 <= x <= 1.0351.
Proof. apply (geometric_factor_range geo_two true). reflexivity. Defined.

(** C6 (as stated) fails on day 1: the Geometry is valid, its day lies in
    [[1, 366]], and the factor returned is 1.035049 > 1.0343. *)
Lemma geometric_factor_day1_exceeds :
  new (scalar 0) (scalar 0) (scalar 0) (scalar 1) "rad" = Ok geo_day1 /\
  (forall d, In d (data (day geo_day1)) -> 1 <= d <= 366) /\
  exists gf x, geometric_factor geo_day1 true = Ok gf /\
               In x (data gf) /\ ~ (0.9661 <= x <= 1.0343).
Proof.
  split; [exact new_geo_day1 |]. split.
  - cbn. intros d [<- | []]. lra.
  - destruct (geometric_factor_data geo_day1 true) as (gf & E & Hd & _);
      [reflexivity |].
    exists gf, (factor_of_day 1). split; [exact E |]. split.
    + rewrite Hd. cbn. now left.
    + unfold factor_of_day, fourier.
      replace (2 * PI * (1 - 1) / 365) with 0 by lra.
      rewrite Rmult_0_l, cos_0, sin_0. lra.
Qed.

(** C7 (as the code has it).  With [squeeze] true the result keeps the
    values of the non-squeezed form and none of its single-element axes, for
    a Geometry of any shape: the axes left are those of the day array that
    are not of length 1, so the factor of a scalar or one-scenario Geometry
    is 0-dimensional.  The pipeline calls [geometric_factor] with its
    default, the squeezed form, and adds the wavelength axis itself: for a
    Geometry of [n <> 1] scenarios this is the column that broadcasts to the
    (scenario, wavelength) grid of [irr0 * factor]; on the 0-dimensional
    factor of one scenario the indexing raises [IndexError]. *)
Theorem geometric_factor_squeeze (geo : Geometry) (irr0 : list R) :
  wf (day geo) ->
  exists gs gn,
    geometric_factor geo true = Ok gs /\
    geometric_factor geo false = Ok gn /\
    shape gs = filter (fun d => negb (d =? 1)%nat) (shape gn) /\
    shape gs = filter (fun d => negb (d =? 1)%nat) (shape (day geo)) /\
    ~ In 1%nat (shape gs) /\
    data gs = data gn /\
    (shape (day geo) = [] \/ shape (day geo) = [1%nat] ->
     shape gs = [] /\ shape gn = [1; 1; 1]%nat /\
     scale_toa geo irr0 = Raise IndexError) /\
    (forall n, shape (day geo) = [n] -> n <> 1%nat ->
     shape gs = [n] /\ shape gn = [1%nat; n; 1%nat] /\
     exists col,
       colon_none gs = Ok col /\ shape col = [n; 1%nat] /\
       scale_toa geo irr0 = mul (asarray irr0) col /\
       scale_toa geo irr0 =
         Ok (mat n (length irr0)
                 (fun i j =>
                    nth j irr0 0 * factor_of_day (vget (day geo) i)))).
Proof.
  intros Hwf.
  destruct (geometric_factor_data geo true Hwf) as (gs & Es & Ds & Ss).
  destruct (geometric_factor_data geo false Hwf) as (gn & En & Dn & Sn).
  exists gs, gn. split; [exact Es |]. split; [exact En |].
  split.
  { rewrite Ss, Sn. destruct (shape (day geo)) as [| d s]; [reflexivity |].
    cbn [filter Nat.eqb negb]. reflexivity. }
  split; [exact Ss |].
  split. { rewrite Ss. intros Hin. apply filter_In in Hin. now destruct Hin. }
  split; [congruence |]. split.
  - intros Hs.
    assert (S0 : shape gs = [])
      by (rewrite Ss; destruct Hs as [-> | ->]; reflexivity).
    split; [exact S0 |]. split.
    + rewrite Sn. destruct Hs as [-> | ->]; reflexivity.
    + unfold scale_toa. rewrite Es. cbn [bind]. unfold colon_none.
      now rewrite S0.
  - intros n Hs Hn.
    assert (Hl : length (data (day geo)) = n)
      by (unfold wf in Hwf; rewrite Hwf, Hs; cbn; lia).
    destruct (scale_toa_grid geo irr0 n Hs Hl Hn)
      as (gs' & Es' & Ss' & Ec & Eg).
    assert (gs' = gs) by congruence. subst gs'.
    split; [exact Ss' |]. split; [rewrite Sn, Hs; reflexivity |].
    eexists. split; [exact Ec |]. split; [reflexivity |].
    split; [| exact Eg].
    unfold scale_toa. rewrite Es. cbn [bind]. rewrite Ec. reflexivity.
Qed.

Lemma geometric_factor_squeeze_witness :
  (exists gs gn,
     geometric_factor geo_single true = Ok gs /\
     geometric_factor geo_single false = Ok gn /\
     shape gs = [] /\ shape gn = [1; 1; 1]%nat /\ data gs = data gn /\
     scale_toa geo_single [1] = Raise IndexError) /\
  (exists gs gn,
     geometric_factor geo_two true = Ok gs /\
     geometric_factor geo_two false = Ok gn /\
     shape gs = [2%nat] /\ shape gn = [1; 2; 1]%nat /\ data gs = data gn /\
     scale_toa geo_two [1] =
       Ok (mat 2 (length [1])
               (fun i j =>
                  nth j [1] 0 * factor_of_day (vget (day geo_two) i)))).
Proof.
  split.
  - destruct (geometric_factor_squeeze geo_single [1] eq_refl)
      as (gs & gn & Es & En & _ & _ & _ & Ed & H1 & _).
    destruct (H1 (or_intror eq_refl)) as (S1 & S2 & E).
    exists gs, gn. split; [exact Es |]. split; [exact En |].
    split; [exact S1 |]. split; [exact S2 |]. split; [exact Ed | exact E].
  - destruct (geometric_factor_squeeze geo_two [1] eq_refl)
      as (gs & gn & Es & En & _ & _ & _ & Ed & _ & Hn).
    destruct (Hn 2%nat eq_refl ltac:(discriminate))
      as (S1 & S2 & col & _ & _ & _ & E).
    exists gs, gn. split; [exact Es |]. split; [exact En |].
    split; [exact S1 |]. split; [exact S2 |]. split; [exact Ed | exact E].
Defined.

(** C7 (as stated) fails for two scenarios: the pipeline's scaled
    irradiance has the two axes (scenario, wavelength), the one built from
    the non-squeezed factor has three. *)
Lemma scale_toa_is_not_unsqueezed :
  new (asarray [0; 0]) (asarray [0; 0]) (asarray [0; 0]) (asarray [1; 152])
      "rad" = Ok geo_two /\
  (exists a, scale_toa geo_two [1] = Ok a /\ shape a = [2; 1]%nat) /\
  (exists b, scale_toa_unsqueezed geo_two [1] = Ok b /\
             shape b = [1; 2; 1]%nat) /\
  scale_toa geo_two [1] <> scale_toa_unsqueezed geo_two [1].
Proof.
  split; [exact new_geo_two |].
  destruct (scale_toa_grid geo_two [1] 2 eq_refl eq_refl)
    as (gs & _ & _ & _ & Ea); [discriminate |].
  destruct (geometric_factor_data geo_two false eq_refl) as (gn & En & _ & Sn).
  assert (Eb : exists b, scale_toa_unsqueezed geo_two [1] = Ok b /\
                         shape b = [1; 2; 1]%nat).
  { unfold scale_toa_unsqueezed. rewrite En. cbn [bind].
    unfold mul, broadcast2. cbn [shape asarray length].
    rewrite Sn. cbn. eexists. split; reflexivity. }
  split; [eexists; split; [exact Ea | reflexivity] |].
  split; [exact Eb |].
  destruct Eb as (b & Eb & Sb). rewrite Ea, Eb. intros [= H].
  apply (f_equal shape) in H. rewrite Sb in H. discriminate H.
Qed.

End GeometryClaims.

(** ** Atmosphere: inputs in canonical form *)

Module AtmosphereFacts.

Import Atmosphere.

Lemma atleast_1d_canon (a : ndarray R) :
  is_1d a -> atleast_1d a = vec (len1 a) (vget a).
Proof.
  intros [Hd Hwf]. unfold ndim in Hd. unfold wf in Hwf. unfold len1.
  destruct a as [s l]; cbn in *.
  destruct s as [| k [| ? ?]]; cbn in *; [| | lia].
  - unfold atleast_1d; cbn.
    apply (vec_canon (mk_ndarray [1%nat] l)); [reflexivity | exact Hwf].
  - rewrite Nat.mul_1_r in *. unfold atleast_1d; cbn.
    apply (vec_canon (mk_ndarray [k] l)); [reflexivity | exact Hwf].
Qed.

Lemma ndim_le1 (a : ndarray R) : is_1d a -> (1 <? ndim a)%nat = false.
Proof. intros [Hd _]. apply Nat.ltb_ge. exact Hd. Qed.

Lemma atm_ok_fields (a : Atmosphere) (n : nat) :
  atm_ok a n ->
  p a = vec n (vget (p a)) /\ rho a = vec n (vget (rho a)) /\
  o3 a = vec n (vget (o3 a)) /\ h2o a = vec n (vget (h2o a)) /\
  alpha a = vec n (vget (alpha a)) /\ beta a = vec n (vget (beta a)) /\
  w0 a = vec n (vget (w0 a)) /\ g a = vec n (vget (g a)).
Proof.
  unfold atm_ok, atm_fields. intros H.
  repeat match goal with
         | H : Forall _ (_ :: _) |- _ => inversion H; subst; clear H
         end.
  repeat split; apply vec_canon; tauto.
Qed.

Lemma nscen_ok (a : Atmosphere) (n : nat) : atm_ok a n -> nscen a = Ok n.
Proof.
  intros H. destruct (atm_ok_fields a n H) as (Hp & _).
  unfold nscen. now rewrite Hp.
Qed.

Lemma nrows_ok (a : Atmosphere) (n : nat) : atm_ok a n -> nrows a = n.
Proof.
  intros H. destruct (atm_ok_fields a n H) as (Hp & _).
  unfold nrows. now rewrite Hp.
Qed.

Lemma mu0_mismatch_col (a : Atmosphere) (n m : nat) (F : nat -> nat -> R) :
  nscen a = Ok n ->
  mu0_mismatch a (mat m 1 F) =
  Ok (negb (n =? 1)%nat && negb ((m =? 1)%nat || (m =? n)%nat)).
Proof.
  intros Hn. unfold mu0_mismatch. rewrite Hn. cbn.
  destruct (n =? 1)%nat; cbn; [reflexivity |].
  now rewrite orb_false_r.
Qed.

Lemma mu0_compatible (n m N : nat) :
  bdim n m = Some N ->
  negb (n =? 1)%nat && negb ((m =? 1)%nat || (m =? n)%nat) = false.
Proof.
  intros H. destruct (bdim_some _ _ _ H) as [[-> [-> | ->]] | [-> ->]];
    rewrite ?Nat.eqb_refl, ?orb_true_r, ?andb_false_r; reflexivity.
Qed.

(** Dimensions once broadcast stay put. *)
Lemma bdim_absorb (n m N : nat) :
  bdim n m = Some N ->
  bdim n N = Some N /\ bdim m N = Some N /\
  bdim N n = Some N /\ bdim N m = Some N.
Proof.
  intros H. destruct (bdim_some _ _ _ H) as [[-> [-> | ->]] | [-> ->]];
    rewrite ?bdim_same, ?bdim_1_l, ?bdim_1_r; auto.
Qed.

End AtmosphereFacts.

(** ** Atmosphere: optical depths *)

Ltac np_step :=
  first
    [ rewrite amap_vec | rewrite amap_mat | rewrite colon_none_vec
    | rewrite bc_vv | rewrite bc_mm | rewrite bc_mv | rewrite bc_vm
    | rewrite bdim_same | rewrite bdim_1_l | rewrite bdim_1_r
    | progress cbn [bind as_array py_getitem py_add py_mul py_sub getitem
                    nth_error]
    | progress unfold add, sub, mul, div, power ].

Ltac np_eval := unfold add, sub, mul, div, power; repeat np_step.

(** Reduce an equation between results to equations between entries. *)
Ltac peel :=
  lazymatch goal with
  | |- mat _ _ _ = mat _ _ _ => apply mat_ext
  | |- Ok _ = Ok _ => f_equal; peel
  | |- PyArr _ = PyArr _ => f_equal; peel
  | |- PyTuple _ = PyTuple _ => f_equal; peel
  | |- cons _ _ = cons _ _ => f_equal; peel
  | |- pair _ _ = pair _ _ => f_equal; peel
  | |- _ => idtac
  end.

Module OpticalDepth.

Import Atmosphere AtmosphereFacts.

Lemma bates_code (p l : R) :
  p / DEFAULT_P /
  (117.2594 * (l ^ 2) ^ 2 + -1.3215 * l ^ 2 + 0.000320
   + -0.000076 / (l ^ 2) ^ 2) = bates p l.
Proof.
  unfold bates, DEFAULT_P.
  replace ((l ^ 2) ^ 2) with (l ^ 4) by ring.
  unfold Rdiv. f_equal. f_equal. lra.
Qed.

Lemma tau_rayleigh_eq (a : Atmosphere) (wv : ndarray R) (ra : bool) (n : nat) :
  atm_ok a n -> is_1d wv ->
  tau_rayleigh a wv ra =
  let tau := mat n (len1 wv) (fun i j => bates (vget (p a) i) (vget wv j)) in
  let salb := mat n (len1 wv)
                  (fun i j => rayleigh_albedo
                                (bates (vget (p a) i) (vget wv j))) in
  Ok (if ra then PyTuple [PyArr tau; PyArr salb] else PyArr tau).
Proof.
  intros Ha Hw. destruct (atm_ok_fields a n Ha) as (Hp & _).
  unfold tau_rayleigh. rewrite (ndim_le1 wv Hw), (atleast_1d_canon wv Hw).
  set (k := len1 wv). set (pf := vget (p a)) in *. rewrite Hp.
  np_eval.
  destruct ra; np_eval; cbn [length Nat.ltb Nat.leb getitem nth_error];
    peel; intros i j Hi Hj;
    rewrite ?(bidx_id n i Hi), ?(bidx_id k j Hj), ?bates_code;
    reflexivity.
Qed.

Lemma tau_aerosols_eq (a : Atmosphere) (wv : ndarray R) (ra : bool) (n : nat) :
  atm_ok a n -> is_1d wv ->
  tau_aerosols a wv ra =
  let tau i j := angstrom (vget (beta a) i) (vget (alpha a) i) (vget wv j) in
  Ok (if ra
      then PyTuple [PyArr (mat n (len1 wv) tau);
                    PyArr (mat n (len1 wv)
                               (fun i j => aerosol_albedo (vget (g a) i)
                                             (vget (w0 a) i) (tau i j)))]
      else PyArr (mat n (len1 wv) tau)).
Proof.
  intros Ha Hw.
  destruct (atm_ok_fields a n Ha) as (_ & _ & _ & _ & Hal & Hbe & Hw0 & Hg).
  unfold tau_aerosols. rewrite (ndim_le1 wv Hw), (atleast_1d_canon wv Hw).
  set (k := len1 wv). set (al := vget (alpha a)) in *.
  set (be := vget (beta a)) in *. set (wf0 := vget (w0 a)) in *.
  set (gf := vget (g a)) in *. rewrite Hal, Hbe.
  np_eval.
  destruct ra; [rewrite Hw0, Hg |]; np_eval;
    cbn [length Nat.ltb Nat.leb getitem nth_error];
    peel; intros i j Hi Hj;
    rewrite ?bidx_1, ?(bidx_id n i Hi), ?(bidx_id k j Hj);
    reflexivity.
Qed.

End OpticalDepth.

(** ** Atmosphere: Rayleigh and aerosol transmittances *)

Module Transmittance.

Import Atmosphere AtmosphereFacts OpticalDepth.

(** Array evaluation when the scenario axes [n] and [m] broadcast to [N]. *)
Ltac np_eval_in H :=
  unfold add, sub, mul, div, power;
  repeat first
    [ np_step
    | rewrite H
    | rewrite (proj1 (bdim_absorb _ _ _ H))
    | rewrite (proj1 (proj2 (bdim_absorb _ _ _ H)))
    | rewrite (proj1 (proj2 (proj2 (bdim_absorb _ _ _ H))))
    | rewrite (proj2 (proj2 (proj2 (bdim_absorb _ _ _ H)))) ].

(** The guard and the column of [mu0], for compatible scenario counts. *)
Lemma mu0_column (a : Atmosphere) (mu0 : ndarray R) (n N : nat) :
  atm_ok a n -> is_1d mu0 -> bdim n (len1 mu0) = Some N ->
  (1 <? ndim mu0)%nat = false /\
  colon_none (atleast_1d mu0) = Ok (mat (len1 mu0) 1 (fun i _ => vget mu0 i)) /\
  mu0_mismatch a (mat (len1 mu0) 1 (fun i _ => vget mu0 i)) = Ok false.
Proof.
  intros Ha Hm HN. split; [now apply ndim_le1 |]. split.
  - now rewrite (atleast_1d_canon mu0 Hm), colon_none_vec.
  - rewrite (mu0_mismatch_col a n _ _ (nscen_ok a n Ha)).
    now rewrite (mu0_compatible _ _ _ HN).
Qed.

Section Rayleigh.

Variables (a : Atmosphere) (wv mu0 : ndarray R) (n N : nat).
Hypothesis Ha : atm_ok a n.
Hypothesis Hw : is_1d wv.
Hypothesis Hm : is_1d mu0.
Hypothesis HN : bdim n (len1 mu0) = Some N.

Lemma trn_rayleigh_eq (ra : bool) :
  trn_rayleigh a wv mu0 ra =
  Ok ([PyArr (mat N (len1 wv)
                  (fun i j => sobolev (tau_ray a wv i j) (mu0_at mu0 i)));
       PyArr (mat N (len1 wv)
                  (fun i j => direct (tau_ray a wv i j) (mu0_at mu0 i)));
       PyArr (mat N (len1 wv)
                  (fun i j => sobolev (tau_ray a wv i j) (mu0_at mu0 i)
                              - direct (tau_ray a wv i j) (mu0_at mu0 i)))]
      ++ (if ra
          then [PyArr (mat n (len1 wv)
                           (fun i j => rayleigh_albedo
                                         (bates (vget (p a) i) (vget wv j))))]
          else [])).
Proof.
  destruct (mu0_column a mu0 n N Ha Hm HN) as (E1 & E2 & E3).
  unfold trn_rayleigh. rewrite E1, E2. cbn [bind]. rewrite E3. cbn [bind].
  rewrite (tau_rayleigh_eq a wv ra n Ha Hw). cbv zeta.
  unfold tau_ray, mu0_at, scen. rewrite (nrows_ok a n Ha).
  set (k := len1 wv). set (m := len1 mu0) in *.
  destruct ra; cbn [bind py_getitem getitem nth_error as_array];
    np_eval_in HN; cbn [app]; peel; intros i j Hi Hj;
    rewrite ?bidx_1, ?(bidx_id _ i Hi), ?(bidx_id k j Hj), ?bidx_idem;
    reflexivity.
Qed.

(** Without coupling: Ambartsumian's formula on the aerosol optical depth
    with the Atmosphere's own [w0] and [g]. *)
Lemma trn_aerosols_plain_eq (ra : bool) :
  trn_aerosols a wv mu0 ra false =
  let tdir i j := direct (tau_aer a wv i j) (mu0_at mu0 i) in
  let tglb i j :=
    ambartsumian (vget (w0 a) (scen a i)) (vget (g a) (scen a i)) (tdir i j) in
  Ok [PyArr (mat N (len1 wv) tglb);
      PyArr (mat N (len1 wv) tdir);
      PyArr (mat N (len1 wv) (fun i j => tglb i j - tdir i j));
      if ra
      then PyArr (mat n (len1 wv)
                      (fun i j => aerosol_albedo (vget (g a) i) (vget (w0 a) i)
                                    (angstrom (vget (beta a) i)
                                       (vget (alpha a) i) (vget wv j))))
      else PyTuple []].
Proof.
  destruct (mu0_column a mu0 n N Ha Hm HN) as (E1 & E2 & E3).
  destruct (atm_ok_fields a n Ha) as (_ & _ & _ & _ & _ & _ & Hw0 & Hg).
  unfold trn_aerosols. rewrite E1, E2. cbn [bind]. rewrite E3. cbn [bind].
  rewrite (tau_aerosols_eq a wv ra n Ha Hw). cbv zeta.
  unfold tau_aer, mu0_at, scen. rewrite (nrows_ok a n Ha).
  set (k := len1 wv). set (m := len1 mu0) in *.
  set (wf0 := vget (w0 a)) in *. set (gf := vget (g a)) in *.
  rewrite Hw0, Hg.
  destruct ra; cbn [bind py_getitem getitem nth_error as_array];
    np_eval_in HN; cbn [app]; peel; intros i j Hi Hj;
    rewrite ?bidx_1, ?(bidx_id _ i Hi), ?(bidx_id k j Hj), ?bidx_idem;
    reflexivity.
Qed.

(** With coupling: the optical depths are summed and the formula runs on
    the effective [w0] and [g] of the mixture. *)
Lemma trn_aerosols_coupled_eq (ra : bool) :
  trn_aerosols a wv mu0 ra true =
  let tau i j := tau_ray a wv i j + tau_aer a wv i j in
  let g_eff i j := tau_aer a wv i j * vget (g a) (scen a i) / tau i j in
  let w0_eff i j :=
    (tau_ray a wv i j + vget (w0 a) (scen a i) * tau_aer a wv i j)
    / tau i j in
  let tdir i j := direct (tau i j) (mu0_at mu0 i) in
  let tglb i j := ambartsumian (w0_eff i j) (g_eff i j) (tdir i j) in
  Ok [PyArr (mat N (len1 wv) tglb);
      PyArr (mat N (len1 wv) tdir);
      PyArr (mat N (len1 wv) (fun i j => tglb i j - tdir i j));
      if ra
      then PyArr (mat n (len1 wv)
                      (fun i j =>
                         rayleigh_albedo (bates (vget (p a) i) (vget wv j))
                         + aerosol_albedo (vget (g a) i) (vget (w0 a) i)
                             (angstrom (vget (beta a) i)
                                (vget (alpha a) i) (vget wv j))))
      else PyTuple []].
Proof.
  destruct (mu0_column a mu0 n N Ha Hm HN) as (E1 & E2 & E3).
  destruct (atm_ok_fields a n Ha) as (_ & _ & _ & _ & _ & _ & Hw0 & Hg).
  unfold trn_aerosols. rewrite E1, E2. cbn [bind]. rewrite E3. cbn [bind].
  rewrite (tau_aerosols_eq a wv ra n Ha Hw),
          (tau_rayleigh_eq a wv ra n Ha Hw). cbv zeta.
  unfold tau_ray, tau_aer, mu0_at, scen. rewrite (nrows_ok a n Ha).
  set (k := len1 wv). set (m := len1 mu0) in *.
  set (wf0 := vget (w0 a)) in *. set (gf := vget (g a)) in *.
  rewrite Hw0, Hg.
  destruct ra; cbn [bind py_getitem getitem nth_error as_array py_add app];
    np_eval_in HN; cbn [app]; peel; intros i j Hi Hj;
    rewrite ?bidx_1, ?(bidx_id _ i Hi), ?(bidx_id k j Hj), ?bidx_idem;
    reflexivity.
Qed.

Lemma trn_mixture_coupled_eq (ra : bool) :
  trn_mixture a wv mu0 ra true =
  out <- trn_aerosols a wv mu0 ra true ;;
  Ok (firstn 3 out ++ (if ra then skipn 3 out else [])).
Proof.
  unfold trn_mixture. rewrite (trn_aerosols_coupled_eq ra). cbv zeta.
  destruct ra; reflexivity.
Qed.

Lemma trn_mixture_plain_eq (ra : bool) :
  trn_mixture a wv mu0 ra false =
  let dray i j := direct (tau_ray a wv i j) (mu0_at mu0 i) in
  let daer i j := direct (tau_aer a wv i j) (mu0_at mu0 i) in
  let gray i j := sobolev (tau_ray a wv i j) (mu0_at mu0 i) in
  let gaer i j :=
    ambartsumian (vget (w0 a) (scen a i)) (vget (g a) (scen a i)) (daer i j) in
  Ok ([PyArr (mat N (len1 wv) (fun i j => gray i j * gaer i j));
       PyArr (mat N (len1 wv) (fun i j => dray i j * daer i j));
       PyArr (mat N (len1 wv)
                  (fun i j => gray i j * gaer i j - dray i j * daer i j))]
      ++ (if ra
          then [PyArr (mat n (len1 wv)
                  (fun i j =>
                     rayleigh_albedo (bates (vget (p a) i) (vget wv j))
                     + aerosol_albedo (vget (g a) i) (vget (w0 a) i)
                         (angstrom (vget (beta a) i)
                            (vget (alpha a) i) (vget wv j))))]
          else [])).
Proof.
  unfold trn_mixture.
  rewrite (trn_rayleigh_eq ra), (trn_aerosols_plain_eq ra). cbv zeta.
  set (k := len1 wv).
  destruct ra; cbn [bind app firstn unpack3]; np_eval;
    cbn [app]; peel; intros i j Hi Hj;
    rewrite ?(bidx_id _ i Hi), ?(bidx_id k j Hj); reflexivity.
Qed.

End Rayleigh.

End Transmittance.

(** ** Claims on the optical depths and the transmittances *)

Module TransmittanceClaims.

Import Atmosphere AtmosphereFacts OpticalDepth Transmittance.

Lemma atm_one_ok : atm_ok atm_one 1.
Proof. unfold atm_ok; cbn. repeat constructor. Qed.

Lemma atm_two_ok : atm_ok atm_two 2.
Proof. unfold atm_ok; cbn. repeat constructor. Qed.

Lemma wv_half_1d : is_1d wv_half.
Proof. split; [cbn; lia | reflexivity]. Qed.

Lemma mu_two_1d : is_1d mu_two.
Proof. split; [cbn; lia | reflexivity]. Qed.

(** C4.  [tau_rayleigh] returns Bates' optical depth scaled by [p / 1013]
    for every scenario and wavelength, and with [return_albedo] also the
    albedo contribution [tau (1 - exp (-2 tau)) / (2 + tau)]. *)
Theorem tau_rayleigh_bates (a : Atmosphere) (wv : ndarray R) (n : nat) :
  atm_ok a n -> is_1d wv ->
  exists tau salb,
    tau_rayleigh a wv false = Ok (PyArr tau) /\
    tau_rayleigh a wv true = Ok (PyTuple [PyArr tau; PyArr salb]) /\
    shape tau = [n; len1 wv] /\ shape salb = [n; len1 wv] /\
    forall i j, (i < n)%nat -> (j < len1 wv)%nat ->
      let l := vget wv j in
      let t := vget (p a) i / 1013
               / (117.2594 * l ^ 4 - 1.3215 * l ^ 2 + 0.000320
                  - 0.000076 * / l ^ 4) in
      get2 tau i j = t /\
      get2 salb i j = t * (1 - exp (-2 * t)) / (2 + t).
Proof.
  intros Ha Hw.
  pose proof (tau_rayleigh_eq a wv false n Ha Hw) as E0.
  pose proof (tau_rayleigh_eq a wv true n Ha Hw) as E1.
  cbv zeta in E0, E1.
  do 2 eexists. split; [exact E0 |]. split; [exact E1 |].
  split; [reflexivity |]. split; [reflexivity |].
  intros i j Hi Hj. cbv zeta. rewrite !get2_mat by assumption.
  split; reflexivity.
Qed.

Lemma tau_rayleigh_bates_witness :
  exists tau salb,
    tau_rayleigh atm_two wv_half false = Ok (PyArr tau) /\
    tau_rayleigh atm_two wv_half true = Ok (PyTuple [PyArr tau; PyArr salb]) /\
    shape tau = [2; len1 wv_half]%nat /\ shape salb = [2; len1 wv_half]%nat /\
    forall i j, (i < 2)%nat -> (j < len1 wv_half)%nat ->
      let l := vget wv_half j in
      let t := vget (p atm_two) i / 1013
               / (117.2594 * l ^ 4 - 1.3215 * l ^ 2 + 0.000320
                  - 0.000076 * / l ^ 4) in
      get2 tau i j = t /\
      get2 salb i j = t * (1 - exp (-2 * t)) / (2 + t).
Proof.
  apply (tau_rayleigh_bates atm_two wv_half 2 atm_two_ok wv_half_1d).
Defined.

(** C2.  With the coupling flag, [trn_aerosols] (and [trn_mixture], which
    hands over to it) runs Ambartsumian's formula on the sum of the Rayleigh
    and aerosol optical depths, with [g_eff = tau_aer g / tau] and
    [w0_eff = (tau_ray + w0 tau_aer) / tau]; the albedo returned is the sum
    of the two contributions. *)
Theorem trn_aerosols_coupling (a : Atmosphere) (wv mu0 : ndarray R)
    (ra : bool) (n N : nat) :
  atm_ok a n -> is_1d wv -> is_1d mu0 -> bdim n (len1 mu0) = Some N ->
  exists tr ta sr sa tglb tdir tdif salb,
    tau_rayleigh a wv true = Ok (PyTuple [PyArr tr; PyArr sr]) /\
    tau_aerosols a wv true = Ok (PyTuple [PyArr ta; PyArr sa]) /\
    trn_aerosols a wv mu0 ra true =
      Ok [PyArr tglb; PyArr tdir; PyArr tdif; salb] /\
    trn_mixture a wv mu0 ra true =
      Ok ([PyArr tglb; PyArr tdir; PyArr tdif]
          ++ if ra then [salb] else []) /\
    shape tglb = [N; len1 wv] /\ shape tdir = [N; len1 wv] /\
    shape tdif = [N; len1 wv] /\
    (forall i j, (i < N)%nat -> (j < len1 wv)%nat ->
       let tau_ray := get2 tr (scen a i) j in
       let tau_aer := get2 ta (scen a i) j in
       let tau := tau_ray + tau_aer in
       let g_eff := tau_aer * vget (g a) (scen a i) / tau in
       let w0_eff := (tau_ray + vget (w0 a) (scen a i) * tau_aer) / tau in
       get2 tdir i j = exp (-1.0 * tau / mu0_at mu0 i) /\
       get2 tglb i j = ambartsumian w0_eff g_eff (get2 tdir i j) /\
       get2 tdif i j = get2 tglb i j - get2 tdir i j) /\
    (ra = true ->
     exists s, salb = PyArr s /\ shape s = [n; len1 wv] /\
               forall i j, (i < n)%nat -> (j < len1 wv)%nat ->
                 get2 s i j = get2 sr i j + get2 sa i j).
Proof.
  intros Ha Hw Hm HN.
  pose proof (tau_rayleigh_eq a wv true n Ha Hw) as Er.
  pose proof (tau_aerosols_eq a wv true n Ha Hw) as Ea.
  pose proof (trn_aerosols_coupled_eq a wv mu0 n N Ha Hw Hm HN ra) as Et.
  pose proof (trn_mixture_coupled_eq a wv mu0 n N Ha Hw Hm HN ra) as Ex.
  rewrite Et in Ex. cbv zeta in Er, Ea, Et, Ex. cbn [bind firstn skipn] in Ex.
  do 8 eexists. split; [exact Er |]. split; [exact Ea |].
  split; [exact Et |]. split; [destruct ra; exact Ex |].
  split; [reflexivity |]. split; [reflexivity |]. split; [reflexivity |].
  split.
  - intros i j Hi Hj. cbv zeta.
    assert (Hs : (scen a i < n)%nat).
    { unfold scen. rewrite (nrows_ok a n Ha).
      now destruct (bidx_lt _ _ _ i HN Hi). }
    rewrite !get2_mat by assumption.
    unfold tau_ray, tau_aer, direct. repeat split; reflexivity.
  - intros ->. eexists. split; [reflexivity |]. split; [reflexivity |].
    intros i j Hi Hj. rewrite !get2_mat by assumption. reflexivity.
Qed.

Lemma trn_aerosols_coupling_witness :
  atm_ok atm_one 1 /\ is_1d wv_half /\ is_1d mu_two /\
  bdim 1 (len1 mu_two) = Some 2%nat /\
  exists tglb tdir tdif salb,
    trn_mixture atm_one wv_half mu_two true true =
      Ok [PyArr tglb; PyArr tdir; PyArr tdif; salb] /\
    shape tglb = [2; 1]%nat.
Proof.
  split; [exact atm_one_ok |]. split; [exact wv_half_1d |].
  split; [exact mu_two_1d |]. split; [reflexivity |].
  destruct (trn_aerosols_coupling atm_one wv_half mu_two true 1 2
              atm_one_ok wv_half_1d mu_two_1d eq_refl)
    as (tr & ta & sr & sa & tglb & tdir & tdif & salb
        & _ & _ & _ & Ex & Sg & _).
  exists tglb, tdir, tdif, salb. split; [exact Ex | exact Sg].
Defined.

(** C3.  Without coupling, [trn_mixture] returns the entrywise products of
    the Rayleigh and aerosol global and direct transmittances, their
    difference as diffuse transmittance and, when asked, the sum of the two
    albedo contributions. *)
Theorem trn_mixture_uncoupled (a : Atmosphere) (wv mu0 : ndarray R)
    (ra : bool) (n N : nat) :
  atm_ok a n -> is_1d wv -> is_1d mu0 -> bdim n (len1 mu0) = Some N ->
  exists gray dray fray sray gaer daer faer saer tglb tdir tdif salb,
    trn_rayleigh a wv mu0 ra =
      Ok ([PyArr gray; PyArr dray; PyArr fray] ++ sray) /\
    trn_aerosols a wv mu0 ra false =
      Ok [PyArr gaer; PyArr daer; PyArr faer; saer] /\
    trn_mixture a wv mu0 ra false =
      Ok ([PyArr tglb; PyArr tdir; PyArr tdif] ++ salb) /\
    shape tglb = [N; len1 wv] /\ shape tdir = [N; len1 wv] /\
    shape tdif = [N; len1 wv] /\
    (forall i j, (i < N)%nat -> (j < len1 wv)%nat ->
       get2 tglb i j = get2 gray i j * get2 gaer i j /\
       get2 tdir i j = get2 dray i j * get2 daer i j /\
       get2 tdif i j = get2 tglb i j - get2 tdir i j) /\
    (if ra
     then exists sr sa s,
            sray = [PyArr sr] /\ saer = PyArr sa /\ salb = [PyArr s] /\
            shape s = [n; len1 wv] /\
            forall i j, (i < n)%nat -> (j < len1 wv)%nat ->
              get2 s i j = get2 sr i j + get2 sa i j
     else salb = []).
Proof.
  intros Ha Hw Hm HN.
  pose proof (trn_rayleigh_eq a wv mu0 n N Ha Hw Hm HN ra) as Er.
  pose proof (trn_aerosols_plain_eq a wv mu0 n N Ha Hw Hm HN ra) as Ea.
  pose proof (trn_mixture_plain_eq a wv mu0 n N Ha Hw Hm HN ra) as Ex.
  cbv zeta in Er, Ea, Ex.
  do 12 eexists. split; [exact Er |]. split; [exact Ea |].
  split; [exact Ex |].
  split; [reflexivity |]. split; [reflexivity |]. split; [reflexivity |].
  split.
  - intros i j Hi Hj. rewrite !get2_mat by assumption.
    repeat split; reflexivity.
  - destruct ra; [| reflexivity].
    do 3 eexists. do 4 (split; [reflexivity |]).
    intros i j Hi Hj. rewrite !get2_mat by assumption. reflexivity.
Qed.

Lemma trn_mixture_uncoupled_witness :
  atm_ok atm_one 1 /\ is_1d wv_half /\ is_1d mu_two /\
  bdim 1 (len1 mu_two) = Some 2%nat /\
  exists tglb tdir tdif salb,
    trn_mixture atm_one wv_half mu_two true false =
      Ok ([PyArr tglb; PyArr tdir; PyArr tdif] ++ salb) /\
    shape tglb = [2; 1]%nat.
Proof.
  split; [exact atm_one_ok |]. split; [exact wv_half_1d |].
  split; [exact mu_two_1d |]. split; [reflexivity |].
  destruct (trn_mixture_uncoupled atm_one wv_half mu_two true 1 2
              atm_one_ok wv_half_1d mu_two_1d eq_refl)
    as (gray & dray & fray & sray & gaer & daer & faer & saer
        & tglb & tdir & tdif & salb & _ & _ & Ex & Sg & _).
  exists tglb, tdir, tdif, salb. split; [exact Ex | exact Sg].
Defined.

(** C9.  Without [return_albedo], [trn_rayleigh] returns the 3-tuple
    [(tglb, tdir, tdif)], while [trn_aerosols] returns a 4-tuple whose last
    item is the empty tuple; unpacking the latter into three names raises. *)
Theorem albedo_slot_without_albedo (a : Atmosphere) (wv mu0 : ndarray R)
    (coupling : bool) (n N : nat) :
  atm_ok a n -> is_1d wv -> is_1d mu0 -> bdim n (len1 mu0) = Some N ->
  (exists tglb tdir tdif,
     trn_rayleigh a wv mu0 false = Ok [PyArr tglb; PyArr tdir; PyArr tdif] /\
     unpack3 [PyArr tglb; PyArr tdir; PyArr tdif]
       = Ok (PyArr tglb, PyArr tdir, PyArr tdif)) /\
  (exists out tglb tdir tdif,
     trn_aerosols a wv mu0 false coupling = Ok out /\
     out = [PyArr tglb; PyArr tdir; PyArr tdif; PyTuple []] /\
     length out = 4%nat /\
     unpack3 out = Raise ValueError).
Proof.
  intros Ha Hw Hm HN. split.
  - pose proof (trn_rayleigh_eq a wv mu0 n N Ha Hw Hm HN false) as Er.
    cbn [app] in Er. do 3 eexists. split; [exact Er | reflexivity].
  - destruct coupling.
    + pose proof (trn_aerosols_coupled_eq a wv mu0 n N Ha Hw Hm HN false)
        as Ea.
      cbv zeta in Ea. do 4 eexists. split; [exact Ea |].
      split; [reflexivity |]. split; reflexivity.
    + pose proof (trn_aerosols_plain_eq a wv mu0 n N Ha Hw Hm HN false)
        as Ea.
      cbv zeta in Ea. do 4 eexists. split; [exact Ea |].
      split; [reflexivity |]. split; reflexivity.
Qed.

Lemma albedo_slot_without_albedo_witness :
  atm_ok atm_one 1 /\ is_1d wv_half /\ is_1d mu_two /\
  bdim 1 (len1 mu_two) = Some 2%nat /\
  exists out,
    trn_aerosols atm_one wv_half mu_two false false = Ok out /\
    nth_error out 3 = Some (PyTuple []) /\
    unpack3 out = Raise ValueError.
Proof.
  split; [exact atm_one_ok |]. split; [exact wv_half_1d |].
  split; [exact mu_two_1d |]. split; [reflexivity |].
  destruct (albedo_slot_without_albedo atm_one wv_half mu_two false 1 2
              atm_one_ok wv_half_1d mu_two_1d eq_refl)
    as (_ & out & tglb & tdir & tdif & E & -> & _ & U).
  eexists. split; [exact E |]. split; [reflexivity | exact U].
Defined.

End TransmittanceClaims.

(** ** Atmosphere: gas transmittances *)

Module GasTransmittance.

Import Atmosphere AtmosphereFacts Transmittance.

Lemma table_row_length (t : ndarray R) (c r : nat) :
  shape t = [5%nat; S c] -> wf t -> (r < 5)%nat ->
  length (table_row t r) = S c.
Proof.
  intros Hs Hwf Hr. unfold wf in Hwf. unfold table_row.
  rewrite Hs in *. cbn [tl size fold_right] in *.
  rewrite length_firstn, length_skipn, Hwf. nia.
Qed.

Lemma interp_row (t : ndarray R) (r k : nat) (f : nat -> R) :
  abscoef_ok t -> (r < 5)%nat ->
  interp (vec k f) (table_row t 0) (table_row t r) =
  Ok (vec k (fun j => coef_at t r (f j))).
Proof.
  intros (c & Hs & Hwf) Hr. unfold interp.
  rewrite (table_row_length t c 0 Hs Hwf) by lia.
  rewrite (table_row_length t c r Hs Hwf Hr).
  rewrite Nat.eqb_refl. cbn [Nat.eqb orb negb].
  now rewrite amap_vec.
Qed.

Section Gas.

Variables (T : ndarray R) (a : Atmosphere) (wv mu0 : ndarray R) (n N : nat).
Hypothesis HT : abscoef_ok T.
Hypothesis Ha : atm_ok a n.
Hypothesis Hw : is_1d wv.
Hypothesis Hm : is_1d mu0.
Hypothesis HN : bdim n (len1 mu0) = Some N.

Lemma trn_water_eq :
  trn_water T a wv mu0 =
  Ok (mat N (len1 wv)
          (fun i j =>
             if isclose1 (coef_at T 2 (vget wv j)) 0.0 then 1.0
             else exp (- float_power
                           (coef_at T 1 (vget wv j) * vget (h2o a) (scen a i)
                            / mu0_at mu0 i)
                           (coef_at T 2 (vget wv j))))).
Proof.
  destruct (mu0_column a mu0 n N Ha Hm HN) as (E1 & E2 & E3).
  destruct (atm_ok_fields a n Ha) as (_ & _ & _ & Hh & _).
  unfold trn_water. rewrite (ndim_le1 wv Hw), (atleast_1d_canon wv Hw).
  rewrite E1, E2. cbn [bind]. rewrite E3. cbn [bind].
  rewrite !interp_row by (assumption || lia). cbn [bind].
  unfold mu0_at, scen. rewrite (nrows_ok a n Ha).
  set (k := len1 wv). set (m := len1 mu0) in *.
  set (hf := vget (h2o a)) in *. rewrite Hh.
  unfold where_scalar. np_eval_in HN. peel. intros i j Hi Hj.
  rewrite ?bidx_1, ?(bidx_id _ i Hi), ?(bidx_id k j Hj), ?bidx_idem.
  reflexivity.
Qed.

Lemma trn_ozone_eq :
  trn_ozone T a wv mu0 =
  Ok (mat N (len1 wv)
          (fun i j =>
             exp (- (2.687e19 * coef_at T 3 (vget wv j))
                  * (1e-3 * vget (o3 a) (scen a i)) / mu0_at mu0 i))).
Proof.
  destruct (mu0_column a mu0 n N Ha Hm HN) as (E1 & E2 & E3).
  destruct (atm_ok_fields a n Ha) as (_ & _ & Ho & _).
  unfold trn_ozone. rewrite (ndim_le1 wv Hw), (atleast_1d_canon wv Hw).
  rewrite E1, E2. cbn [bind]. rewrite E3. cbn [bind].
  rewrite !interp_row by (assumption || lia). cbn [bind].
  unfold mu0_at, scen. rewrite (nrows_ok a n Ha).
  set (k := len1 wv). set (m := len1 mu0) in *.
  set (o3f := vget (o3 a)) in *. rewrite Ho.
  np_eval_in HN. peel. intros i j Hi Hj.
  rewrite ?bidx_1, ?(bidx_id _ i Hi), ?(bidx_id k j Hj), ?bidx_idem.
  reflexivity.
Qed.

Lemma trn_oxygen_eq :
  trn_oxygen T a wv mu0 =
  Ok (mat (len1 mu0) (len1 wv)
          (fun i j =>
             exp (- float_power
                      (coef_at T 4 (vget wv j) * (0.209 * 173200)
                       / vget mu0 i)
                      0.5641))).
Proof.
  destruct (mu0_column a mu0 n N Ha Hm HN) as (E1 & E2 & E3).
  unfold trn_oxygen. rewrite (ndim_le1 wv Hw), (atleast_1d_canon wv Hw).
  rewrite E1, E2. cbn [bind]. rewrite E3. cbn [bind].
  rewrite !interp_row by (assumption || lia). cbn [bind].
  set (k := len1 wv). set (m := len1 mu0) in *.
  rewrite asarray_vec. cbn [length].
  np_eval_in HN. peel. intros i j Hi Hj.
  rewrite ?bidx_1, ?(bidx_id _ i Hi), ?(bidx_id k j Hj), ?bidx_idem.
  reflexivity.
Qed.

End Gas.

End GasTransmittance.

(** ** The Atmosphere constructor and the scenario-count guard *)

Module AtmosphereClaims.

Import Atmosphere AtmosphereFacts OpticalDepth Transmittance.
Import GasTransmittance TransmittanceClaims.

Lemma atleast_1d_shape (x : ndarray R) (s : list nat) :
  shape x = s -> (1 <? length s)%nat = false -> wf x ->
  shape (atleast_1d x) = [size s] /\ length (data (atleast_1d x)) = size s.
Proof.
  intros Hs Hl Hwf. apply Nat.ltb_ge in Hl. unfold wf in Hwf.
  unfold atleast_1d. rewrite Hs in *.
  destruct s as [| d [| ? ?]]; cbn in *; [auto | | lia].
  rewrite Hs. cbn. rewrite Nat.mul_1_r in *. auto.
Qed.

Lemma full_atleast_1d (s : list nat) (v : R) :
  (1 <? length s)%nat = false ->
  atleast_1d (full s v) = mk_ndarray [size s] (repeat v (size s)).
Proof.
  intros Hl. apply Nat.ltb_ge in Hl.
  destruct s as [| d [| ? ?]]; cbn in *; [reflexivity | | lia].
  unfold atleast_1d, full; cbn. now rewrite Nat.mul_1_r.
Qed.

Lemma new_inv (p rho o3 h2o alpha beta : ndarray R)
    (w0 g : option (ndarray R)) (atm : Atmosphere) :
  new p rho o3 h2o alpha beta w0 g = Ok atm ->
  let items := [p; rho; o3; h2o; alpha; beta] ++ given [w0; g] in
  let s := hd [] (set_of_shapes items) in
  (1 <? length (set_of_shapes items))%nat = false /\
  (1 <? length s)%nat = false /\
  atm = mk (atleast_1d p) (atleast_1d rho) (atleast_1d o3) (atleast_1d h2o)
           (atleast_1d alpha) (atleast_1d beta)
           (atleast_1d (match w0 with
                        | Some x => x
                        | None => full s DEFAULT_W0
                        end))
           (atleast_1d (match g with
                        | Some x => x
                        | None => full s DEFAULT_G
                        end)).
Proof.
  unfold new. intros H.
  repeat match type of H with
         | (if ?c then Raise _ else _) = Ok _ =>
             destruct c eqn:?; [discriminate H |]
         end.
  destruct w0 as [w |], g as [gg |]; cbn [bind] in H;
    repeat match type of H with
           | context [if ?c then Raise _ else _] =>
               destruct c eqn:?; [discriminate H |]; cbn [bind] in H
           end;
    injection H as <-; auto.
Qed.

(** C10 (as the code has it).  A constructed Atmosphere stores its eight
    fields as 1-d arrays of one common length [nscen]: 1 for scalar inputs,
    the inputs' length otherwise -- at least 1 unless the inputs are empty
    arrays -- with [w0] and [g] filled with 0.90 and 0.85 when omitted; a
    call of an engine operation leaves the receiver as it was. *)
Theorem atmosphere_invariant (ABSCOEF : ndarray R)
    (p rho o3 h2o alpha beta : ndarray R) (w0 g : option (ndarray R))
    (atm : Atmosphere) :
  Forall wf ([p; rho; o3; h2o; alpha; beta] ++ given [w0; g]) ->
  new p rho o3 h2o alpha beta w0 g = Ok atm ->
  let n := len1 p in
  nscen atm = Ok n /\
  atm_ok atm n /\
  (shape p = [] -> n = 1%nat) /\
  ((1 <= n)%nat \/ shape p = [0%nat]) /\
  (w0 = None -> data (Atmosphere.w0 atm) = repeat 0.90 n) /\
  (g = None -> data (Atmosphere.g atm) = repeat 0.85 n) /\
  forall c, fst (invoke ABSCOEF c atm) = atm.
Proof.
  intros Hwf Hnew. destruct (new_inv _ _ _ _ _ _ _ _ _ Hnew) as (H1 & H2 & ->).
  set (items := [p; rho; o3; h2o; alpha; beta] ++ given [w0; g]) in *.
  set (s := hd [] (set_of_shapes items)) in *.
  assert (Hsh : forall x, In x items -> shape x = s /\ wf x).
  { intros x Hx. split; [now apply set_of_shapes_single |].
    now apply (proj1 (Forall_forall _ _) Hwf). }
  assert (Hp : shape p = s) by (apply Hsh; cbn; auto).
  assert (Hn : len1 p = size s) by (unfold len1; now rewrite Hp).
  cbv zeta. rewrite Hn.
  assert (Hfld : forall x, In x items ->
            shape (atleast_1d x) = [size s] /\
            length (data (atleast_1d x)) = size s).
  { intros x Hx. destruct (Hsh x Hx). now apply atleast_1d_shape with (s := s). }
  assert (Hw0 : shape (atleast_1d (match w0 with
                                   | Some x => x
                                   | None => full s DEFAULT_W0
                                   end)) = [size s] /\
                length (data (atleast_1d (match w0 with
                                          | Some x => x
                                          | None => full s DEFAULT_W0
                                          end))) = size s).
  { destruct w0 as [w |].
    - apply Hfld. unfold items. cbn. auto 10.
    - rewrite full_atleast_1d by exact H2. cbn. now rewrite repeat_length. }
  assert (Hg : shape (atleast_1d (match g with
                                  | Some x => x
                                  | None => full s DEFAULT_G
                                  end)) = [size s] /\
               length (data (atleast_1d (match g with
                                         | Some x => x
                                         | None => full s DEFAULT_G
                                         end))) = size s).
  { destruct g as [gg |].
    - apply Hfld. unfold items. destruct w0; cbn; auto 10.
    - rewrite full_atleast_1d by exact H2. cbn. now rewrite repeat_length. }
  assert (Hok : atm_ok (mk (atleast_1d p) (atleast_1d rho) (atleast_1d o3)
                           (atleast_1d h2o) (atleast_1d alpha)
                           (atleast_1d beta)
                           (atleast_1d (match w0 with
                                        | Some x => x
                                        | None => full s DEFAULT_W0
                                        end))
                           (atleast_1d (match g with
                                        | Some x => x
                                        | None => full s DEFAULT_G
                                        end))) (size s)).
  { unfold atm_ok, atm_fields. cbn [Atmosphere.p Atmosphere.rho Atmosphere.o3
      Atmosphere.h2o Atmosphere.alpha Atmosphere.beta Atmosphere.w0
      Atmosphere.g].
    repeat (apply Forall_cons; [first [exact Hw0 | exact Hg
                                       | apply Hfld; cbn; auto 10] |]).
    apply Forall_nil. }
  split; [now apply nscen_ok |]. split; [exact Hok |].
  split. { intros E. rewrite Hp in E. now rewrite E. }
  split.
  { apply Nat.ltb_ge in H2. destruct s as [| d [| ? ?]]; cbn in *;
      [left; lia | | lia].
    destruct d; [right; exact Hp | left; lia]. }
  split. { intros ->. cbn. now rewrite full_atleast_1d by exact H2. }
  split. { intros ->. cbn. now rewrite full_atleast_1d by exact H2. }
  intros c. destruct c; reflexivity.
Qed.

Lemma atmosphere_invariant_witness :
  exists atm,
    new (scalar 800) (scalar 0.2) (scalar 300) (scalar 0.4) (scalar 1.5)
        (scalar 0.05) None None = Ok atm /\
    nscen atm = Ok 1%nat /\ atm_ok atm 1 /\
    data (Atmosphere.w0 atm) = [0.90] /\ data (Atmosphere.g atm) = [0.85].
Proof.
  exists atm_one.
  assert (E : new (scalar 800) (scalar 0.2) (scalar 300) (scalar 0.4)
                  (scalar 1.5) (scalar 0.05) None None = Ok atm_one).
  { unfold new.
    change (set_of_shapes ([scalar 800; scalar 0.2; scalar 300; scalar 0.4;
                            scalar 1.5; scalar 0.05] ++ given [None; None]))
      with [@nil nat].
    cbn [length hd Nat.ltb Nat.leb bind any existsb data scalar orb
         atleast_1d shape].
    rewrite !Rltb_false by lra. reflexivity. }
  split; [exact E |].
  assert (Hwf : Forall wf ([scalar 800; scalar 0.2; scalar 300; scalar 0.4;
                             scalar 1.5; scalar 0.05] ++ given [None; None]))
    by (repeat constructor).
  destruct (atmosphere_invariant (scalar 0) _ _ _ _ _ _ None None atm_one
              Hwf E)
    as (Hn & Hok & _ & _ & Hw & Hg & _).
  split; [exact Hn |]. split; [exact Hok |].
  split; [exact (Hw eq_refl) | exact (Hg eq_refl)].
Defined.

(** C10 (as stated) fails on empty input arrays: the constructor accepts
    them and the Atmosphere has no scenario. *)
Lemma empty_atmosphere_no_scenario :
  exists atm,
    new (asarray []) (asarray []) (asarray []) (asarray []) (asarray [])
        (asarray []) None None = Ok atm /\
    nscen atm = Ok 0%nat /\ ~ (1 <= 0)%nat.
Proof.
  eexists. split; [| split; [| lia]].
  - unfold new.
    change (set_of_shapes ([asarray []; asarray []; asarray []; asarray [];
                            asarray []; asarray []] ++ given [None; None]))
      with [[0%nat]].
    cbn. reflexivity.
  - reflexivity.
Qed.

(** The guard on a mismatching [mu0], shared by the six operations. *)
Lemma guard_raises (a : Atmosphere) (mu0 : ndarray R) (n m : nat) :
  nscen a = Ok n -> n <> 1%nat ->
  shape mu0 = [m] -> m <> 1%nat -> m <> n ->
  (1 <? ndim mu0)%nat = false /\
  exists col, colon_none (atleast_1d mu0) = Ok col /\
              mu0_mismatch a col = Ok true.
Proof.
  intros Hn Hn1 Hs Hm1 Hmn.
  split; [unfold ndim; now rewrite Hs |].
  unfold atleast_1d, colon_none. rewrite Hs. cbn [shape]. rewrite Hs.
  eexists. split; [reflexivity |].
  unfold mu0_mismatch. rewrite Hn. cbn.
  destruct (Nat.eqb_spec n 1); [contradiction |].
  destruct (Nat.eqb_spec m 1); [contradiction |].
  destruct (Nat.eqb_spec m n); [contradiction |]. reflexivity.
Qed.

Lemma mixture_raises (a : Atmosphere) (wv mu0 : ndarray R) (ra : bool)
    (n m : nat) :
  nscen a = Ok n -> n <> 1%nat ->
  shape mu0 = [m] -> m <> 1%nat -> m <> n ->
  trn_rayleigh a wv mu0 ra = Raise IndexError /\
  (forall c, trn_aerosols a wv mu0 ra c = Raise IndexError) /\
  (forall c, trn_mixture a wv mu0 ra c = Raise IndexError).
Proof.
  intros Hn Hn1 Hs Hm1 Hmn.
  destruct (guard_raises a mu0 n m Hn Hn1 Hs Hm1 Hmn) as (Em & col & Ec & Eb).
  assert (Er : trn_rayleigh a wv mu0 ra = Raise IndexError).
  { unfold trn_rayleigh. rewrite Em, Ec. cbn [bind]. now rewrite Eb. }
  assert (Ea : forall c, trn_aerosols a wv mu0 ra c = Raise IndexError).
  { intros c. unfold trn_aerosols. rewrite Em, Ec. cbn [bind].
    now rewrite Eb. }
  split; [exact Er |]. split; [exact Ea |].
  intros c. unfold trn_mixture.
  destruct c; [rewrite Ea | rewrite Er]; reflexivity.
Qed.

(** C5 (as the code has it).  On an Atmosphere whose scenario count is not
    1, a 1-d [mu0] whose length is neither 1 nor that count makes each of
    the six transmittance operations raise [IndexError].  An Atmosphere of
    one scenario accepts a 1-d [mu0] of any length [m]: each of the six
    operations returns, its transmittances have one row per entry of [mu0]
    (shape [(m, nwvln)]), and row [i] is computed from the single scenario
    of the Atmosphere and [mu0[i]] (shown on the Rayleigh direct
    transmittance and on the ozone transmittance). *)
Theorem mu0_length_mismatch (ABSCOEF : ndarray R) (a : Atmosphere)
    (wv mu0 : ndarray R) (ra cp : bool) (n m : nat) :
  nscen a = Ok n -> shape mu0 = [m] -> (ndim wv <= 1)%nat ->
  (n <> 1%nat -> m <> 1%nat -> m <> n ->
   trn_rayleigh a wv mu0 ra = Raise IndexError /\
   trn_aerosols a wv mu0 ra cp = Raise IndexError /\
   trn_mixture a wv mu0 ra cp = Raise IndexError /\
   trn_water ABSCOEF a wv mu0 = Raise IndexError /\
   trn_ozone ABSCOEF a wv mu0 = Raise IndexError /\
   trn_oxygen ABSCOEF a wv mu0 = Raise IndexError) /\
  (n = 1%nat -> abscoef_ok ABSCOEF -> atm_ok a 1 -> wf wv -> wf mu0 ->
   exists rg rd rf rrest ag ad af aslot mg md mf mrest tw tz tx,
     trn_rayleigh a wv mu0 ra
       = Ok ([PyArr rg; PyArr rd; PyArr rf] ++ rrest) /\
     trn_aerosols a wv mu0 ra cp
       = Ok [PyArr ag; PyArr ad; PyArr af; aslot] /\
     trn_mixture a wv mu0 ra cp
       = Ok ([PyArr mg; PyArr md; PyArr mf] ++ mrest) /\
     trn_water ABSCOEF a wv mu0 = Ok tw /\
     trn_ozone ABSCOEF a wv mu0 = Ok tz /\
     trn_oxygen ABSCOEF a wv mu0 = Ok tx /\
     Forall (fun x => shape x = [m; len1 wv])
            [rg; rd; rf; ag; ad; af; mg; md; mf; tw; tz; tx] /\
     forall i j, (i < m)%nat -> (j < len1 wv)%nat ->
       get2 rd i j
         = exp (-1.0 * bates (vget (p a) 0) (vget wv j) / vget mu0 i) /\
       get2 tz i j
         = exp (- (2.687e19
                   * interp1 (table_row ABSCOEF 0) (table_row ABSCOEF 3)
                       (vget wv j))
                * (1e-3 * vget (o3 a) 0) / vget mu0 i)).
Proof.
  intros Hn Hs Hw. split.
  - intros Hn1 Hm1 Hmn.
    assert (Ew : (1 <? ndim wv)%nat = false) by now apply Nat.ltb_ge.
    destruct (guard_raises a mu0 n m Hn Hn1 Hs Hm1 Hmn)
      as (Em & col & Ec & Eb).
    destruct (mixture_raises a wv mu0 ra n m Hn Hn1 Hs Hm1 Hmn)
      as (Er & Ea & Ex).
    split; [exact Er |]. split; [apply Ea |]. split; [apply Ex |].
    split; [| split].
    + unfold trn_water. rewrite Ew, Em, Ec. cbn [bind]. now rewrite Eb.
    + unfold trn_ozone. rewrite Ew, Em, Ec. cbn [bind]. now rewrite Eb.
    + unfold trn_oxygen. rewrite Ew, Em, Ec. cbn [bind]. now rewrite Eb.
  - intros _ HT Ha Hwf Hmf.
    assert (Hw1 : is_1d wv) by (split; assumption).
    assert (Hm1 : is_1d mu0)
      by (split; [unfold ndim; rewrite Hs; cbn; lia | exact Hmf]).
    assert (Hl : len1 mu0 = m)
      by (unfold len1; rewrite Hs; cbn; lia).
    assert (HN : bdim 1 (len1 mu0) = Some m)
      by (rewrite Hl; apply bdim_1_l).
    pose proof (trn_rayleigh_eq a wv mu0 1 m Ha Hw1 Hm1 HN ra) as Er.
    pose proof (trn_aerosols_plain_eq a wv mu0 1 m Ha Hw1 Hm1 HN ra) as Eap.
    pose proof (trn_aerosols_coupled_eq a wv mu0 1 m Ha Hw1 Hm1 HN ra) as Eac.
    pose proof (trn_mixture_plain_eq a wv mu0 1 m Ha Hw1 Hm1 HN ra) as Emp.
    pose proof (trn_mixture_coupled_eq a wv mu0 1 m Ha Hw1 Hm1 HN ra) as Emc.
    pose proof (trn_water_eq ABSCOEF a wv mu0 1 m HT Ha Hw1 Hm1 HN) as Ewat.
    pose proof (trn_ozone_eq ABSCOEF a wv mu0 1 m HT Ha Hw1 Hm1 HN) as Eozo.
    pose proof (trn_oxygen_eq ABSCOEF a wv mu0 1 m HT Ha Hw1 Hm1 HN) as Eoxy.
    rewrite Hl in Eoxy. rewrite Eac in Emc.
    cbv zeta in Eap, Eac, Emp, Emc.
    cbn [bind firstn skipn app] in Emc. cbn [app] in Emp.
    assert (Ea : exists ag ad af aslot,
              trn_aerosols a wv mu0 ra cp
                = Ok [PyArr ag; PyArr ad; PyArr af; aslot] /\
              shape ag = [m; len1 wv] /\ shape ad = [m; len1 wv] /\
              shape af = [m; len1 wv]).
    { destruct cp; do 4 eexists;
        (split; [first [exact Eac | exact Eap] |]);
        repeat split; reflexivity. }
    assert (Emx : exists mg md mf mrest,
              trn_mixture a wv mu0 ra cp
                = Ok ([PyArr mg; PyArr md; PyArr mf] ++ mrest) /\
              shape mg = [m; len1 wv] /\ shape md = [m; len1 wv] /\
              shape mf = [m; len1 wv]).
    { destruct cp, ra; do 4 eexists;
        (split; [first [exact Emc | exact Emp] |]);
        repeat split; reflexivity. }
    destruct Ea as (ag & ad & af & aslot & Ea & Sag & Sad & Saf).
    destruct Emx as (mg & md & mf & mrest & Emx & Smg & Smd & Smf).
    do 4 eexists. exists ag, ad, af, aslot, mg, md, mf, mrest.
    do 3 eexists.
    split; [exact Er |]. split; [exact Ea |]. split; [exact Emx |].
    split; [exact Ewat |]. split; [exact Eozo |]. split; [exact Eoxy |].
    split.
    { repeat (apply Forall_cons; [first [assumption | reflexivity] |]).
      apply Forall_nil. }
    intros i j Hi Hj. rewrite !get2_mat by assumption.
    unfold direct, tau_ray, mu0_at, scen, coef_at.
    rewrite (nrows_ok a 1 Ha), bidx_1, Hl, (bidx_id m i Hi).
    split; reflexivity.
Qed.

Lemma mu0_length_mismatch_witness :
  (trn_rayleigh atm_two wv_half mu_three true = Raise IndexError /\
   trn_aerosols atm_two wv_half mu_three true true = Raise IndexError /\
   trn_mixture atm_two wv_half mu_three true true = Raise IndexError /\
   trn_water (scalar 0) atm_two wv_half mu_three = Raise IndexError /\
   trn_ozone (scalar 0) atm_two wv_half mu_three = Raise IndexError /\
   trn_oxygen (scalar 0) atm_two wv_half mu_three = Raise IndexError) /\
  exists tw tz tx,
    trn_water table_small atm_one wv_300 mu_three = Ok tw /\
    trn_ozone table_small atm_one wv_300 mu_three = Ok tz /\
    trn_oxygen table_small atm_one wv_300 mu_three = Ok tx /\
    shape tw = [3; 1]%nat /\ shape tz = [3; 1]%nat /\ shape tx = [3; 1]%nat.
Proof.
  split.
  - apply (proj1 (mu0_length_mismatch (scalar 0) atm_two wv_half mu_three
                    true true 2 3 eq_refl eq_refl (le_n 1)));
      discriminate.
  - destruct (proj2 (mu0_length_mismatch table_small atm_one wv_300 mu_three
                       true true 1 3 eq_refl eq_refl (le_n 1))
                eq_refl (ex_intro _ 1%nat (conj eq_refl eq_refl))
                atm_one_ok eq_refl eq_refl)
      as (rg & rd & rf & rrest & ag & ad & af & aslot & mg & md & mf & mrest
          & tw & tz & tx & _ & _ & _ & Ew & Ez & Ex & Hall & _).
    exists tw, tz, tx.
    split; [exact Ew |]. split; [exact Ez |]. split; [exact Ex |].
    repeat (apply Forall_cons_iff in Hall; destruct Hall as [? Hall]).
    repeat split; assumption.
Defined.

(** C5 (as stated) fails on a single-scenario Atmosphere: a [mu0] of
    length 2 is neither 1 nor the scenario count, and the call returns. *)
Lemma single_scenario_takes_any_mu0 :
  nscen atm_one = Ok 1%nat /\ shape mu_two = [2%nat] /\
  exists tglb tdir tdif,
    trn_rayleigh atm_one wv_half mu_two false
      = Ok [PyArr tglb; PyArr tdir; PyArr tdif] /\
    shape tglb = [2; 1]%nat.
Proof.
  split; [reflexivity |]. split; [reflexivity |].
  pose proof (trn_rayleigh_eq atm_one wv_half mu_two 1 2 atm_one_ok
                wv_half_1d mu_two_1d eq_refl false) as E.
  cbn [app] in E. do 3 eexists. split; [exact E | reflexivity].
Qed.

End AtmosphereClaims.

(** ** Claims on the gas transmittances and the pipeline *)

Module PipelineClaims.

Import Geometry Atmosphere AtmosphereFacts Transmittance GasTransmittance.
Import GeometryFacts GeometryClaims TransmittanceClaims Radtran.

Lemma table_small_ok : abscoef_ok table_small.
Proof. exists 1%nat. split; reflexivity. Qed.

Lemma wv_300_1d : is_1d wv_300.
Proof. split; [cbn; lia | reflexivity]. Qed.

(** C8.  Wherever [np.isclose] finds the interpolated water-vapour exponent
    equal to zero, [trn_water] returns exactly 1. *)
Theorem trn_water_zero_exponent (T : ndarray R) (a : Atmosphere)
    (wv mu0 : ndarray R) (n N : nat) :
  abscoef_ok T -> atm_ok a n -> is_1d wv -> is_1d mu0 ->
  bdim n (len1 mu0) = Some N ->
  exists trn,
    trn_water T a wv mu0 = Ok trn /\
    shape trn = [N; len1 wv] /\
    forall i j, (i < N)%nat -> (j < len1 wv)%nat ->
      isclose1 (interp1 (table_row T 0) (table_row T 2) (vget wv j)) 0.0
        = true ->
      get2 trn i j = 1.
Proof.
  intros HT Ha Hw Hm HN.
  eexists. split; [apply (trn_water_eq T a wv mu0 n N HT Ha Hw Hm HN) |].
  split; [reflexivity |].
  intros i j Hi Hj Hz. rewrite get2_mat by assumption.
  unfold coef_at. rewrite Hz. lra.
Qed.

Lemma trn_water_zero_exponent_witness :
  exists trn,
    trn_water table_small atm_one wv_300 mu_two = Ok trn /\
    get2 trn 0 0 = 1.
Proof.
  destruct (trn_water_zero_exponent table_small atm_one wv_300 mu_two 1 2
              table_small_ok atm_one_ok wv_300_1d mu_two_1d eq_refl)
    as (trn & E & _ & H).
  exists trn. split; [exact E |].
  apply H; [lia | cbn; lia |].
  change (table_row table_small 0) with [300; 2600].
  change (table_row table_small 2) with [0; 0.5].
  change (vget wv_300 0) with 300. unfold interp1.
  destruct (Rle_dec 300 300) as [_ | Hn]; [| exfalso; lra].
  unfold isclose1. apply Rleb_true.
  replace (0 - 0.0) with 0 by lra.
  replace (Rabs 0.0) with 0 by (replace 0.0 with 0 by lra; now rewrite Rabs_R0).
  rewrite Rabs_R0. lra.
Defined.

Lemma window_eq (th : list R) (lo hi : R) (rows : list (R * R)) :
  getitem th 0 = Ok lo -> getitem th 1 = Ok hi ->
  window th rows = Ok (map fst (filter (in_window lo hi) rows),
                       map snd (filter (in_window lo hi) rows)).
Proof.
  intros Hlo Hhi. induction rows as [| [w i] rows IH]; [reflexivity |].
  cbn [window]. rewrite Hlo, Hhi, IH. cbn [bind filter].
  change (in_window lo hi (w, i)) with (Rleb lo w && Rleb w hi).
  destruct (Rleb lo w && Rleb w hi); reflexivity.
Qed.

Lemma len1_asarray (l : list R) : len1 (asarray l) = length l.
Proof. unfold len1; cbn. apply Nat.mul_1_r. Qed.

Lemma asarray_1d (l : list R) : is_1d (asarray l).
Proof. split; [cbn; lia | unfold wf; cbn; lia]. Qed.

Lemma mixture_with_albedo (a : Atmosphere) (wv mu0 : ndarray R) (cp : bool)
    (n N : nat) :
  atm_ok a n -> is_1d wv -> is_1d mu0 -> bdim n (len1 mu0) = Some N ->
  exists TG TD TF AL,
    trn_mixture a wv mu0 true cp =
    Ok [PyArr (mat N (len1 wv) TG); PyArr (mat N (len1 wv) TD);
        PyArr (mat N (len1 wv) TF); PyArr (mat n (len1 wv) AL)].
Proof.
  intros Ha Hw Hm HN. destruct cp.
  - rewrite (trn_mixture_coupled_eq a wv mu0 n N Ha Hw Hm HN true).
    rewrite (trn_aerosols_coupled_eq a wv mu0 n N Ha Hw Hm HN true).
    cbv zeta. cbn [bind firstn skipn app]. do 4 eexists. reflexivity.
  - rewrite (trn_mixture_plain_eq a wv mu0 n N Ha Hw Hm HN true).
    cbv zeta. cbn [app]. do 4 eexists. reflexivity.
Qed.

(** The pipeline on a Geometry of 1-d fields with [ng <> 1] scenarios and
    an Atmosphere of one or [ng] scenarios: it returns, and the irradiances
    are the products of the quantities it computed. *)
Lemma radtran_returns (T : ndarray R) (geo : Geometry) (atm : Atmosphere)
    (toa : list (R * R)) (th : list R) (cp : bool) (lo hi : R) (ng n : nat) :
  abscoef_ok T ->
  shape (day geo) = [ng] -> length (data (day geo)) = ng ->
  shape (Geometry.mu0 geo) = [ng] -> length (data (Geometry.mu0 geo)) = ng ->
  ng <> 1%nat ->
  atm_ok atm n -> n = 1%nat \/ n = ng ->
  getitem th 0 = Ok lo -> getitem th 1 = Ok hi ->
  let kept := filter (in_window lo hi) toa in
  let wvln0 := map fst kept in
  let k := length wvln0 in
  let wvln_um := amap (fun x => 1e-3 * x) (asarray wvln0) in
  exists irr_glb irr_dir irr_dif I0 tglb tdir tdif alb twat tozo toxy,
    radtran T geo atm toa th cp = Ok (irr_glb, irr_dir, irr_dif, wvln0) /\
    scale_toa geo (map snd kept) = Ok I0 /\
    trn_mixture atm wvln_um (Geometry.mu0 geo) true cp
      = Ok [PyArr tglb; PyArr tdir; PyArr tdif; PyArr alb] /\
    trn_water T atm (asarray wvln0) (Geometry.mu0 geo) = Ok twat /\
    trn_ozone T atm (asarray wvln0) (Geometry.mu0 geo) = Ok tozo /\
    trn_oxygen T atm (asarray wvln0) (Geometry.mu0 geo) = Ok toxy /\
    shape irr_glb = [ng; k] /\ shape irr_dir = [ng; k] /\
    shape irr_dif = [ng; k] /\
    forall i j, (i < ng)%nat -> (j < k)%nat ->
      let mu0 := vget (Geometry.mu0 geo) i in
      let Tgas := get2 twat i j * get2 tozo i j * get2 toxy i j in
      let A := 1 / (1 - vget (rho atm) (scen atm i)
                        * get2 alb (scen atm i) j) in
      get2 I0 i j = nth j (map snd kept) 0 * factor_of_day (vget (day geo) i)
      /\ get2 irr_glb i j = get2 I0 i j * mu0 * get2 tglb i j * Tgas * A
      /\ get2 irr_dir i j = get2 I0 i j * get2 tdir i j * Tgas
      /\ get2 irr_dif i j = get2 irr_glb i j - get2 irr_dir i j * mu0.
Proof.
  intros HT Hds Hdl Hms Hml Hng Ha Hn Hlo Hhi. cbv zeta.
  set (kept := filter (in_window lo hi) toa).
  set (wvln0 := map fst kept). set (irr0 := map snd kept).
  set (k := length wvln0).
  set (wvln_um := amap (fun x => 1e-3 * x) (asarray wvln0)).
  assert (Hk : length irr0 = k) by (unfold irr0, k, wvln0; now rewrite !length_map).
  assert (Hm1 : is_1d (Geometry.mu0 geo)).
  { split; [unfold ndim; rewrite Hms; cbn; lia |].
    unfold wf. rewrite Hms, Hml. cbn. lia. }
  assert (Hlm : len1 (Geometry.mu0 geo) = ng)
    by (unfold len1; rewrite Hms; cbn; lia).
  assert (HN : bdim n (len1 (Geometry.mu0 geo)) = Some ng).
  { rewrite Hlm. destruct Hn as [-> | ->];
      [apply bdim_1_l | apply bdim_same]. }
  assert (Hw1 : is_1d (asarray wvln0)) by apply asarray_1d.
  assert (Hw2 : is_1d wvln_um) by (split; [cbn; lia | unfold wf; cbn;
    rewrite length_map; lia]).
  assert (Hl1 : len1 (asarray wvln0) = k) by apply len1_asarray.
  assert (Hl2 : len1 wvln_um = k) by apply (len1_asarray wvln0).
  destruct (scale_toa_grid geo irr0 ng Hds Hdl Hng) as (gs & _ & _ & _ & EI).
  rewrite Hk in EI.
  destruct (mixture_with_albedo atm wvln_um (Geometry.mu0 geo) cp n ng
              Ha Hw2 Hm1 HN) as (TG & TD & TF & AL & Emix).
  pose proof (trn_water_eq T atm (asarray wvln0) (Geometry.mu0 geo) n ng
                HT Ha Hw1 Hm1 HN) as Ewat.
  pose proof (trn_ozone_eq T atm (asarray wvln0) (Geometry.mu0 geo) n ng
                HT Ha Hw1 Hm1 HN) as Eozo.
  pose proof (trn_oxygen_eq T atm (asarray wvln0) (Geometry.mu0 geo) n ng
                HT Ha Hw1 Hm1 HN) as Eoxy.
  rewrite Hl2 in Emix. rewrite Hl1 in Ewat, Eozo, Eoxy. rewrite Hlm in Eoxy.
  match type of Ewat with _ = Ok (mat _ _ ?F) => set (TW := F) in Ewat end.
  match type of Eozo with _ = Ok (mat _ _ ?F) => set (TO := F) in Eozo end.
  match type of Eoxy with _ = Ok (mat _ _ ?F) => set (TX := F) in Eoxy end.
  destruct (atm_ok_fields atm n Ha) as (_ & Hrho & _).
  assert (Hmu : Geometry.mu0 geo = vec ng (vget (Geometry.mu0 geo)))
    by now apply vec_canon.
  set (rf := vget (rho atm)) in *. set (mf := vget (Geometry.mu0 geo)) in *.
  assert (Erad : exists G D F,
    radtran T geo atm toa th cp =
      Ok (mat ng k G, mat ng k D, mat ng k F, wvln0) /\
    forall i j, (i < ng)%nat -> (j < k)%nat ->
      G i j = nth j irr0 0 * factor_of_day (vget (day geo) i) * mf i
              * TG i j * (TW i j * TO i j * TX i j)
              * (1 / (1 - rf (bidx n i) * AL (bidx n i) j)) /\
      D i j = nth j irr0 0 * factor_of_day (vget (day geo) i) * TD i j
              * (TW i j * TO i j * TX i j) /\
      F i j = G i j - D i j * mf i).
  { unfold radtran. rewrite (window_eq th lo hi toa Hlo Hhi).
    fold kept. fold wvln0. fold irr0. cbn [bind]. fold wvln_um.
    rewrite EI. cbn [bind]. rewrite Emix. cbn [bind unpack4].
    rewrite Ewat, Eozo, Eoxy. cbn [bind].
    rewrite Hrho, Hmu.
    rewrite Hlm in HN. np_eval_in HN.
    do 3 eexists. split; [reflexivity |].
    intros i j Hi Hj. cbv beta.
    rewrite ?bidx_1, ?(bidx_id ng i Hi), ?(bidx_id k j Hj), ?bidx_idem.
    repeat split; reflexivity. }
  destruct Erad as (G & D & F & Erad & HGDF).
  do 11 eexists. split; [exact Erad |]. split; [exact EI |].
  split; [exact Emix |]. split; [exact Ewat |]. split; [exact Eozo |].
  split; [exact Eoxy |].
  split; [reflexivity |]. split; [reflexivity |]. split; [reflexivity |].
  intros i j Hi Hj. cbv zeta.
  assert (Hs : (scen atm i < n)%nat).
  { unfold scen. rewrite (nrows_ok atm n Ha).
    rewrite Hlm in HN. now destruct (bidx_lt _ _ _ i HN Hi). }
  rewrite !get2_mat by assumption.
  destruct (HGDF i j Hi Hj) as (EG & ED & EF).
  unfold scen. rewrite (nrows_ok atm n Ha).
  split; [reflexivity |]. split; [exact EG |]. split; [exact ED | exact EF].
Qed.

Lemma scale_toa_single (geo : Geometry) (irr0 : list R) :
  wf (day geo) -> shape (day geo) = [] \/ shape (day geo) = [1%nat] ->
  scale_toa geo irr0 = Raise IndexError.
Proof.
  intros Hwf Hs.
  destruct (geometric_factor_data geo true Hwf) as (gs & Es & _ & Ss).
  unfold scale_toa. rewrite Es. cbn [bind]. unfold colon_none.
  rewrite Ss. destruct Hs as [-> | ->]; reflexivity.
Qed.

(** The inputs on which the pipeline returns, among valid ones. *)
Lemma radtran_domain (T : ndarray R) (geo : Geometry) (atm : Atmosphere)
    (toa : list (R * R)) (th : list R) (cp : bool) (lo hi : R)
    (s : list nat) (n : nat) :
  shape (day geo) = s -> shape (Geometry.mu0 geo) = s ->
  wf (day geo) -> (length s <= 1)%nat ->
  atm_ok atm n -> getitem th 0 = Ok lo -> getitem th 1 = Ok hi ->
  (exists ng, s = [ng] /\ ng <> 1%nat /\ (n = 1%nat \/ n = ng)) \/
  radtran T geo atm toa th cp = Raise IndexError.
Proof.
  intros Hds Hms Hwf Hls Ha Hlo Hhi.
  assert (Hscale : forall e,
            scale_toa geo (map snd (filter (in_window lo hi) toa)) = Raise e ->
            radtran T geo atm toa th cp = Raise e).
  { intros e E. unfold radtran. rewrite (window_eq th lo hi toa Hlo Hhi).
    cbn [bind]. now rewrite E. }
  destruct s as [| d [| ? ?]]; [| | cbn in Hls; lia].
  - right. apply Hscale, scale_toa_single; auto.
  - destruct (Nat.eq_dec d 1) as [-> | Hd].
    { right. apply Hscale, scale_toa_single; auto. }
    destruct (Nat.eq_dec n 1) as [Hn1 | Hn1]; [left; eauto |].
    destruct (Nat.eq_dec n d) as [Hnd | Hnd]; [left; eauto |].
    right.
    assert (Hdl : length (data (day geo)) = d)
      by (unfold wf in Hwf; rewrite Hwf, Hds; cbn; lia).
    destruct (scale_toa_grid geo (map snd (filter (in_window lo hi) toa)) d
                Hds Hdl Hd) as (gs & _ & _ & _ & EI).
    destruct (AtmosphereClaims.mixture_raises atm
                (amap (fun x => 1e-3 * x)
                      (asarray (map fst (filter (in_window lo hi) toa))))
                (Geometry.mu0 geo) true n d (nscen_ok atm n Ha) Hn1 Hms Hd
                ltac:(congruence)) as (_ & _ & Ex).
    unfold radtran. rewrite (window_eq th lo hi toa Hlo Hhi). cbn [bind].
    rewrite EI. cbn [bind]. now rewrite Ex.
Qed.

(** C1.  For a valid Geometry (fields of one 0- or 1-d shape [s]), a valid
    Atmosphere, a TOA table and a window, the irradiances returned by
    [radtran] are [Iglb = I0 mu0 Tglb Tgas A] with
    [A = 1 / (1 - rho albedo)], [Idir = I0 Tdir Tgas] and
    [Idif = Iglb - Idir mu0], entry by entry, where [I0] is the windowed TOA
    irradiance scaled by the geometric factor, [Tglb], [Tdir] and the albedo
    come from [trn_mixture] with [return_albedo] true, and [Tgas] is the
    product of the three gas transmittances.  The pipeline returns exactly
    for a Geometry of [ng <> 1] scenarios in 1-d fields and an Atmosphere of
    one or [ng] scenarios. *)
Theorem radtran_irradiance (T : ndarray R) (geo : Geometry) (atm : Atmosphere)
    (toa : list (R * R)) (th : list R) (cp : bool) (lo hi : R)
    (s : list nat) (n : nat) :
  abscoef_ok T ->
  shape (day geo) = s -> shape (Geometry.mu0 geo) = s ->
  wf (day geo) -> wf (Geometry.mu0 geo) -> (length s <= 1)%nat ->
  atm_ok atm n ->
  getitem th 0 = Ok lo -> getitem th 1 = Ok hi ->
  let kept := filter (in_window lo hi) toa in
  let wvln0 := map fst kept in
  let k := length wvln0 in
  let wvln_um := amap (fun x => 1e-3 * x) (asarray wvln0) in
  ((exists out, radtran T geo atm toa th cp = Ok out) <->
   (exists ng, s = [ng] /\ ng <> 1%nat /\ (n = 1%nat \/ n = ng))) /\
  forall irr_glb irr_dir irr_dif wv,
    radtran T geo atm toa th cp = Ok (irr_glb, irr_dir, irr_dif, wv) ->
    wv = wvln0 /\
    exists ng I0 tglb tdir tdif alb twat tozo toxy,
      s = [ng] /\
      scale_toa geo (map snd kept) = Ok I0 /\
      trn_mixture atm wvln_um (Geometry.mu0 geo) true cp
        = Ok [PyArr tglb; PyArr tdir; PyArr tdif; PyArr alb] /\
      trn_water T atm (asarray wvln0) (Geometry.mu0 geo) = Ok twat /\
      trn_ozone T atm (asarray wvln0) (Geometry.mu0 geo) = Ok tozo /\
      trn_oxygen T atm (asarray wvln0) (Geometry.mu0 geo) = Ok toxy /\
      shape irr_glb = [ng; k] /\ shape irr_dir = [ng; k] /\
      shape irr_dif = [ng; k] /\
      forall i j, (i < ng)%nat -> (j < k)%nat ->
        let mu0 := vget (Geometry.mu0 geo) i in
        let Tgas := get2 twat i j * get2 tozo i j * get2 toxy i j in
        let A := 1 / (1 - vget (rho atm) (scen atm i)
                          * get2 alb (scen atm i) j) in
        get2 I0 i j
          = nth j (map snd kept) 0 * factor_of_day (vget (day geo) i)
        /\ get2 irr_glb i j = get2 I0 i j * mu0 * get2 tglb i j * Tgas * A
        /\ get2 irr_dir i j = get2 I0 i j * get2 tdir i j * Tgas
        /\ get2 irr_dif i j = get2 irr_glb i j - get2 irr_dir i j * mu0.
Proof.
  intros HT Hds Hms Hwd Hwm Hls Ha Hlo Hhi. cbv zeta.
  assert (Hret : forall ng, s = [ng] -> ng <> 1%nat -> n = 1%nat \/ n = ng ->
            shape (day geo) = [ng] /\ length (data (day geo)) = ng /\
            shape (Geometry.mu0 geo) = [ng] /\
            length (data (Geometry.mu0 geo)) = ng).
  { intros ng -> _ _. unfold wf in Hwd, Hwm. rewrite Hds in Hwd.
    rewrite Hms in Hwm. cbn in Hwd, Hwm. repeat split; auto; lia. }
  pose proof (radtran_domain T geo atm toa th cp lo hi s n
                Hds Hms Hwd Hls Ha Hlo Hhi) as Hdom.
  split.
  - split.
    + intros (out & E). destruct Hdom as [H | H]; [exact H |].
      rewrite H in E. discriminate E.
    + intros (ng & Hs & Hng & Hn).
      destruct (Hret ng Hs Hng Hn) as (H1 & H2 & H3 & H4).
      destruct (radtran_returns T geo atm toa th cp lo hi ng n
                  HT H1 H2 H3 H4 Hng Ha Hn Hlo Hhi)
        as (g1 & g2 & g3 & ? & ? & ? & ? & ? & ? & ? & ? & E & _).
      eexists. exact E.
  - intros irr_glb irr_dir irr_dif wv E.
    destruct Hdom as [(ng & Hs & Hng & Hn) | H];
      [| rewrite H in E; discriminate E].
    destruct (Hret ng Hs Hng Hn) as (H1 & H2 & H3 & H4).
    destruct (radtran_returns T geo atm toa th cp lo hi ng n
                HT H1 H2 H3 H4 Hng Ha Hn Hlo Hhi)
      as (g1 & g2 & g3 & I0 & tglb & tdir & tdif & alb & twat & tozo & toxy
          & E' & Rest).
    rewrite E' in E. injection E as <- <- <- <-.
    split; [reflexivity |].
    exists ng, I0, tglb, tdir, tdif, alb, twat, tozo, toxy.
    split; [exact Hs | exact Rest].
Qed.

Lemma radtran_irradiance_witness :
  exists out,
    radtran table_small geo_two atm_one toa_small [300; 2600] true = Ok out.
Proof.
  destruct (radtran_irradiance table_small geo_two atm_one toa_small
              [300; 2600] true 300 2600 [2%nat] 1
              table_small_ok eq_refl eq_refl eq_refl eq_refl
              (le_n 1) atm_one_ok eq_refl eq_refl) as (Hiff & _).
  apply Hiff. exists 2%nat.
  split; [reflexivity |]. split; [discriminate | left; reflexivity].
Defined.

End PipelineClaims.

(* ================================================================== *)
(** * Part III: further properties of the code *)
(* ================================================================== *)

(** ** Checks of the constructors *)

Lemma Rltb_true_iff (x y : R) : Rltb x y = true <-> x < y.
Proof. unfold Rltb. destruct (Rlt_dec x y); split; intros; easy. Qed.

Lemma Rltb_false_iff (x y : R) : Rltb x y = false <-> y <= x.
Proof.
  unfold Rltb. destruct (Rlt_dec x y); split; intros; try easy; lra.
Qed.

Lemma any_false_iff (c : R -> bool) (a : ndarray R) :
  any c a = false <-> forall x, In x (data a) -> c x = false.
Proof.
  unfold any. split.
  - intros H x Hx. destruct (c x) eqn:E; [| reflexivity].
    assert (existsb c (data a) = true) by (apply existsb_exists; eauto).
    congruence.
  - intros H. destruct (existsb c (data a)) eqn:E; [| reflexivity].
    apply existsb_exists in E. destruct E as (x & Hx & Hc).
    rewrite (H x Hx) in Hc. discriminate.
Qed.

Lemma any_lt_false (f : R -> R) (b : R) (a : ndarray R) :
  any (fun x => Rltb b (f x)) a = false <-> all_elems (fun x => f x <= b) a.
Proof.
  rewrite any_false_iff. unfold all_elems. split; intros H x Hx.
  - now apply Rltb_false_iff, H.
  - now apply Rltb_false_iff, H.
Qed.

Lemma any_gt_false (f : R -> R) (b : R) (a : ndarray R) :
  any (fun x => Rltb (f x) b) a = false <-> all_elems (fun x => b <= f x) a.
Proof.
  rewrite any_false_iff. unfold all_elems. split; intros H x Hx.
  - now apply Rltb_false_iff, H.
  - now apply Rltb_false_iff, H.
Qed.

Lemma set_of_shapes_const (items : list (ndarray R)) (s : list nat) :
  items <> [] -> same_shape items s -> set_of_shapes items = [s].
Proof.
  unfold set_of_shapes, same_shape.
  induction items as [| x l IH]; [congruence |]. intros _ H.
  cbn [map nodup].
  assert (Hx : shape x = s) by (apply H; now left).
  destruct l as [| y l'].
  - cbn. now rewrite Hx.
  - assert (IHl : nodup (list_eq_dec Nat.eq_dec) (map shape (y :: l')) = [s])
      by (apply IH; [discriminate | intros z Hz; apply H; now right]).
    destruct (in_dec (list_eq_dec Nat.eq_dec) (shape x) (map shape (y :: l')))
      as [_ | Hn]; [exact IHl |].
    exfalso. apply Hn. rewrite Hx. cbn [map]. left. apply H. right. now left.
Qed.

(** The two shape checks pass exactly on consistent arguments. *)
Lemma shape_checks (items : list (ndarray R)) :
  items <> [] ->
  (consistent items <->
   (1 <? length (set_of_shapes items))%nat = false /\
   (1 <? length (hd [] (set_of_shapes items)))%nat = false).
Proof.
  intros Hne. split.
  - intros (s & Hs & Hl). rewrite (set_of_shapes_const items s Hne Hs).
    cbn [length hd]. split; [reflexivity |]. now apply Nat.ltb_ge.
  - intros (H1 & H2). exists (hd [] (set_of_shapes items)). split.
    + intros x Hx. now apply set_of_shapes_single.
    + now apply Nat.ltb_ge.
Qed.

Lemma shape_checks_fail (items : list (ndarray R)) (A : Type)
    (k : result A) :
  items <> [] -> ~ consistent items ->
  (if (1 <? length (set_of_shapes items))%nat then Raise AttributeError
   else if (1 <? length (hd [] (set_of_shapes items)))%nat
        then Raise AttributeError else k) = Raise AttributeError.
Proof.
  intros Hne Hn.
  destruct (1 <? length (set_of_shapes items))%nat eqn:E1; [reflexivity |].
  destruct (1 <? length (hd [] (set_of_shapes items)))%nat eqn:E2;
    [reflexivity |].
  exfalso. apply Hn. apply shape_checks; auto.
Qed.

(** ** Geometry: construction *)

Module GeometryMore.

Import Geometry GeometryFacts.

Lemma Rabs_le_bounds (x b : R) : Rabs x <= b -> - b <= x <= b.
Proof. unfold Rabs. destruct (Rcase_abs x); lra. Qed.

Lemma amap_id (a : ndarray R) : amap (fun x => x) a = a.
Proof. destruct a as [s l]. unfold amap; cbn. now rewrite map_id. Qed.

Lemma new_after_shapes (lat lon sza day : ndarray R) (mode : string)
    (f : R -> R) :
  consistent [lat; lon; sza; day] -> angle_conv mode = Some f ->
  new lat lon sza day mode =
  if any (fun x => Rltb (PI / 2) (Rabs x)) (amap f lat)
  then Raise ValueError else
  if any (fun x => Rltb PI (Rabs x)) (amap f lon) then Raise ValueError else
  if any (fun x => Rltb (PI / 2) (Rabs (x - PI / 2))) (amap f sza)
  then Raise ValueError else
  if any (fun d => Rltb d 1) day || any (fun d => Rltb 366 d) day
  then Raise ValueError else
  Ok (mk day (amap f lat) (amap f lon) (amap f sza) (amap cos (amap f sza))).
Proof.
  intros Hc Hf. apply shape_checks in Hc; [| discriminate].
  destruct Hc as (H1 & H2). unfold new. rewrite H1, H2.
  unfold angle_conv in Hf.
  destruct (String.eqb mode "deg").
  - injection Hf as <-. reflexivity.
  - destruct (String.eqb mode "rad"); [| discriminate Hf].
    injection Hf as <-. rewrite !amap_id. reflexivity.
Qed.

Lemma range_checks (lat lon sza day : ndarray R) :
  geo_in_range lat lon sza day <->
  any (fun x => Rltb (PI / 2) (Rabs x)) lat = false /\
  any (fun x => Rltb PI (Rabs x)) lon = false /\
  any (fun x => Rltb (PI / 2) (Rabs (x - PI / 2))) sza = false /\
  any (fun d => Rltb d 1) day || any (fun d => Rltb 366 d) day = false.
Proof.
  unfold geo_in_range.
  rewrite (any_lt_false Rabs (PI / 2) lat), (any_lt_false Rabs PI lon).
  rewrite (any_lt_false (fun x => Rabs (x - PI / 2)) (PI / 2) sza).
  rewrite orb_false_iff.
  rewrite (any_gt_false (fun d => d) 1 day), (any_lt_false (fun d => d) 366 day).
  unfold all_elems. split.
  - intros (A & B & C & D). repeat split; auto; intros x Hx; now apply D.
  - intros (A & B & C & D1 & D2). repeat split; auto.
Qed.

Lemma new_inconsistent (lat lon sza day : ndarray R) (mode : string) :
  ~ consistent [lat; lon; sza; day] ->
  new lat lon sza day mode = Raise AttributeError.
Proof.
  intros Hn. unfold new. apply shape_checks_fail; [discriminate | exact Hn].
Qed.

Lemma new_bad_mode (lat lon sza day : ndarray R) (mode : string) :
  consistent [lat; lon; sza; day] -> angle_conv mode = None ->
  new lat lon sza day mode = Raise ValueError.
Proof.
  intros Hc Hf. apply shape_checks in Hc; [| discriminate].
  destruct Hc as (H1 & H2).
  unfold new. rewrite H1, H2. unfold angle_conv in Hf.
  destruct (String.eqb mode "deg"); [discriminate Hf |].
  destruct (String.eqb mode "rad"); [discriminate Hf |]. reflexivity.
Qed.

(** X1.  [Geometry.__new__] raises [AttributeError] exactly when its four
    arguments do not share one 0- or 1-dimensional shape, whatever their
    values and the mode. *)
Theorem geometry_shape_error (lat lon sza day : ndarray R) (mode : string) :
  new lat lon sza day mode = Raise AttributeError <->
  ~ consistent [lat; lon; sza; day].
Proof.
  split.
  - intros H Hc. destruct (angle_conv mode) as [f |] eqn:Hf.
    + rewrite (new_after_shapes lat lon sza day mode f Hc Hf) in H.
      repeat match type of H with
             | (if ?c then _ else _) = _ => destruct c; [discriminate H |]
             end.
      discriminate H.
    + rewrite (new_bad_mode lat lon sza day mode Hc Hf) in H.
      discriminate H.
  - apply new_inconsistent.
Qed.

(** X2.  On arguments of one 0- or 1-d shape, [Geometry.__new__] raises
    [ValueError] exactly when the mode is neither "deg" nor "rad" or a value,
    in radians, lies outside its range: [|lat| <= pi/2], [|lon| <= pi],
    [0 <= sza <= pi] (as [|sza - pi/2| <= pi/2]), [1 <= day <= 366]. *)
Theorem geometry_value_error (lat lon sza day : ndarray R) (mode : string) :
  consistent [lat; lon; sza; day] ->
  (new lat lon sza day mode = Raise ValueError <->
   ~ exists f, angle_conv mode = Some f /\
               geo_in_range (amap f lat) (amap f lon) (amap f sza) day).
Proof.
  intros Hc. destruct (angle_conv mode) as [f |] eqn:Hf.
  - rewrite (new_after_shapes lat lon sza day mode f Hc Hf).
    pose proof (range_checks (amap f lat) (amap f lon) (amap f sza) day) as R.
    split.
    + intros H (f' & [= <-] & Hr). apply R in Hr.
      destruct Hr as (E1 & E2 & E3 & E4).
      rewrite E1, E2, E3, E4 in H. discriminate H.
    + intros Hn.
      destruct (any _ (amap f lat)) eqn:E1; [reflexivity |].
      destruct (any _ (amap f lon)) eqn:E2; [reflexivity |].
      destruct (any _ (amap f sza)) eqn:E3; [reflexivity |].
      destruct (any _ day || any _ day) eqn:E4; [reflexivity |].
      exfalso. apply Hn. exists f. split; [reflexivity |]. apply R. auto.
  - split; [intros _ (f & Hf' & _); discriminate Hf' |]. intros _.
    now apply new_bad_mode.
Qed.

Lemma geometry_value_error_witness :
  new (scalar 0) (scalar 0) (scalar 0) (scalar 1) "grad" = Raise ValueError.
Proof.
  apply (geometry_value_error (scalar 0) (scalar 0) (scalar 0) (scalar 1)
           "grad").
  - exists []. split; [| cbn; lia].
    intros x Hx. cbn in Hx. intuition; subst; reflexivity.
  - intros (f & Hf & _). discriminate Hf.
Defined.

Lemma new_ok_inv (lat lon sza day : ndarray R) (mode : string)
    (geo : Geometry) :
  new lat lon sza day mode = Ok geo ->
  exists f,
    angle_conv mode = Some f /\
    geo = mk day (amap f lat) (amap f lon) (amap f sza)
             (amap cos (amap f sza)) /\
    geo_in_range (amap f lat) (amap f lon) (amap f sza) day.
Proof.
  intros H.
  assert (Hc : consistent [lat; lon; sza; day]).
  { destruct (Classical_Prop.classic (consistent [lat; lon; sza; day]))
      as [Hc | Hn]; [exact Hc |].
    rewrite (new_inconsistent lat lon sza day mode Hn) in H.
    discriminate H. }
  destruct (angle_conv mode) as [f |] eqn:Hf.
  2:{ rewrite (new_bad_mode lat lon sza day mode Hc Hf) in H.
      discriminate H. }
  rewrite (new_after_shapes lat lon sza day mode f Hc Hf) in H.
  destruct (any _ (amap f lat)) eqn:E1; [discriminate H |].
  destruct (any _ (amap f lon)) eqn:E2; [discriminate H |].
  destruct (any _ (amap f sza)) eqn:E3; [discriminate H |].
  destruct (any _ day || any _ day) eqn:E4; [discriminate H |].
  injection H as <-.
  exists f. split; [reflexivity |]. split; [reflexivity |].
  apply range_checks; auto.
Qed.

(** X3.  A constructed Geometry stores the day as given and the angles in
    radians, with [mu0 = cos sza] entry by entry; its values lie in their
    ranges ([|lat| <= pi/2], [|lon| <= pi], [0 <= sza <= pi],
    [1 <= day <= 366], [-1 <= mu0 <= 1]). *)
Theorem geometry_invariant (lat lon sza day : ndarray R) (mode : string)
    (geo : Geometry) :
  new lat lon sza day mode = Ok geo ->
  exists f,
    angle_conv mode = Some f /\
    geo = mk day (amap f lat) (amap f lon) (amap f sza)
             (amap cos (amap f sza)) /\
    data (mu0 geo) = map cos (data (Geometry.sza geo)) /\
    all_elems (fun x => - (PI / 2) <= x <= PI / 2) (Geometry.lat geo) /\
    all_elems (fun x => - PI <= x <= PI) (Geometry.lon geo) /\
    all_elems (fun x => 0 <= x <= PI) (Geometry.sza geo) /\
    all_elems (fun d => 1 <= d <= 366) (Geometry.day geo) /\
    all_elems (fun x => -1 <= x <= 1) (mu0 geo).
Proof.
  intros H.
  destruct (new_ok_inv lat lon sza day mode geo H)
    as (f & Hf & -> & R1 & R2 & R3 & R4).
  exists f. split; [exact Hf |]. split; [reflexivity |].
  cbn [mu0 Geometry.sza Geometry.lat Geometry.lon Geometry.day].
  split; [reflexivity |].
  split. { intros x Hx. apply R1 in Hx. cbv beta in Hx.
           apply Rabs_le_bounds in Hx. lra. }
  split. { intros x Hx. apply R2 in Hx. cbv beta in Hx.
           apply Rabs_le_bounds in Hx. lra. }
  split. { intros x Hx. apply R3 in Hx. cbv beta in Hx.
           apply Rabs_le_bounds in Hx. lra. }
  split; [exact R4 |].
  intros x Hx. cbn [amap data] in Hx. apply in_map_iff in Hx.
  destruct Hx as (z & <- & _). pose proof (COS_bound z). lra.
Qed.

Lemma geometry_invariant_witness :
  exists f,
    angle_conv "rad" = Some f /\
    data (mu0 geo_two) = map cos (data (Geometry.sza geo_two)) /\
    all_elems (fun x => -1 <= x <= 1) (mu0 geo_two).
Proof.
  destruct (geometry_invariant (asarray [0; 0]) (asarray [0; 0])
              (asarray [0; 0]) (asarray [1; 152]) "rad" geo_two
              GeometryExamples.new_geo_two)
    as (f & Hf & _ & Hm & _ & _ & _ & _ & Hb).
  exists f. split; [exact Hf |]. split; [exact Hm | exact Hb].
Defined.

(** X4.  Degrees and radians agree: constructing from angles in degrees is
    constructing from their values in radians. *)
Theorem geometry_deg_rad (lat lon sza day : ndarray R) :
  new lat lon sza day "deg" =
  new (amap radians lat) (amap radians lon) (amap radians sza) day "rad".
Proof.
  unfold new.
  change (set_of_shapes [amap radians lat; amap radians lon;
                         amap radians sza; day])
    with (set_of_shapes [lat; lon; sza; day]).
  reflexivity.
Qed.

(** X5.  The day angle of a constructed Geometry lies in [[0, 2 pi]]. *)
Theorem day_angle_range (lat lon sza day : ndarray R) (mode : string)
    (geo : Geometry) :
  new lat lon sza day mode = Ok geo ->
  all_elems (fun t => 0 <= t <= 2 * PI) (day_angle geo).
Proof.
  intros H.
  destruct (new_ok_inv lat lon sza day mode geo H)
    as (f & _ & -> & _ & _ & _ & R4).
  intros t Ht. unfold day_angle in Ht. cbn [Geometry.day amap data] in Ht.
  apply in_map_iff in Ht. destruct Ht as (d & <- & Hd).
  apply R4 in Hd. cbv beta in Hd. pose proof PI_RGT_0. split.
  - apply Rmult_le_pos; [| lra]. apply Rmult_le_pos; lra.
  - assert (2 * PI * (d - 1) <= 2 * PI * 365)
      by (apply Rmult_le_compat_l; lra).
    lra.
Qed.

Lemma day_angle_range_witness :
  all_elems (fun t => 0 <= t <= 2 * PI) (day_angle geo_two).
Proof.
  apply (day_angle_range (asarray [0; 0]) (asarray [0; 0]) (asarray [0; 0])
           (asarray [1; 152]) "rad" geo_two GeometryExamples.new_geo_two).
Defined.

Lemma fourier_periodic (t : R) : fourier (t + 2 * PI) = fourier t.
Proof.
  unfold fourier.
  replace ((t + 2 * PI) * 2) with (t * 2 + 2 * INR 2 * PI)
    by (simpl INR; lra).
  rewrite cos_period, sin_period.
  replace (t + 2 * PI) with (t + 2 * INR 1 * PI) by (simpl INR; lra).
  rewrite cos_period, sin_period. reflexivity.
Qed.

Lemma factor_of_day_periodic (d : R) :
  factor_of_day (d + 365) = factor_of_day d.
Proof.
  unfold factor_of_day.
  replace (2 * PI * (d + 365 - 1) / 365)
    with (2 * PI * (d - 1) / 365 + 2 * PI) by field.
  apply fourier_periodic.
Qed.

(** X6.  The geometric factor has period 365 in the day: shifting every day
    by 365 leaves the result unchanged (both forms). *)
Theorem geometric_factor_periodic (geo : Geometry) (squeeze : bool) :
  wf (Geometry.day geo) ->
  geometric_factor
    (mk (amap (fun d => d + 365) (Geometry.day geo)) (Geometry.lat geo)
        (Geometry.lon geo) (Geometry.sza geo) (mu0 geo)) squeeze
  = geometric_factor geo squeeze.
Proof.
  intros Hwf.
  set (geo' := mk (amap (fun d => d + 365) (Geometry.day geo))
                  (Geometry.lat geo) (Geometry.lon geo) (Geometry.sza geo)
                  (mu0 geo)).
  assert (Hwf' : wf (Geometry.day geo'))
    by (unfold wf in *; cbn; now rewrite length_map).
  destruct (geometric_factor_data geo squeeze Hwf) as (gf & E & D & S).
  destruct (geometric_factor_data geo' squeeze Hwf') as (gf' & E' & D' & S').
  rewrite E, E'. f_equal.
  destruct gf as [s l], gf' as [s' l']. cbn [shape data] in *.
  subst. f_equal. cbn [geo' Geometry.day amap data]. rewrite map_map.
  apply map_ext. intros d. apply factor_of_day_periodic.
Qed.

Lemma geometric_factor_periodic_witness :
  geometric_factor
    (mk (amap (fun d => d + 365) (Geometry.day geo_two))
        (Geometry.lat geo_two) (Geometry.lon geo_two) (Geometry.sza geo_two)
        (mu0 geo_two)) true
  = geometric_factor geo_two true.
Proof. apply (geometric_factor_periodic geo_two true). reflexivity. Defined.

(** X7.  For a constructed Geometry of [ngeo] scenarios the non-squeezed
    factor has shape [(1, ngeo, 1)], and the squeezed one is 0-dimensional
    for one scenario and of shape [(ngeo,)] otherwise. *)
Theorem geometric_factor_shape (lat lon sza day : ndarray R) (mode : string)
    (geo : Geometry) :
  new lat lon sza day mode = Ok geo -> wf day -> wf sza ->
  exists gn gs,
    geometric_factor geo false = Ok gn /\
    geometric_factor geo true = Ok gs /\
    shape gn = [1%nat; ngeo geo; 1%nat] /\
    length (data gn) = ngeo geo /\
    shape gs = (if (ngeo geo =? 1)%nat then [] else [ngeo geo]) /\
    data gs = data gn.
Proof.
  intros H Hd Hz.
  destruct (new_valid lat lon sza day mode geo H Hd Hz)
    as (s & Hs & Hm & Hl & Hw & _).
  destruct (geometric_factor_data geo false Hw) as (gn & En & Dn & Sn).
  destruct (geometric_factor_data geo true Hw) as (gs & Es & Ds & Ss).
  exists gn, gs. split; [exact En |]. split; [exact Es |].
  unfold wf in Hw. unfold ngeo. rewrite Hm.
  rewrite Dn, Ds, length_map, Hw, Sn, Ss, Hs.
  destruct s as [| d [| ? ?]]; [| | cbn in Hl; lia].
  - repeat split; reflexivity.
  - cbn [filter size fold_right]. rewrite Nat.mul_1_r.
    destruct (d =? 1)%nat; repeat split; reflexivity.
Qed.

Lemma geometric_factor_shape_witness :
  exists gn gs,
    geometric_factor geo_two false = Ok gn /\
    geometric_factor geo_two true = Ok gs /\
    shape gn = [1%nat; ngeo geo_two; 1%nat] /\
    shape gs = [2%nat].
Proof.
  destruct (geometric_factor_shape (asarray [0; 0]) (asarray [0; 0])
              (asarray [0; 0]) (asarray [1; 152]) "rad" geo_two
              GeometryExamples.new_geo_two eq_refl eq_refl)
    as (gn & gs & En & Es & Sn & _ & Ss & _).
  exists gn, gs. repeat split; assumption.
Defined.

End GeometryMore.

(** ** Atmosphere: construction *)

Module AtmosphereMore.

Import Atmosphere AtmosphereFacts.

Lemma any_atleast_1d (c : R -> bool) (a : ndarray R) :
  any c (atleast_1d a) = any c a.
Proof. unfold any, atleast_1d. now destruct (shape a). Qed.

Lemma nonneg_check (a : ndarray R) :
  any (fun x => Rltb x 0) a = false <-> all_elems (fun x => 0 <= x) a.
Proof. apply (any_gt_false (fun x => x) 0 a). Qed.

Lemma unit_check (a : ndarray R) :
  any (fun x => Rltb x 0) a || any (fun x => Rltb 1 x) a = false <->
  all_elems (fun x => 0 <= x <= 1) a.
Proof.
  rewrite orb_false_iff, nonneg_check, (any_lt_false (fun x => x) 1 a).
  unfold all_elems. split.
  - intros (A & B) x Hx. split; [now apply A | now apply B].
  - intros A. split; intros x Hx; now apply A.
Qed.

Lemma abs_check (a : ndarray R) :
  any (fun x => Rltb 1 (Rabs x)) a = false <->
  all_elems (fun x => Rabs x <= 1) a.
Proof. apply (any_lt_false Rabs 1 a). Qed.

(** Past the shape checks, the constructor either meets a value out of
    range or returns the record of its arguments. *)
Lemma new_cases (p rho o3 h2o alpha beta : ndarray R)
    (w0 g : option (ndarray R)) :
  consistent ([p; rho; o3; h2o; alpha; beta] ++ given [w0; g]) ->
  let s := hd [] (set_of_shapes ([p; rho; o3; h2o; alpha; beta]
                                 ++ given [w0; g])) in
  (new p rho o3 h2o alpha beta w0 g = Raise ValueError /\
   ~ atm_in_range p rho o3 h2o alpha beta w0 g) \/
  (atm_in_range p rho o3 h2o alpha beta w0 g /\
   new p rho o3 h2o alpha beta w0 g =
   Ok (mk (atleast_1d p) (atleast_1d rho) (atleast_1d o3) (atleast_1d h2o)
          (atleast_1d alpha) (atleast_1d beta)
          (atleast_1d (match w0 with
                       | Some x => x
                       | None => full s DEFAULT_W0
                       end))
          (atleast_1d (match g with
                       | Some x => x
                       | None => full s DEFAULT_G
                       end)))).
Proof.
  intros Hc. cbv zeta.
  apply shape_checks in Hc; [| discriminate]. destruct Hc as (H1 & H2).
  unfold new. rewrite H1, H2. rewrite !any_atleast_1d.
  unfold atm_in_range.
  destruct (any (fun x => Rltb x 0) p) eqn:Ep.
  { left. split; [reflexivity |]. intros (A & _).
    apply nonneg_check in A. congruence. }
  destruct (any (fun x => Rltb x 0) rho || any (fun x => Rltb 1 x) rho)
    eqn:Er.
  { left. split; [reflexivity |]. intros (_ & A & _).
    apply unit_check in A. congruence. }
  destruct (any (fun x => Rltb x 0) o3) eqn:Eo.
  { left. split; [reflexivity |]. intros (_ & _ & A & _).
    apply nonneg_check in A. congruence. }
  destruct (any (fun x => Rltb x 0) h2o) eqn:Eh.
  { left. split; [reflexivity |]. intros (_ & _ & _ & A & _).
    apply nonneg_check in A. congruence. }
  destruct (any (fun x => Rltb x 0) alpha) eqn:Ea.
  { left. split; [reflexivity |]. intros (_ & _ & _ & _ & A & _).
    apply nonneg_check in A. congruence. }
  destruct (any (fun x => Rltb x 0) beta) eqn:Eb.
  { left. split; [reflexivity |]. intros (_ & _ & _ & _ & _ & A & _).
    apply nonneg_check in A. congruence. }
  apply nonneg_check in Ep, Eo, Eh, Ea, Eb. apply unit_check in Er.
  assert (Hw : (exists w, w0 = Some w /\
                  any (fun x => Rltb x 0) w || any (fun x => Rltb 1 x) w
                  = true) \/
               (forall w, w0 = Some w -> all_elems (fun x => 0 <= x <= 1) w)).
  { destruct w0 as [w |]; [| right; discriminate].
    destruct (any (fun x => Rltb x 0) w || any (fun x => Rltb 1 x) w) eqn:E.
    - left. eauto.
    - right. intros w' [= <-]. now apply unit_check. }
  destruct Hw as [(w & -> & Ew) | Hw].
  { left. rewrite Ew. split; [reflexivity |].
    intros (_ & _ & _ & _ & _ & _ & A & _).
    specialize (A w eq_refl). apply unit_check in A. congruence. }
  assert (Hg : (exists v, g = Some v /\
                  any (fun x => Rltb 1 (Rabs x)) v = true) \/
               (forall v, g = Some v -> all_elems (fun x => Rabs x <= 1) v)).
  { destruct g as [v |]; [| right; discriminate].
    destruct (any (fun x => Rltb 1 (Rabs x)) v) eqn:E.
    - left. eauto.
    - right. intros v' [= <-]. now apply abs_check. }
  assert (Ew0 : match w0 with
                | Some w1 =>
                    if any (fun x => Rltb x 0) w1
                       || any (fun x => Rltb 1 x) w1
                    then Raise ValueError else Ok w1
                | None => Ok (full (hd [] (set_of_shapes
                                ([p; rho; o3; h2o; alpha; beta]
                                 ++ given [w0; g]))) DEFAULT_W0)
                end
                = Ok (match w0 with
                      | Some x => x
                      | None => full (hd [] (set_of_shapes
                                  ([p; rho; o3; h2o; alpha; beta]
                                   ++ given [w0; g]))) DEFAULT_W0
                      end)).
  { destruct w0 as [w |]; [| reflexivity].
    specialize (Hw w eq_refl). apply unit_check in Hw. now rewrite Hw. }
  rewrite Ew0. cbn [bind].
  destruct Hg as [(v & -> & Ev) | Hg].
  { left. rewrite Ev. cbn [bind]. split; [reflexivity |].
    intros (_ & _ & _ & _ & _ & _ & _ & A).
    specialize (A v eq_refl). apply abs_check in A. congruence. }
  right.
  split;
    [exact (conj Ep (conj Er (conj Eo (conj Eh (conj Ea
             (conj Eb (conj Hw Hg))))))) |].
  destruct g as [v |]; [| reflexivity].
  specialize (Hg v eq_refl). apply abs_check in Hg. now rewrite Hg.
Qed.

Lemma atm_new_inconsistent (p rho o3 h2o alpha beta : ndarray R)
    (w0 g : option (ndarray R)) :
  ~ consistent ([p; rho; o3; h2o; alpha; beta] ++ given [w0; g]) ->
  new p rho o3 h2o alpha beta w0 g = Raise AttributeError.
Proof.
  intros Hn. unfold new. cbv zeta.
  apply shape_checks_fail; [discriminate | exact Hn].
Qed.

(** X8.  [Atmosphere.__new__] raises [AttributeError] exactly when the
    arguments given (the six mandatory ones and those of [w0], [g] that are
    not omitted) do not share one 0- or 1-dimensional shape, whatever their
    values. *)
Theorem atmosphere_shape_error (p rho o3 h2o alpha beta : ndarray R)
    (w0 g : option (ndarray R)) :
  new p rho o3 h2o alpha beta w0 g = Raise AttributeError <->
  ~ consistent ([p; rho; o3; h2o; alpha; beta] ++ given [w0; g]).
Proof.
  split; [| apply atm_new_inconsistent].
  intros H Hc.
  destruct (new_cases p rho o3 h2o alpha beta w0 g Hc)
    as [(E & _) | (_ & E)]; rewrite E in H; discriminate H.
Qed.

(** X9.  On arguments of one 0- or 1-d shape, [Atmosphere.__new__] raises
    [ValueError] exactly when a value lies outside its range ([p], [o3],
    [h2o], [alpha], [beta] non-negative, [rho] and a given [w0] in
    [[0, 1]], a given [g] in [[-1, 1]]), and returns otherwise. *)
Theorem atmosphere_value_error (p rho o3 h2o alpha beta : ndarray R)
    (w0 g : option (ndarray R)) :
  consistent ([p; rho; o3; h2o; alpha; beta] ++ given [w0; g]) ->
  (new p rho o3 h2o alpha beta w0 g = Raise ValueError <->
   ~ atm_in_range p rho o3 h2o alpha beta w0 g) /\
  ((exists atm, new p rho o3 h2o alpha beta w0 g = Ok atm) <->
   atm_in_range p rho o3 h2o alpha beta w0 g).
Proof.
  intros Hc.
  destruct (new_cases p rho o3 h2o alpha beta w0 g Hc)
    as [(E & Hn) | (Hr & E)]; rewrite E; split; split; intros H.
  - exact Hn.
  - reflexivity.
  - destruct H as (atm & H). discriminate H.
  - contradiction.
  - discriminate H.
  - contradiction.
  - exact Hr.
  - eexists. reflexivity.
Qed.

Lemma atmosphere_value_error_witness :
  new (scalar 800) (scalar 1.5) (scalar 300) (scalar 0.4) (scalar 1.5)
      (scalar 0.05) None None = Raise ValueError.
Proof.
  assert (Hc : consistent ([scalar 800; scalar 1.5; scalar 300; scalar 0.4;
                            scalar 1.5; scalar 0.05] ++ given [None; None])).
  { exists []. split; [| cbn; lia].
    intros x Hx. cbn in Hx. intuition; subst; reflexivity. }
  apply (proj1 (atmosphere_value_error _ _ _ _ _ _ None None Hc)).
  intros (_ & Hr & _).
  assert (H : 0 <= 1.5 <= 1) by (apply (Hr 1.5); cbn; now left).
  lra.
Defined.

(** X10.  The values stored in a constructed Atmosphere lie in their
    ranges, defaults included: [p], [o3], [h2o], [alpha], [beta]
    non-negative, [rho] and [w0] in [[0, 1]], [g] in [[-1, 1]]. *)
Theorem atmosphere_ranges (p rho o3 h2o alpha beta : ndarray R)
    (w0 g : option (ndarray R)) (atm : Atmosphere) :
  new p rho o3 h2o alpha beta w0 g = Ok atm ->
  all_elems (fun x => 0 <= x) (Atmosphere.p atm) /\
  all_elems (fun x => 0 <= x <= 1) (Atmosphere.rho atm) /\
  all_elems (fun x => 0 <= x) (Atmosphere.o3 atm) /\
  all_elems (fun x => 0 <= x) (Atmosphere.h2o atm) /\
  all_elems (fun x => 0 <= x) (Atmosphere.alpha atm) /\
  all_elems (fun x => 0 <= x) (Atmosphere.beta atm) /\
  all_elems (fun x => 0 <= x <= 1) (Atmosphere.w0 atm) /\
  all_elems (fun x => -1 <= x <= 1) (Atmosphere.g atm).
Proof.
  intros H.
  assert (Hc : consistent ([p; rho; o3; h2o; alpha; beta] ++ given [w0; g])).
  { destruct (Classical_Prop.classic
                (consistent ([p; rho; o3; h2o; alpha; beta]
                             ++ given [w0; g]))) as [Hc | Hn];
      [exact Hc |].
    rewrite (atm_new_inconsistent _ _ _ _ _ _ _ _ Hn) in H. discriminate H. }
  destruct (new_cases p rho o3 h2o alpha beta w0 g Hc)
    as [(E & _) | (Hr & E)]; rewrite E in H; [discriminate H |].
  injection H as <-.
  destruct Hr as (Rp & Rr & Ro & Rh & Ra & Rb & Rw & Rg).
  assert (Hat : forall (P : R -> Prop) a,
            all_elems P a -> all_elems P (atleast_1d a)).
  { intros P a Ha x Hx. apply Ha. unfold atleast_1d in Hx.
    now destruct (shape a). }
  assert (Hfull : forall (P : R -> Prop) s v, P v -> all_elems P (full s v)).
  { intros P s v Hv x Hx. cbn in Hx. apply repeat_spec in Hx. now subst. }
  cbn [Atmosphere.p Atmosphere.rho Atmosphere.o3 Atmosphere.h2o
       Atmosphere.alpha Atmosphere.beta Atmosphere.w0 Atmosphere.g].
  repeat (split; [now apply Hat |]).
  split.
  - apply Hat. destruct w0 as [w |]; [now apply Rw |].
    apply Hfull. unfold DEFAULT_W0. lra.
  - apply Hat. destruct g as [v |].
    + intros x Hx. apply (Rg v eq_refl) in Hx. cbv beta in Hx.
      apply GeometryMore.Rabs_le_bounds in Hx. lra.
    + apply Hfull. unfold DEFAULT_G. lra.
Qed.

Lemma atmosphere_ranges_witness :
  all_elems (fun x => 0 <= x <= 1) (Atmosphere.w0 atm_one) /\
  all_elems (fun x => -1 <= x <= 1) (Atmosphere.g atm_one).
Proof.
  assert (E : new (scalar 800) (scalar 0.2) (scalar 300) (scalar 0.4)
                  (scalar 1.5) (scalar 0.05) None None = Ok atm_one).
  { unfold new.
    change (set_of_shapes ([scalar 800; scalar 0.2; scalar 300; scalar 0.4;
                            scalar 1.5; scalar 0.05] ++ given [None; None]))
      with [@nil nat].
    cbn [length hd Nat.ltb Nat.leb bind any existsb data scalar orb
         atleast_1d shape].
    rewrite !Rltb_false by lra. reflexivity. }
  destruct (atmosphere_ranges _ _ _ _ _ _ None None atm_one E)
    as (_ & _ & _ & _ & _ & _ & Hw & Hg).
  split; assumption.
Defined.

End AtmosphereMore.

(** ** Atmosphere: reading a table *)

Module AtmosphereFile.

Import Atmosphere AtmosphereFacts.

Lemma mat_canon (a : ndarray R) (n k : nat) :
  shape a = [n; k] -> length (data a) = (n * k)%nat -> a = mat n k (get2 a).
Proof.
  destruct a as [s l]. cbn [shape data]. intros -> Hl.
  unfold mat. f_equal.
  apply nth_ext with (d := 0) (d' := 0).
  - now rewrite length_map, length_seq.
  - intros idx Hidx. rewrite Hl in Hidx.
    rewrite nth_map_seq by assumption.
    unfold get2. cbn [shape data nth].
    assert (k <> 0%nat) by lia.
    f_equal. rewrite (Nat.div_mod_eq idx k) at 1. lia.
Qed.

Lemma transpose_mat (r c : nat) (F : nat -> nat -> R) :
  transpose (mat r c F) = mat c r (fun j i => F i j).
Proof.
  unfold transpose, mat. cbn [shape data rev app]. f_equal.
  cbn [size fold_right]. rewrite Nat.mul_1_r.
  apply map_ext_in. intros idx Hin. apply in_seq in Hin.
  destruct (split_index idx c r) as [Hj Hi]; [lia |].
  cbn [unravel rev app ravel_bc size fold_right].
  rewrite !Nat.mul_1_r, !Nat.div_1_r, !Nat.add_0_r.
  fold (bidx r (idx mod r)) (bidx c (idx / r)).
  rewrite !bidx_id by assumption.
  rewrite nth_map_seq by nia.
  now rewrite flat_div, flat_mod.
Qed.

Lemma unstack_mat (n k : nat) (F : nat -> nat -> R) :
  unstack (mat n k F) = Ok (map (fun i => vec k (F i)) (seq 0 n)).
Proof.
  unfold unstack, mat. cbn [shape data]. f_equal.
  apply map_ext_in. intros i Hin. apply in_seq in Hin.
  unfold vec. f_equal. cbn [size fold_right]. rewrite Nat.mul_1_r.
  apply nth_ext with (d := 0) (d' := 0).
  - rewrite length_firstn, length_skipn, !length_map, !length_seq. nia.
  - intros j Hj.
    rewrite length_firstn, length_skipn, length_map, length_seq in Hj.
    assert (Hjk : (j < k)%nat) by lia.
    rewrite nth_firstn. destruct (Nat.ltb_spec j k) as [_ | ?]; [| lia].
    rewrite nth_skipn, !nth_map_seq by nia.
    now rewrite flat_div, flat_mod.
Qed.

Lemma not_single_layout (A : Type) (n c : nat) (x y : A) :
  c <> 2%nat ->
  (if existsb (fun s => if list_eq_dec Nat.eq_dec [n; c] s
                        then true else false) [[3; 2]; [4; 2]]%nat
   then x else y) = y.
Proof.
  intros Hc. cbn [existsb].
  destruct (list_eq_dec Nat.eq_dec [n; c] [3; 2]%nat) as [E | _];
    [injection E; intros; contradiction |].
  destruct (list_eq_dec Nat.eq_dec [n; c] [4; 2]%nat) as [E | _];
    [injection E; intros; contradiction |].
  reflexivity.
Qed.

(** X11.  A table of [n] rows and 6 or 8 columns is read as [n] scenarios,
    one per row: [from_file] is the constructor applied to the columns, the
    last two being [w0] and [g] when there are 8.  When it returns, the
    Atmosphere has [n] scenarios and its mandatory fields are the first six
    columns. *)
Theorem from_file_columns (loaded : ndarray R) (n c : nat) :
  shape loaded = [n; c] -> wf loaded -> c = 6%nat \/ c = 8%nat ->
  from_file loaded =
    new (column loaded 0) (column loaded 1) (column loaded 2)
        (column loaded 3) (column loaded 4) (column loaded 5)
        (if (c =? 8)%nat then Some (column loaded 6) else None)
        (if (c =? 8)%nat then Some (column loaded 7) else None) /\
  forall atm, from_file loaded = Ok atm ->
    nscen atm = Ok n /\
    p atm = column loaded 0 /\ rho atm = column loaded 1 /\
    o3 atm = column loaded 2 /\ h2o atm = column loaded 3 /\
    alpha atm = column loaded 4 /\ beta atm = column loaded 5.
Proof.
  intros Hs Hwf Hc.
  assert (Hl : length (data loaded) = (n * c)%nat)
    by (unfold wf in Hwf; rewrite Hwf, Hs; cbn; lia).
  assert (E : from_file loaded =
    new (column loaded 0) (column loaded 1) (column loaded 2)
        (column loaded 3) (column loaded 4) (column loaded 5)
        (if (c =? 8)%nat then Some (column loaded 6) else None)
        (if (c =? 8)%nat then Some (column loaded 7) else None)).
  { unfold from_file, atleast_2d, column. rewrite Hs. cbn [hd].
    rewrite Hs. rewrite not_single_layout by (destruct Hc; lia).
    cbn [getitem nth_error bind].
    replace (existsb (Nat.eqb c) [6; 8]%nat) with true
      by (destruct Hc as [-> | ->]; reflexivity).
    cbn [bind]. rewrite (mat_canon loaded n c Hs Hl) at 1.
    rewrite transpose_mat, unstack_mat. cbn [bind].
    destruct Hc as [-> | ->]; reflexivity. }
  split; [exact E |].
  intros atm H. rewrite E in H.
  destruct (AtmosphereClaims.new_inv _ _ _ _ _ _ _ _ _ H) as (_ & _ & ->).
  unfold nscen, column. rewrite Hs. cbn.
  repeat split; reflexivity.
Qed.

Lemma from_file_columns_witness :
  exists atm,
    from_file (mk_ndarray [2; 6]%nat
                 [800; 0.2; 300; 0.4; 1.5; 0.05;
                  1013; 0.1; 250; 1; 1; 0.1]) = Ok atm /\
    nscen atm = Ok 2%nat.
Proof.
  set (t := mk_ndarray [2; 6]%nat
              [800; 0.2; 300; 0.4; 1.5; 0.05; 1013; 0.1; 250; 1; 1; 0.1]).
  destruct (from_file_columns t 2 6 eq_refl eq_refl (or_introl eq_refl))
    as (E & Hn).
  assert (Hc : consistent ([column t 0; column t 1; column t 2; column t 3;
                            column t 4; column t 5] ++ given [None; None])).
  { exists [2%nat]. split; [| cbn; lia].
    intros x Hx. cbn in Hx. intuition; subst; reflexivity. }
  destruct (AtmosphereMore.new_cases (column t 0) (column t 1) (column t 2)
              (column t 3) (column t 4) (column t 5) None None Hc)
    as [(_ & Hbad) | (_ & Eok)].
  - exfalso. apply Hbad. unfold atm_in_range, all_elems, column, get2; cbn.
    repeat split; try discriminate; intros;
      repeat match goal with
             | H : _ \/ _ |- _ => destruct H as [<- | H]
             | H : False |- _ => contradiction
             end; lra.
  - cbn [Nat.eqb] in E. rewrite Eok in E.
    eexists. split; [exact E |]. apply (Hn _ E).
Defined.

(** X12.  A table of 3 (or 4) rows and 2 columns is read as one scenario,
    row by row: [p rho / o3 h2o / alpha beta] (and [w0 g]), each value a
    scalar argument of the constructor. *)
Theorem from_file_single (loaded : ndarray R) (r : nat) :
  shape loaded = [r; 2%nat] -> wf loaded -> r = 3%nat \/ r = 4%nat ->
  from_file loaded =
    new (scalar (get2 loaded 0 0)) (scalar (get2 loaded 0 1))
        (scalar (get2 loaded 1 0)) (scalar (get2 loaded 1 1))
        (scalar (get2 loaded 2 0)) (scalar (get2 loaded 2 1))
        (if (r =? 4)%nat then Some (scalar (get2 loaded 3 0)) else None)
        (if (r =? 4)%nat then Some (scalar (get2 loaded 3 1)) else None).
Proof.
  destruct loaded as [s l]. unfold wf. cbn [shape data].
  intros -> Hl [-> | ->]; cbn in Hl.
  - do 6 (destruct l as [| ? l]; [discriminate Hl |]).
    destruct l; [| discriminate Hl].
    unfold from_file, atleast_2d. cbn [shape existsb].
    destruct (list_eq_dec Nat.eq_dec [3; 2]%nat [3; 2]%nat) as [_ | Hn];
      [| contradiction].
    reflexivity.
  - do 8 (destruct l as [| ? l]; [discriminate Hl |]).
    destruct l; [| discriminate Hl].
    unfold from_file, atleast_2d. cbn [shape existsb].
    destruct (list_eq_dec Nat.eq_dec [4; 2]%nat [3; 2]%nat) as [E | _];
      [discriminate E |].
    destruct (list_eq_dec Nat.eq_dec [4; 2]%nat [4; 2]%nat) as [_ | Hn];
      [| contradiction].
    reflexivity.
Qed.

Lemma from_file_single_witness :
  from_file (mk_ndarray [3; 2]%nat [800; 0.2; 300; 0.4; 1.5; 0.05])
  = Ok atm_one.
Proof.
  rewrite (from_file_single
             (mk_ndarray [3; 2]%nat [800; 0.2; 300; 0.4; 1.5; 0.05]) 3
             eq_refl eq_refl (or_introl eq_refl)).
  change (get2 (mk_ndarray [3; 2]%nat [800; 0.2; 300; 0.4; 1.5; 0.05]) 0 0)
    with 800.
  change (get2 (mk_ndarray [3; 2]%nat [800; 0.2; 300; 0.4; 1.5; 0.05]) 0 1)
    with 0.2.
  change (get2 (mk_ndarray [3; 2]%nat [800; 0.2; 300; 0.4; 1.5; 0.05]) 1 0)
    with 300.
  change (get2 (mk_ndarray [3; 2]%nat [800; 0.2; 300; 0.4; 1.5; 0.05]) 1 1)
    with 0.4.
  change (get2 (mk_ndarray [3; 2]%nat [800; 0.2; 300; 0.4; 1.5; 0.05]) 2 0)
    with 1.5.
  change (get2 (mk_ndarray [3; 2]%nat [800; 0.2; 300; 0.4; 1.5; 0.05]) 2 1)
    with 0.05.
  cbn [Nat.eqb]. unfold new.
  change (set_of_shapes ([scalar 800; scalar 0.2; scalar 300; scalar 0.4;
                          scalar 1.5; scalar 0.05] ++ given [None; None]))
    with [@nil nat].
  cbn [length hd Nat.ltb Nat.leb bind any existsb data scalar orb
       atleast_1d shape].
  rewrite !Rltb_false by lra. reflexivity.
Defined.

(** X13.  Any other layout is rejected: a table that is neither 3 x 2 nor
    4 x 2 and has neither 6 nor 8 columns makes [from_file] raise
    [ValueError] (a single value or a single line counts as one row). *)
Theorem from_file_format_error (loaded : ndarray R) (r c : nat) :
  shape (atleast_2d loaded) = [r; c] ->
  ~ (c = 2%nat /\ (r = 3%nat \/ r = 4%nat)) ->
  c <> 6%nat -> c <> 8%nat ->
  from_file loaded = Raise ValueError.
Proof.
  intros Hs Hn H6 H8. unfold from_file. rewrite Hs. cbn [existsb].
  destruct (list_eq_dec Nat.eq_dec [r; c] [3; 2]%nat) as [E | _];
    [injection E as -> ->; exfalso; apply Hn; auto |].
  destruct (list_eq_dec Nat.eq_dec [r; c] [4; 2]%nat) as [E | _];
    [injection E as -> ->; exfalso; apply Hn; auto |].
  cbn [orb getitem nth_error bind].
  destruct (Nat.eqb_spec c 6); [contradiction |].
  destruct (Nat.eqb_spec c 8); [contradiction |]. reflexivity.
Qed.

Lemma from_file_format_error_witness :
  from_file (asarray [800; 0.2; 300]) = Raise ValueError.
Proof.
  apply (from_file_format_error (asarray [800; 0.2; 300]) 1 3);
    [reflexivity | intros (E & _); discriminate E
    | discriminate | discriminate].
Defined.

End AtmosphereFile.

(** ** Optical depths and transmittances: the formulas the code computes *)

Module TransmittanceMore.

Import Atmosphere AtmosphereFacts OpticalDepth Transmittance.

Lemma float_power_pos (x y : R) :
  0 < x -> float_power x y = Rpower x y.
Proof.
  intros Hx. unfold float_power.
  destruct (Req_dec_T y 0) as [-> | _]; [now rewrite Rpower_O |].
  destruct (Req_dec_T x 0); [lra | reflexivity].
Qed.

(** X14.  [tau_aerosols] returns Angstrom's optical depth
    [beta / l ** alpha] for every scenario and wavelength -- for a positive
    wavelength, [beta * l ^ (- alpha)] -- and with [return_albedo] also
    [g' tau / (2 + g' tau) * (1 + exp (- g' tau))] with
    [g' = (1 - g) * w0]. *)
Theorem tau_aerosols_angstrom (a : Atmosphere) (wv : ndarray R) (n : nat) :
  atm_ok a n -> is_1d wv ->
  exists tau salb,
    tau_aerosols a wv false = Ok (PyArr tau) /\
    tau_aerosols a wv true = Ok (PyTuple [PyArr tau; PyArr salb]) /\
    shape tau = [n; len1 wv] /\ shape salb = [n; len1 wv] /\
    forall i j, (i < n)%nat -> (j < len1 wv)%nat ->
      let l := vget wv j in
      let t := vget (beta a) i / float_power l (vget (alpha a) i) in
      let g' := (1 - vget (g a) i) * vget (w0 a) i in
      get2 tau i j = t /\
      (0 < l -> get2 tau i j
                = vget (beta a) i * Rpower l (- vget (alpha a) i)) /\
      get2 salb i j = g' * t / (2 + g' * t) * (1 + exp (- g' * t)).
Proof.
  intros Ha Hw.
  pose proof (tau_aerosols_eq a wv false n Ha Hw) as E0.
  pose proof (tau_aerosols_eq a wv true n Ha Hw) as E1.
  cbv zeta in E0, E1.
  do 2 eexists. split; [exact E0 |]. split; [exact E1 |].
  split; [reflexivity |]. split; [reflexivity |].
  intros i j Hi Hj. cbv zeta. rewrite !get2_mat by assumption.
  split; [reflexivity |]. split; [| reflexivity].
  intros Hl. unfold angstrom. rewrite float_power_pos by assumption.
  now rewrite Rpower_Ropp.
Qed.

Lemma tau_aerosols_angstrom_witness :
  exists tau,
    tau_aerosols atm_two wv_half false = Ok (PyArr tau) /\
    shape tau = [2; 1]%nat.
Proof.
  destruct (tau_aerosols_angstrom atm_two wv_half 2
              TransmittanceClaims.atm_two_ok TransmittanceClaims.wv_half_1d)
    as (tau & salb & E & _ & S & _).
  exists tau. split; [exact E | exact S].
Defined.

Section Entries.

Variables (a : Atmosphere) (wv mu0 : ndarray R) (n N : nat).
Hypothesis Ha : atm_ok a n.
Hypothesis Hw : is_1d wv.
Hypothesis Hm : is_1d mu0.
Hypothesis HN : bdim n (len1 mu0) = Some N.

Lemma scen_lt (i : nat) : (i < N)%nat -> (scen a i < n)%nat.
Proof.
  intros Hi. unfold scen. rewrite (nrows_ok a n Ha).
  now destruct (bidx_lt _ _ _ i HN Hi).
Qed.

(** X15.  [trn_rayleigh] returns, for every scenario and wavelength, the
    direct transmittance [exp (- tau / mu0)] of the optical depth that
    [tau_rayleigh] returns, Sobolev's global transmittance
    [((2/3 + mu0) + (2/3 - mu0) Tdir) / (4/3 + tau)] and their difference as
    diffuse transmittance; with [return_albedo] the fourth item is the
    albedo array of [tau_rayleigh]. *)
Theorem trn_rayleigh_sobolev (ra : bool) :
  exists tr sr tglb tdir tdif,
    tau_rayleigh a wv true = Ok (PyTuple [PyArr tr; PyArr sr]) /\
    trn_rayleigh a wv mu0 ra =
      Ok ([PyArr tglb; PyArr tdir; PyArr tdif]
          ++ if ra then [PyArr sr] else []) /\
    shape tglb = [N; len1 wv] /\ shape tdir = [N; len1 wv] /\
    shape tdif = [N; len1 wv] /\
    forall i j, (i < N)%nat -> (j < len1 wv)%nat ->
      let tau := get2 tr (scen a i) j in
      let mu := mu0_at mu0 i in
      get2 tdir i j = exp (-1.0 * tau / mu) /\
      get2 tglb i j
        = ((2 / 3 + mu) + (2 / 3 - mu) * get2 tdir i j) / (4 / 3 + tau) /\
      get2 tdif i j = get2 tglb i j - get2 tdir i j.
Proof.
  pose proof (tau_rayleigh_eq a wv true n Ha Hw) as Et.
  pose proof (trn_rayleigh_eq a wv mu0 n N Ha Hw Hm HN ra) as Er.
  cbv zeta in Et.
  do 5 eexists. split; [exact Et |]. split; [exact Er |].
  split; [reflexivity |]. split; [reflexivity |]. split; [reflexivity |].
  intros i j Hi Hj. cbv zeta. pose proof (scen_lt i Hi) as Hs.
  rewrite !get2_mat by assumption.
  unfold sobolev, direct, tau_ray. repeat split; reflexivity.
Qed.

(** X16.  Without coupling, [trn_aerosols] returns the direct transmittance
    [exp (- tau / mu0)] of the optical depth that [tau_aerosols] returns,
    Ambartsumian's global transmittance
    [(1 - r0^2) Tdir^K / (1 - (r0 Tdir^K)^2)] with
    [K = sqrt ((1 - w0) (1 - w0 g))] and [r0 = (K - 1 + w0) / (K + 1 - w0)],
    and their difference as diffuse transmittance. *)
Theorem trn_aerosols_ambartsumian (ra : bool) :
  exists ta tglb tdir tdif salb,
    tau_aerosols a wv false = Ok (PyArr ta) /\
    trn_aerosols a wv mu0 ra false =
      Ok [PyArr tglb; PyArr tdir; PyArr tdif; salb] /\
    shape tglb = [N; len1 wv] /\ shape tdir = [N; len1 wv] /\
    shape tdif = [N; len1 wv] /\
    forall i j, (i < N)%nat -> (j < len1 wv)%nat ->
      let tau := get2 ta (scen a i) j in
      let w := vget (w0 a) (scen a i) in
      let K := sqrt ((1 - w) * (1 - w * vget (g a) (scen a i))) in
      let r0 := (K - 1 + w) / (K + 1 - w) in
      let tk := float_power (get2 tdir i j) K in
      get2 tdir i j = exp (-1.0 * tau / mu0_at mu0 i) /\
      get2 tglb i j = (1 - r0 ^ 2) * tk / (1 - (r0 * tk) ^ 2) /\
      get2 tdif i j = get2 tglb i j - get2 tdir i j.
Proof.
  pose proof (tau_aerosols_eq a wv false n Ha Hw) as Et.
  pose proof (trn_aerosols_plain_eq a wv mu0 n N Ha Hw Hm HN ra) as Er.
  cbv zeta in Et, Er.
  do 5 eexists. split; [exact Et |]. split; [exact Er |].
  split; [reflexivity |]. split; [reflexivity |]. split; [reflexivity |].
  intros i j Hi Hj. cbv zeta. pose proof (scen_lt i Hi) as Hs.
  rewrite !get2_mat by assumption.
  unfold ambartsumian, direct, tau_aer. repeat split; reflexivity.
Qed.

(** X17.  Coupling changes the global and diffuse transmittances only: the
    direct transmittance that [trn_mixture] returns is the same array with
    and without coupling (over the reals, where
    [exp x * exp y = exp (x + y)]). *)
Theorem direct_unaffected_by_coupling (ra : bool) :
  exists out_plain out_coupled tdir,
    trn_mixture a wv mu0 ra false = Ok out_plain /\
    trn_mixture a wv mu0 ra true = Ok out_coupled /\
    nth_error out_plain 1 = Some (PyArr tdir) /\
    nth_error out_coupled 1 = Some (PyArr tdir).
Proof.
  pose proof (trn_mixture_plain_eq a wv mu0 n N Ha Hw Hm HN ra) as Ep.
  pose proof (trn_mixture_coupled_eq a wv mu0 n N Ha Hw Hm HN ra) as Ec.
  rewrite (trn_aerosols_coupled_eq a wv mu0 n N Ha Hw Hm HN ra) in Ec.
  cbv zeta in Ep, Ec. cbn [bind firstn skipn app] in Ec.
  do 3 eexists. split; [exact Ep |]. split; [exact Ec |].
  cbn [app nth_error]. split; [reflexivity |].
  do 2 f_equal. apply mat_ext. intros i j Hi Hj.
  unfold direct. rewrite <- exp_plus. f_equal.
  unfold Rdiv. ring.
Qed.

(** X18.  [trn_mixture] returns three items without [return_albedo] and
    four with it, for both values of [coupling]; the transmittances have one
    row per broadcast scenario ([N]), the albedo one row per scenario of the
    Atmosphere ([n]). *)
Theorem trn_mixture_items (ra cp : bool) :
  exists tglb tdir tdif rest,
    trn_mixture a wv mu0 ra cp =
      Ok ([PyArr tglb; PyArr tdir; PyArr tdif] ++ rest) /\
    shape tglb = [N; len1 wv] /\ shape tdir = [N; len1 wv] /\
    shape tdif = [N; len1 wv] /\
    (if ra
     then exists salb, rest = [PyArr salb] /\ shape salb = [n; len1 wv]
     else rest = []).
Proof.
  pose proof (trn_mixture_plain_eq a wv mu0 n N Ha Hw Hm HN ra) as Ep.
  pose proof (trn_mixture_coupled_eq a wv mu0 n N Ha Hw Hm HN ra) as Ec.
  rewrite (trn_aerosols_coupled_eq a wv mu0 n N Ha Hw Hm HN ra) in Ec.
  cbv zeta in Ep, Ec. cbn [bind firstn skipn app] in Ec. cbn [app] in Ep.
  destruct cp, ra; do 4 eexists;
    (split; [first [exact Ec | exact Ep] |]);
    (split; [reflexivity |]); (split; [reflexivity |]);
    (split; [reflexivity |]);
    first [reflexivity | eexists; split; reflexivity].
Qed.

End Entries.

Lemma trn_rayleigh_sobolev_witness :
  atm_ok atm_one 1 /\ is_1d wv_half /\ is_1d mu_two /\
  bdim 1 (len1 mu_two) = Some 2%nat /\
  exists tglb tdir tdif,
    trn_rayleigh atm_one wv_half mu_two false =
      Ok [PyArr tglb; PyArr tdir; PyArr tdif] /\
    shape tglb = [2; 1]%nat.
Proof.
  split; [exact TransmittanceClaims.atm_one_ok |].
  split; [exact TransmittanceClaims.wv_half_1d |].
  split; [exact TransmittanceClaims.mu_two_1d |]. split; [reflexivity |].
  destruct (trn_rayleigh_sobolev atm_one wv_half mu_two 1 2
              TransmittanceClaims.atm_one_ok TransmittanceClaims.wv_half_1d
              TransmittanceClaims.mu_two_1d eq_refl false)
    as (tr & sr & tglb & tdir & tdif & _ & E & S & _).
  exists tglb, tdir, tdif. split; [exact E | exact S].
Defined.

Lemma trn_aerosols_ambartsumian_witness :
  atm_ok atm_one 1 /\ is_1d wv_half /\ is_1d mu_two /\
  bdim 1 (len1 mu_two) = Some 2%nat /\
  exists tglb tdir tdif salb,
    trn_aerosols atm_one wv_half mu_two false false =
      Ok [PyArr tglb; PyArr tdir; PyArr tdif; salb] /\
    shape tdir = [2; 1]%nat.
Proof.
  split; [exact TransmittanceClaims.atm_one_ok |].
  split; [exact TransmittanceClaims.wv_half_1d |].
  split; [exact TransmittanceClaims.mu_two_1d |]. split; [reflexivity |].
  destruct (trn_aerosols_ambartsumian atm_one wv_half mu_two 1 2
              TransmittanceClaims.atm_one_ok TransmittanceClaims.wv_half_1d
              TransmittanceClaims.mu_two_1d eq_refl false)
    as (ta & tglb & tdir & tdif & salb & _ & E & _ & S & _).
  exists tglb, tdir, tdif, salb. split; [exact E | exact S].
Defined.

Lemma direct_unaffected_by_coupling_witness :
  atm_ok atm_one 1 /\ is_1d wv_half /\ is_1d mu_two /\
  bdim 1 (len1 mu_two) = Some 2%nat /\
  exists out_plain out_coupled tdir,
    trn_mixture atm_one wv_half mu_two true false = Ok out_plain /\
    trn_mixture atm_one wv_half mu_two true true = Ok out_coupled /\
    nth_error out_plain 1 = Some (PyArr tdir) /\
    nth_error out_coupled 1 = Some (PyArr tdir).
Proof.
  split; [exact TransmittanceClaims.atm_one_ok |].
  split; [exact TransmittanceClaims.wv_half_1d |].
  split; [exact TransmittanceClaims.mu_two_1d |]. split; [reflexivity |].
  exact (direct_unaffected_by_coupling atm_one wv_half mu_two 1 2
           TransmittanceClaims.atm_one_ok TransmittanceClaims.wv_half_1d
           TransmittanceClaims.mu_two_1d eq_refl true).
Defined.

Lemma trn_mixture_items_witness :
  atm_ok atm_one 1 /\ is_1d wv_half /\ is_1d mu_two /\
  bdim 1 (len1 mu_two) = Some 2%nat /\
  exists tglb tdir tdif,
    trn_mixture atm_one wv_half mu_two false true =
      Ok [PyArr tglb; PyArr tdir; PyArr tdif] /\
    shape tdif = [2; 1]%nat.
Proof.
  split; [exact TransmittanceClaims.atm_one_ok |].
  split; [exact TransmittanceClaims.wv_half_1d |].
  split; [exact TransmittanceClaims.mu_two_1d |]. split; [reflexivity |].
  destruct (trn_mixture_items atm_one wv_half mu_two 1 2
              TransmittanceClaims.atm_one_ok TransmittanceClaims.wv_half_1d
              TransmittanceClaims.mu_two_1d eq_refl false true)
    as (tglb & tdir & tdif & rest & E & _ & _ & S & ->).
  exists tglb, tdir, tdif. split; [exact E | exact S].
Defined.

End TransmittanceMore.

(* ------------------------------------------------------------------ *)
(** ** Argument checks and gas transmittances *)

Module GasMore.

Import Atmosphere AtmosphereFacts Transmittance GasTransmittance.

(** X19.  A wavelength array of more than one dimension is rejected with
    [ValueError] by every operation of the Atmosphere: at once by the two
    optical depths and the three gas transmittances, and -- once [mu0] has
    passed its own checks -- by the Rayleigh, aerosol and mixture
    transmittances, which hand the wavelengths on to the optical depths. *)
Theorem wavelength_dimension_error (T : ndarray R) (a : Atmosphere)
    (wv mu0 : ndarray R) (n N : nat) :
  atm_ok a n -> is_1d mu0 -> bdim n (len1 mu0) = Some N ->
  (1 < ndim wv)%nat ->
  (forall ra, tau_rayleigh a wv ra = Raise ValueError) /\
  (forall ra, tau_aerosols a wv ra = Raise ValueError) /\
  (forall ra, trn_rayleigh a wv mu0 ra = Raise ValueError) /\
  (forall ra cp, trn_aerosols a wv mu0 ra cp = Raise ValueError) /\
  (forall ra cp, trn_mixture a wv mu0 ra cp = Raise ValueError) /\
  trn_water T a wv mu0 = Raise ValueError /\
  trn_ozone T a wv mu0 = Raise ValueError /\
  trn_oxygen T a wv mu0 = Raise ValueError.
Proof.
  intros Ha Hm HN Hw. apply Nat.ltb_lt in Hw.
  destruct (mu0_column a mu0 n N Ha Hm HN) as (E1 & E2 & E3).
  assert (Er : forall ra, tau_rayleigh a wv ra = Raise ValueError)
    by (intros ra; unfold tau_rayleigh; now rewrite Hw).
  assert (Ea : forall ra, tau_aerosols a wv ra = Raise ValueError)
    by (intros ra; unfold tau_aerosols; now rewrite Hw).
  assert (Etr : forall ra, trn_rayleigh a wv mu0 ra = Raise ValueError).
  { intros ra. unfold trn_rayleigh. rewrite E1, E2. cbn [bind].
    rewrite E3. cbn [bind]. now rewrite Er. }
  assert (Eta : forall ra cp, trn_aerosols a wv mu0 ra cp = Raise ValueError).
  { intros ra cp. unfold trn_aerosols. rewrite E1, E2. cbn [bind].
    rewrite E3. cbn [bind]. now rewrite Ea. }
  split; [exact Er |]. split; [exact Ea |]. split; [exact Etr |].
  split; [exact Eta |]. split.
  - intros ra cp. unfold trn_mixture.
    destruct cp; [rewrite Eta | rewrite Etr]; reflexivity.
  - unfold trn_water, trn_ozone, trn_oxygen. rewrite Hw. now repeat split.
Qed.

Lemma wavelength_dimension_error_witness :
  trn_mixture atm_one grid_2d mu_two true true = Raise ValueError.
Proof.
  exact (proj1 (proj2 (proj2 (proj2 (proj2
    (wavelength_dimension_error table_small atm_one grid_2d mu_two 1 2
       TransmittanceClaims.atm_one_ok TransmittanceClaims.mu_two_1d
       eq_refl (le_n 2)))))) true true).
Defined.

(** X20.  A [mu0] array of more than one dimension is rejected with
    [ValueError] by all six transmittance operations, whatever the
    Atmosphere and the wavelengths. *)
Theorem mu0_dimension_error (T : ndarray R) (a : Atmosphere)
    (wv mu0 : ndarray R) :
  (1 < ndim mu0)%nat ->
  (forall ra, trn_rayleigh a wv mu0 ra = Raise ValueError) /\
  (forall ra cp, trn_aerosols a wv mu0 ra cp = Raise ValueError) /\
  (forall ra cp, trn_mixture a wv mu0 ra cp = Raise ValueError) /\
  trn_water T a wv mu0 = Raise ValueError /\
  trn_ozone T a wv mu0 = Raise ValueError /\
  trn_oxygen T a wv mu0 = Raise ValueError.
Proof.
  intros Hm. apply Nat.ltb_lt in Hm.
  assert (Etr : forall ra, trn_rayleigh a wv mu0 ra = Raise ValueError)
    by (intros ra; unfold trn_rayleigh; now rewrite Hm).
  assert (Eta : forall ra cp, trn_aerosols a wv mu0 ra cp = Raise ValueError)
    by (intros ra cp; unfold trn_aerosols; now rewrite Hm).
  split; [exact Etr |]. split; [exact Eta |]. split.
  - intros ra cp. unfold trn_mixture.
    destruct cp; [rewrite Eta | rewrite Etr]; reflexivity.
  - unfold trn_water, trn_ozone, trn_oxygen. rewrite Hm.
    destruct (1 <? ndim wv)%nat; now repeat split.
Qed.

Lemma mu0_dimension_error_witness :
  trn_water table_small atm_one wv_300 grid_2d = Raise ValueError.
Proof.
  exact (proj1 (proj2 (proj2 (proj2
    (mu0_dimension_error table_small atm_one wv_300 grid_2d (le_n 2)))))).
Defined.

(** X21.  The oxygen transmittance does not depend on the Atmosphere: for
    any two Atmospheres that accept [mu0], [trn_oxygen] returns the same
    array, with one row per entry of [mu0] (not per scenario of the
    Atmosphere) and entries
    [exp (- (k (0.209 * 173200) / mu0) ** 0.5641)], [k] the interpolated
    oxygen coefficient. *)
Theorem trn_oxygen_any_atmosphere (T : ndarray R) (a b : Atmosphere)
    (wv mu0 : ndarray R) (n n' N N' : nat) :
  abscoef_ok T -> atm_ok a n -> atm_ok b n' -> is_1d wv -> is_1d mu0 ->
  bdim n (len1 mu0) = Some N -> bdim n' (len1 mu0) = Some N' ->
  exists trn,
    trn_oxygen T a wv mu0 = Ok trn /\
    trn_oxygen T b wv mu0 = Ok trn /\
    shape trn = [len1 mu0; len1 wv] /\
    forall i j, (i < len1 mu0)%nat -> (j < len1 wv)%nat ->
      get2 trn i j
      = exp (- float_power
                 (interp1 (table_row T 0) (table_row T 4) (vget wv j)
                  * (0.209 * 173200) / vget mu0 i)
                 0.5641).
Proof.
  intros HT Ha Hb Hw Hm HN HN'.
  eexists. split; [apply (trn_oxygen_eq T a wv mu0 n N HT Ha Hw Hm HN) |].
  split; [apply (trn_oxygen_eq T b wv mu0 n' N' HT Hb Hw Hm HN') |].
  split; [reflexivity |].
  intros i j Hi Hj. now rewrite get2_mat by assumption.
Qed.

Lemma trn_oxygen_any_atmosphere_witness :
  exists trn,
    trn_oxygen table_small atm_one wv_300 mu_two = Ok trn /\
    trn_oxygen table_small atm_two wv_300 mu_two = Ok trn /\
    shape trn = [2; 1]%nat.
Proof.
  destruct (trn_oxygen_any_atmosphere table_small atm_one atm_two wv_300
              mu_two 1 2 2 2 PipelineClaims.table_small_ok
              TransmittanceClaims.atm_one_ok TransmittanceClaims.atm_two_ok
              PipelineClaims.wv_300_1d TransmittanceClaims.mu_two_1d
              eq_refl eq_refl)
    as (trn & E1 & E2 & S & _).
  exists trn. split; [exact E1 |]. split; [exact E2 | exact S].
Defined.

(** X22.  The ozone transmittance is Beer-Lambert's
    [exp (- k u / mu0)] with [k = 2.687e19 * xsec] and [u = o3 / 1000]: it
    is 1 for a scenario without ozone (and a non-zero [mu0]), and lies in [0, 1] for a non-negative
    cross-section and ozone column and a positive [mu0]. *)
Theorem trn_ozone_beer_lambert (T : ndarray R) (a : Atmosphere)
    (wv mu0 : ndarray R) (n N : nat) :
  abscoef_ok T -> atm_ok a n -> is_1d wv -> is_1d mu0 ->
  bdim n (len1 mu0) = Some N ->
  exists trn,
    trn_ozone T a wv mu0 = Ok trn /\
    shape trn = [N; len1 wv] /\
    forall i j, (i < N)%nat -> (j < len1 wv)%nat ->
      let xsec := interp1 (table_row T 0) (table_row T 3) (vget wv j) in
      let col := vget (o3 a) (scen a i) in
      let mu := mu0_at mu0 i in
      get2 trn i j = exp (- (2.687e19 * xsec) * (1e-3 * col) / mu) /\
      (col = 0 -> mu <> 0 -> get2 trn i j = 1) /\
      (0 <= xsec -> 0 <= col -> 0 < mu -> 0 <= get2 trn i j <= 1).
Proof.
  intros HT Ha Hw Hm HN.
  eexists. split; [apply (trn_ozone_eq T a wv mu0 n N HT Ha Hw Hm HN) |].
  split; [reflexivity |].
  intros i j Hi Hj. cbv zeta. rewrite get2_mat by assumption.
  unfold coef_at.
  set (x := interp1 (table_row T 0) (table_row T 3) (vget wv j)).
  set (c := vget (o3 a) (scen a i)). set (mu := mu0_at mu0 i).
  split; [reflexivity |]. split.
  - intros -> _.
    replace (- (2.687e19 * x) * (1e-3 * 0) / mu) with 0
      by (unfold Rdiv; lra).
    apply exp_0.
  - intros Hx Hc Hmu. split; [left; apply exp_pos |].
    assert (H : - (2.687e19 * x) * (1e-3 * c) / mu <= 0).
    { unfold Rdiv. assert (Hy : 0 < / mu) by now apply Rinv_0_lt_compat.
      assert (Hxc : 0 <= x * c) by now apply Rmult_le_pos.
      assert (Hp : 0 <= x * c * / mu) by (apply Rmult_le_pos; lra).
      nra. }
    apply Rle_trans with (exp 0); [| rewrite exp_0; lra].
    destruct H as [H | H];
      [left; now apply exp_increasing | right; now rewrite H].
Qed.

Lemma trn_ozone_beer_lambert_witness :
  exists trn,
    trn_ozone table_small atm_one wv_300 mu_two = Ok trn /\
    shape trn = [2; 1]%nat.
Proof.
  destruct (trn_ozone_beer_lambert table_small atm_one wv_300 mu_two 1 2
              PipelineClaims.table_small_ok TransmittanceClaims.atm_one_ok
              PipelineClaims.wv_300_1d TransmittanceClaims.mu_two_1d eq_refl)
    as (trn & E & S & _).
  exists trn. split; [exact E | exact S].
Defined.

(** X23.  For a scenario without water vapour the water transmittance is 1
    at every wavelength whose interpolated exponent is positive (and [mu0]
    is not zero); for a non-negative coefficient and water column and a
    positive [mu0] it lies in [0, 1]. *)
Theorem trn_water_dry (T : ndarray R) (a : Atmosphere)
    (wv mu0 : ndarray R) (n N : nat) :
  abscoef_ok T -> atm_ok a n -> is_1d wv -> is_1d mu0 ->
  bdim n (len1 mu0) = Some N ->
  exists trn,
    trn_water T a wv mu0 = Ok trn /\
    shape trn = [N; len1 wv] /\
    forall i j, (i < N)%nat -> (j < len1 wv)%nat ->
      let k := interp1 (table_row T 0) (table_row T 1) (vget wv j) in
      let e := interp1 (table_row T 0) (table_row T 2) (vget wv j) in
      let col := vget (h2o a) (scen a i) in
      let mu := mu0_at mu0 i in
      (col = 0 -> mu <> 0 -> 0 < e -> get2 trn i j = 1) /\
      (0 <= k -> 0 <= col -> 0 < mu -> 0 <= get2 trn i j <= 1).
Proof.
  intros HT Ha Hw Hm HN.
  eexists. split; [apply (trn_water_eq T a wv mu0 n N HT Ha Hw Hm HN) |].
  split; [reflexivity |].
  intros i j Hi Hj. cbv zeta. rewrite get2_mat by assumption.
  unfold coef_at.
  set (k := interp1 (table_row T 0) (table_row T 1) (vget wv j)).
  set (e := interp1 (table_row T 0) (table_row T 2) (vget wv j)).
  set (c := vget (h2o a) (scen a i)). set (mu := mu0_at mu0 i).
  split.
  - intros -> Hmu He. destruct (isclose1 e 0.0); [lra |].
    replace (k * 0 / mu) with 0 by (unfold Rdiv; ring).
    unfold float_power.
    destruct (Req_dec_T e 0); [lra |].
    destruct (Req_dec_T 0 0); [| lra].
    rewrite Ropp_0. apply exp_0.
  - intros Hk Hc Hmu. destruct (isclose1 e 0.0); [lra |].
    split; [left; apply exp_pos |].
    assert (H : 0 <= float_power (k * c / mu) e).
    { unfold float_power.
      destruct (Req_dec_T e 0); [lra |].
      destruct (Req_dec_T (k * c / mu) 0); [lra |].
      left. unfold Rpower. apply exp_pos. }
    apply Rle_trans with (exp 0); [| rewrite exp_0; lra].
    destruct H as [H | <-]; [left; apply exp_increasing; lra |].
    right. now rewrite Ropp_0.
Qed.

Lemma trn_water_dry_witness :
  exists trn,
    trn_water table_small atm_one wv_300 mu_two = Ok trn /\
    shape trn = [2; 1]%nat.
Proof.
  destruct (trn_water_dry table_small atm_one wv_300 mu_two 1 2
              PipelineClaims.table_small_ok TransmittanceClaims.atm_one_ok
              PipelineClaims.wv_300_1d TransmittanceClaims.mu_two_1d eq_refl)
    as (trn & E & S & _).
  exists trn. split; [exact E | exact S].
Defined.

End GasMore.

(* ------------------------------------------------------------------ *)
(** ** The spectral window and the pipeline *)

Module PipelineMore.

Import Geometry Atmosphere AtmosphereFacts Transmittance GasTransmittance.
Import GeometryFacts Radtran.

Lemma combine_fst_snd {A B : Type} (l : list (A * B)) :
  combine (map fst l) (map snd l) = l.
Proof.
  induction l as [| [x y] l IH]; [reflexivity |]. cbn. now rewrite IH.
Qed.

Lemma in_window_iff (lo hi w i : R) :
  in_window lo hi (w, i) = true <-> lo <= w <= hi.
Proof.
  unfold in_window, Rleb. cbn [fst].
  destruct (Rle_dec lo w), (Rle_dec w hi); cbn; split; intros; try easy; lra.
Qed.

Lemma atm_dark_ok : atm_ok atm_dark 1.
Proof. unfold atm_ok; cbn. repeat constructor. Qed.

(** X24.  The loop over the TOA table keeps exactly the rows whose
    wavelength lies in [[wvln_th[0], wvln_th[1]]], bounds included, in the
    order of the table; wavelengths and irradiances stay paired, and a
    window whose upper bound is below its lower bound keeps nothing. *)
Theorem window_selects (th : list R) (lo hi : R) (rows : list (R * R)) :
  getitem th 0 = Ok lo -> getitem th 1 = Ok hi ->
  exists wv irr,
    window th rows = Ok (wv, irr) /\
    length wv = length irr /\
    combine wv irr
      = filter (fun r => Rleb lo (fst r) && Rleb (fst r) hi) rows /\
    (forall w i, In (w, i) (combine wv irr)
                 <-> In (w, i) rows /\ lo <= w <= hi) /\
    (hi < lo -> wv = [] /\ irr = []).
Proof.
  intros Hlo Hhi. do 2 eexists.
  split; [apply (PipelineClaims.window_eq th lo hi rows Hlo Hhi) |].
  split; [now rewrite !length_map |].
  rewrite combine_fst_snd. split; [reflexivity |]. split.
  - intros w i. rewrite filter_In. now rewrite in_window_iff.
  - intros Hlt.
    assert (E : filter (in_window lo hi) rows = []).
    { induction rows as [| [w i] rows IH]; [reflexivity |]. cbn [filter].
      destruct (in_window lo hi (w, i)) eqn:Ew; [| exact IH].
      apply in_window_iff in Ew. lra. }
    now rewrite E.
Qed.

Lemma window_selects_witness :
  exists wv irr,
    window [300; 2600] toa_small = Ok (wv, irr) /\
    length wv = length irr.
Proof.
  destruct (window_selects [300; 2600] 300 2600 toa_small eq_refl eq_refl)
    as (wv & irr & E & L & _).
  exists wv, irr. split; [exact E | exact L].
Defined.

(** X25.  With fewer than two thresholds the loop over a TOA table (of two
    rows or more) raises [IndexError] at its first row, and so does
    [radtran], whatever the Geometry and the Atmosphere. *)
Theorem short_window_index_error (T : ndarray R) (geo : Geometry)
    (atm : Atmosphere) (toa : list (R * R)) (th : list R) (cp : bool) :
  (length th < 2)%nat -> (2 <= length toa)%nat ->
  window th toa = Raise IndexError /\
  radtran T geo atm toa th cp = Raise IndexError.
Proof.
  intros Hth Htoa.
  assert (E : window th toa = Raise IndexError).
  { destruct toa as [| [w i] rows]; [cbn in Htoa; lia |].
    destruct th as [| x [| y th]]; [reflexivity | reflexivity |].
    cbn in Hth. lia. }
  split; [exact E |]. unfold radtran. now rewrite E.
Qed.

Lemma short_window_index_error_witness :
  radtran table_small geo_two atm_one toa_small [300] true
  = Raise IndexError.
Proof.
  refine (proj2 (short_window_index_error table_small geo_two atm_one
                   toa_small [300] true _ _)).
  - cbn. lia.
  - cbn. lia.
Defined.

(** The direct transmittance of the mixture is the same array with and
    without coupling. *)
Lemma mixture_direct (a : Atmosphere) (wv mu0 : ndarray R) (n N : nat) :
  atm_ok a n -> is_1d wv -> is_1d mu0 -> bdim n (len1 mu0) = Some N ->
  exists tg tf al tg' tf' al' td,
    trn_mixture a wv mu0 true false = Ok [tg; PyArr td; tf; al] /\
    trn_mixture a wv mu0 true true = Ok [tg'; PyArr td; tf'; al'].
Proof.
  intros Ha Hw Hm HN.
  pose proof (trn_mixture_plain_eq a wv mu0 n N Ha Hw Hm HN true) as Ep.
  pose proof (trn_mixture_coupled_eq a wv mu0 n N Ha Hw Hm HN true) as Ec.
  rewrite (trn_aerosols_coupled_eq a wv mu0 n N Ha Hw Hm HN true) in Ec.
  cbv zeta in Ep, Ec. cbn [bind firstn skipn app] in Ec. cbn [app] in Ep.
  do 7 eexists. split; [exact Ep |]. rewrite Ec.
  do 2 f_equal. f_equal. f_equal. apply mat_ext. intros i j Hi Hj.
  unfold direct. rewrite <- exp_plus. f_equal.
  unfold Rdiv. ring.
Qed.

Section Returning.

Variables (T : ndarray R) (geo : Geometry) (atm : Atmosphere).
Variables (toa : list (R * R)) (th : list R) (lo hi : R) (ng n : nat).
Hypothesis HT : abscoef_ok T.
Hypothesis Hds : shape (day geo) = [ng].
Hypothesis Hdl : length (data (day geo)) = ng.
Hypothesis Hms : shape (Geometry.mu0 geo) = [ng].
Hypothesis Hml : length (data (Geometry.mu0 geo)) = ng.
Hypothesis Hng : ng <> 1%nat.
Hypothesis Ha : atm_ok atm n.
Hypothesis Hn : n = 1%nat \/ n = ng.
Hypothesis Hlo : getitem th 0 = Ok lo.
Hypothesis Hhi : getitem th 1 = Ok hi.

Lemma scen_in_range (i : nat) : (i < ng)%nat -> (scen atm i < n)%nat.
Proof.
  intros Hi. unfold scen. rewrite (nrows_ok atm n Ha).
  destruct Hn as [-> | ->]; [rewrite bidx_1; lia | now rewrite bidx_id].
Qed.

(** X26.  Over a ground that reflects nothing ([rho = 0] in every scenario)
    the amplification factor is 1: the global irradiance is
    [I0 mu0 Tglb Tgas], whatever the atmospheric albedo. *)
Theorem dark_ground_no_amplification (cp : bool) :
  (forall i, (i < n)%nat -> vget (rho atm) i = 0) ->
  let kept := filter (in_window lo hi) toa in
  let wvln0 := map fst kept in
  let wvln_um := amap (fun x => 1e-3 * x) (asarray wvln0) in
  exists irr_glb irr_dir irr_dif I0 tglb tdir tdif alb twat tozo toxy,
    radtran T geo atm toa th cp = Ok (irr_glb, irr_dir, irr_dif, wvln0) /\
    scale_toa geo (map snd kept) = Ok I0 /\
    trn_mixture atm wvln_um (Geometry.mu0 geo) true cp
      = Ok [PyArr tglb; PyArr tdir; PyArr tdif; PyArr alb] /\
    trn_water T atm (asarray wvln0) (Geometry.mu0 geo) = Ok twat /\
    trn_ozone T atm (asarray wvln0) (Geometry.mu0 geo) = Ok tozo /\
    trn_oxygen T atm (asarray wvln0) (Geometry.mu0 geo) = Ok toxy /\
    forall i j, (i < ng)%nat -> (j < length wvln0)%nat ->
      get2 irr_glb i j
      = get2 I0 i j * vget (Geometry.mu0 geo) i * get2 tglb i j
        * (get2 twat i j * get2 tozo i j * get2 toxy i j).
Proof.
  intros Hrho. cbv zeta.
  destruct (PipelineClaims.radtran_returns T geo atm toa th cp lo hi ng n
              HT Hds Hdl Hms Hml Hng Ha Hn Hlo Hhi)
    as (G & D & F & I0 & tglb & tdir & tdif & alb & twat & tozo & toxy
        & E & EI & Em & Ew & Eo & Ex & _ & _ & _ & H).
  exists G, D, F, I0, tglb, tdir, tdif, alb, twat, tozo, toxy.
  split; [exact E |]. split; [exact EI |]. split; [exact Em |].
  split; [exact Ew |]. split; [exact Eo |]. split; [exact Ex |].
  intros i j Hi Hj. destruct (H i j Hi Hj) as (_ & EG & _).
  rewrite EG, (Hrho _ (scen_in_range i Hi)).
  rewrite Rmult_0_l, Rminus_0_r. unfold Rdiv. rewrite Rinv_1. ring.
Qed.

(** X27.  A window whose upper bound is below its lower bound selects no
    wavelength: [radtran] still returns, with an empty wavelength list and
    irradiances of shape [(ng, 0)]. *)
Theorem empty_window (cp : bool) :
  hi < lo ->
  exists irr_glb irr_dir irr_dif,
    radtran T geo atm toa th cp = Ok (irr_glb, irr_dir, irr_dif, []) /\
    shape irr_glb = [ng; 0%nat] /\ shape irr_dir = [ng; 0%nat] /\
    shape irr_dif = [ng; 0%nat].
Proof.
  intros Hlt.
  assert (E0 : filter (in_window lo hi) toa = []).
  { clear -Hlt. induction toa as [| [w i] rows IH]; [reflexivity |].
    cbn [filter]. destruct (in_window lo hi (w, i)) eqn:Ew; [| exact IH].
    apply in_window_iff in Ew. lra. }
  destruct (PipelineClaims.radtran_returns T geo atm toa th cp lo hi ng n
              HT Hds Hdl Hms Hml Hng Ha Hn Hlo Hhi)
    as (G & D & F & I0 & tglb & tdir & tdif & alb & twat & tozo & toxy
        & E & _ & _ & _ & _ & _ & SG & SD & SF & _).
  rewrite E0 in E, SG, SD, SF. cbn [map length] in E, SG, SD, SF.
  exists G, D, F. split; [exact E |]. split; [exact SG |].
  split; [exact SD | exact SF].
Qed.

(** X28.  The direct irradiance does not depend on the coupling flag: with
    and without coupling [radtran] returns the same wavelengths and, entry
    by entry, the same direct irradiance (over the reals). *)
Theorem direct_irradiance_any_coupling :
  exists g d f g' d' f' wvln0,
    radtran T geo atm toa th true = Ok (g, d, f, wvln0) /\
    radtran T geo atm toa th false = Ok (g', d', f', wvln0) /\
    shape d = [ng; length wvln0] /\ shape d' = [ng; length wvln0] /\
    forall i j, (i < ng)%nat -> (j < length wvln0)%nat ->
      get2 d i j = get2 d' i j.
Proof.
  destruct (PipelineClaims.radtran_returns T geo atm toa th true lo hi ng n
              HT Hds Hdl Hms Hml Hng Ha Hn Hlo Hhi)
    as (G & D & F & I0 & tglb & tdir & tdif & alb & twat & tozo & toxy
        & E & EI & Em & Ew & Eo & Ex & _ & SD & _ & H).
  destruct (PipelineClaims.radtran_returns T geo atm toa th false lo hi ng n
              HT Hds Hdl Hms Hml Hng Ha Hn Hlo Hhi)
    as (G' & D' & F' & I0' & tglb' & tdir' & tdif' & alb' & twat' & tozo'
        & toxy' & E' & EI' & Em' & Ew' & Eo' & Ex' & _ & SD' & _ & H').
  rewrite EI in EI'. injection EI' as <-.
  rewrite Ew in Ew'. injection Ew' as <-.
  rewrite Eo in Eo'. injection Eo' as <-.
  rewrite Ex in Ex'. injection Ex' as <-.
  set (wvln0 := map fst (filter (in_window lo hi) toa)) in *.
  set (wvln_um := amap (fun x => 1e-3 * x) (asarray wvln0)) in *.
  assert (Hm1 : is_1d (Geometry.mu0 geo)).
  { split; [unfold ndim; rewrite Hms; cbn; lia |].
    unfold wf. rewrite Hms, Hml. cbn. lia. }
  assert (HN : bdim n (len1 (Geometry.mu0 geo)) = Some ng).
  { unfold len1. rewrite Hms. cbn [size fold_right]. rewrite Nat.mul_1_r.
    destruct Hn as [-> | ->]; [apply bdim_1_l | apply bdim_same]. }
  assert (Hw : is_1d wvln_um).
  { split; [cbn; lia | unfold wf; cbn; rewrite length_map; lia]. }
  destruct (mixture_direct atm wvln_um (Geometry.mu0 geo) n ng Ha Hw Hm1 HN)
    as (tg & tf & al & tg' & tf' & al' & td & Ep & Ec).
  rewrite Ec in Em. injection Em as _ <- _ _.
  rewrite Ep in Em'. injection Em' as _ <- _ _.
  exists G, D, F, G', D', F', wvln0.
  split; [exact E |]. split; [exact E' |].
  split; [exact SD |]. split; [exact SD' |].
  intros i j Hi Hj.
  destruct (H i j Hi Hj) as (_ & _ & -> & _).
  destruct (H' i j Hi Hj) as (_ & _ & -> & _). reflexivity.
Qed.

End Returning.

Lemma dark_ground_no_amplification_witness :
  exists irr_glb irr_dir irr_dif wvln0,
    radtran table_small geo_two atm_dark toa_small [300; 2600] true
    = Ok (irr_glb, irr_dir, irr_dif, wvln0).
Proof.
  assert (Hrho : forall i, (i < 1)%nat -> vget (rho atm_dark) i = 0).
  { intros i Hi. destruct i; [reflexivity | lia]. }
  destruct (dark_ground_no_amplification table_small geo_two atm_dark
              toa_small [300; 2600] 300 2600 2 1
              PipelineClaims.table_small_ok eq_refl eq_refl eq_refl eq_refl
              ltac:(discriminate) atm_dark_ok (or_introl eq_refl)
              eq_refl eq_refl true Hrho)
    as (G & D & F & _ & _ & _ & _ & _ & _ & _ & _ & E & _).
  eexists G, D, F, _. exact E.
Defined.

Lemma empty_window_witness :
  exists irr_glb irr_dir irr_dif,
    radtran table_small geo_two atm_one toa_small [2600; 300] true
    = Ok (irr_glb, irr_dir, irr_dif, []) /\
    shape irr_glb = [2; 0]%nat.
Proof.
  destruct (empty_window table_small geo_two atm_one toa_small [2600; 300]
              2600 300 2 1
              PipelineClaims.table_small_ok eq_refl eq_refl eq_refl eq_refl
              ltac:(discriminate) TransmittanceClaims.atm_one_ok
              (or_introl eq_refl) eq_refl eq_refl true ltac:(lra))
    as (G & D & F & E & S & _).
  exists G, D, F. split; [exact E | exact S].
Defined.

Lemma direct_irradiance_any_coupling_witness :
  exists g d f g' d' f' wvln0,
    radtran table_small geo_two atm_one toa_small [300; 2600] true
    = Ok (g, d, f, wvln0) /\
    radtran table_small geo_two atm_one toa_small [300; 2600] false
    = Ok (g', d', f', wvln0).
Proof.
  destruct (direct_irradiance_any_coupling table_small geo_two atm_one
              toa_small [300; 2600] 300 2600 2 1
              PipelineClaims.table_small_ok eq_refl eq_refl eq_refl eq_refl
              ltac:(discriminate) TransmittanceClaims.atm_one_ok
              (or_introl eq_refl) eq_refl eq_refl)
    as (g & d & f & g' & d' & f' & w & E & E' & _).
  exists g, d, f, g', d', f', w. split; [exact E | exact E'].
Defined.

End PipelineMore.
